(** * OpenStreetMap wrapper: a shallow embedding of the map session

    This development embeds the [OpenStreetMap] class (a wrapper over the
    Leaflet rendering engine) as state-passing functions over a record that
    holds the private fields of the class, and proves properties of the
    selection workflow, the marker / circle registries and the route planner.

    Conventions.
    - JavaScript numbers are modelled in exact real arithmetic: a number is
      either [NaN] or a finite real.  Rounding of IEEE-754 doubles and the
      infinities are outside the model of the session; the distance
      calculator is embedded a second time on doubles, in [Binary64], for
      what rounding does to it.
    - Objects created by the rendering engine (markers, circles, paths, tile
      layers) live in a store; a handle is the position of the object in it.
    - Text produced by template literals is kept structured ([Text]) instead
      of being flattened into characters.
    - Effects observable from outside the class (console output, the blocking
      notice, the invocation of the registered callback) are recorded in a
      trace, latest first. *)

From Stdlib Require Import Reals Lra Lia List String ZArith Bool Arith.
Import ListNotations.

Open Scope string_scope.
Open Scope list_scope.
Open Scope R_scope.

(* ------------------------------------------------------------------ *)
(** ** JavaScript values that flow through coordinate positions *)

(** A JavaScript number: [NaN] or a finite real. *)
Inductive Num : Type :=
| NaN
| Fin (r : R).

(** The values the class receives or produces where a latitude, a longitude,
    a zoom level or a distance is expected.  [VFixed d n] is the string
    [n.toFixed(d)]: the click handler stores such strings as coordinates. *)
Inductive JsVal : Type :=
| VUndefined
| VNull
| VNum (n : Num)
| VFixed (digits : nat) (n : Num).

Definition Rzerob (r : R) : bool :=
  if Req_dec_T r 0 then true else false.

(** ToBoolean: [undefined], [null], [NaN] and zero are falsy; a string made
    by [toFixed] is never empty, hence truthy. *)
Definition truthy (v : JsVal) : bool :=
  match v with
  | VUndefined | VNull => false
  | VNum NaN => false
  | VNum (Fin r) => negb (Rzerob r)
  | VFixed _ _ => true
  end.

(** [a || b] *)
Definition orElse (a b : JsVal) : JsVal := if truthy a then a else b.

(** [a ?? b] *)
Definition nullish (a b : JsVal) : JsVal :=
  match a with
  | VUndefined | VNull => b
  | _ => a
  end.

(** Integer part towards zero. *)
Definition Rtrunc (r : R) : R :=
  if Rle_dec 0 r then IZR (Int_part r) else - IZR (Int_part (- r)).

(** The number denoted by the decimal string [r.toFixed(d)]: [r] rounded to
    [d] decimals, ties away from zero; from 1e21 on [toFixed] prints the
    number itself. *)
Definition roundFixed (d : nat) (r : R) : R :=
  if Rle_dec (10 ^ 21) (Rabs r) then r
  else
    let m := IZR (Int_part (Rabs r * 10 ^ d + / 2)) / 10 ^ d in
    if Rle_dec 0 r then m else - m.

(** [parseFloat(v)]: the argument is converted to a string and its longest
    numeric prefix is read; ["undefined"] and ["null"] have none. *)
Definition parseFloat (v : JsVal) : Num :=
  match v with
  | VUndefined | VNull => NaN
  | VNum n => n
  | VFixed _ NaN => NaN
  | VFixed d (Fin r) => Fin (roundFixed d r)
  end.

(** [String(r)] is written in exponent notation ([5e-7], [1e+21]) when [r]
    is not zero and its magnitude is below 1e-6 or at least 1e21, and in
    plain decimal notation otherwise. *)
Definition exponentNotation (r : R) : bool :=
  if Req_dec_T r 0 then false
  else if Rlt_dec (Rabs r) (/ 10 ^ 6) then true
       else if Rle_dec (10 ^ 21) (Rabs r) then true else false.

(** The first significant digit of a positive number: with [k] the integer
    part of its decimal logarithm, the integer part of [r / 10^k]. *)
Definition leadingDigit (r : R) : R :=
  IZR (Int_part (r / powerRZ 10 (Int_part (ln r / ln 10)))).

(** The integer that [parseInt] reads at the start of [String(r)]: the
    integer part of a number in decimal notation; of one in exponent
    notation the first significant digit, with its sign, since the digits
    end at the decimal point or at the [e]. *)
Definition integerPrefix (r : R) : R :=
  if exponentNotation r then
    if Rle_dec 0 r then leadingDigit r else - leadingDigit (- r)
  else Rtrunc r.

(** [parseInt(v)]: the argument is converted to a string and the integer at
    its start is read; ["undefined"], ["null"] and ["NaN"] have none.  From
    1e21 on [toFixed] prints the number as [String] does. *)
Definition parseInt (v : JsVal) : Num :=
  match v with
  | VUndefined | VNull => NaN
  | VNum NaN | VFixed _ NaN => NaN
  | VNum (Fin r) => Fin (integerPrefix r)
  | VFixed d (Fin r) =>
      if Rle_dec (10 ^ 21) (Rabs r) then Fin (integerPrefix r)
      else Fin (Rtrunc (roundFixed d r))
  end.

(** ToNumber, the coercion applied by arithmetic operators. *)
Definition ToNumber (v : JsVal) : Num :=
  match v with
  | VUndefined => NaN
  | VNull => Fin 0
  | VNum n => n
  | VFixed _ NaN => NaN
  | VFixed d (Fin r) => Fin (roundFixed d r)
  end.

(** Arithmetic on numbers: [NaN] is absorbing. *)
Definition lift1 (f : R -> R) (a : Num) : Num :=
  match a with
  | Fin x => Fin (f x)
  | NaN => NaN
  end.

Definition lift2 (f : R -> R -> R) (a b : Num) : Num :=
  match a, b with
  | Fin x, Fin y => Fin (f x y)
  | _, _ => NaN
  end.

Definition nadd : Num -> Num -> Num := lift2 Rplus.
Definition nsub : Num -> Num -> Num := lift2 Rminus.
Definition nmul : Num -> Num -> Num := lift2 Rmult.

(** Division by a non-zero literal of the source (180, 2, 1000, 60). *)
Definition ndivc (a : Num) (c : R) : Num := lift1 (fun x => x / c) a.

(** [x ** 2] *)
Definition npow2 : Num -> Num := lift1 (fun x => x ^ 2).

Definition Math_sin : Num -> Num := lift1 sin.
Definition Math_cos : Num -> Num := lift1 cos.

Definition Math_sqrt (a : Num) : Num :=
  match a with
  | Fin x => if Rlt_dec x 0 then NaN else Fin (sqrt x)
  | NaN => NaN
  end.

(** The angle of the point [(x, y)], in (-PI, PI]. *)
Definition Ratan2 (y x : R) : R :=
  if Rlt_dec 0 x then atan (y / x)
  else if Rlt_dec x 0 then
         if Rle_dec 0 y then atan (y / x) + PI else atan (y / x) - PI
       else if Rlt_dec 0 y then PI / 2
            else if Rlt_dec y 0 then - (PI / 2) else 0.

Definition Math_atan2 : Num -> Num -> Num := lift2 Ratan2.

(** The [==] comparison of two numbers: [NaN] equals nothing. *)
Definition num_eq (a b : Num) : Prop :=
  match a, b with
  | Fin x, Fin y => x = y
  | _, _ => False
  end.

(* ------------------------------------------------------------------ *)
(** ** Distance calculator *)

Definition toRad (deg : Num) : Num := ndivc (nmul deg (Fin PI)) 180.

(** The [a] term of the Haversine formula. *)
Definition haversineTerm (lat1 lng1 lat2 lng2 : Num) : Num :=
  let dLat := toRad (nsub lat2 lat1) in
  let dLng := toRad (nsub lng2 lng1) in
  nadd (npow2 (Math_sin (ndivc dLat 2)))
       (nmul (nmul (Math_cos (toRad lat1)) (Math_cos (toRad lat2)))
             (npow2 (Math_sin (ndivc dLng 2)))).

(** [static #haversineDistance(lat1, lng1, lat2, lng2)], in metres. *)
Definition haversineDistance (lat1 lng1 lat2 lng2 : Num) : Num :=
  let R0 := Fin 6371000 in
  let a := haversineTerm lat1 lng1 lat2 lng2 in
  nmul (nmul R0 (Fin 2))
       (Math_atan2 (Math_sqrt a) (Math_sqrt (nsub (Fin 1) a))).

(** The real-valued counterparts of [toRad] and [haversineTerm], used to
    reason about finite coordinates. *)
Definition rad (x : R) : R := x * PI / 180.

Definition hterm (lat1 lng1 lat2 lng2 : R) : R :=
  sin (rad (lat2 - lat1) / 2) ^ 2
  + cos (rad lat1) * cos (rad lat2) * sin (rad (lng2 - lng1) / 2) ^ 2.

(* ------------------------------------------------------------------ *)
(** ** Text, layers and the rendering surface *)

(** Text as template literals build it: literal pieces and interpolated
    values. *)
Inductive Text : Type :=
| TLit (s : string)
| TVal (v : JsVal)
| TCat (a b : Text).

Declare Scope text_scope.
Delimit Scope text_scope with text.
Bind Scope text_scope with Text.
Notation "a +++ b" := (TCat a b) (at level 60, right associativity) : text_scope.
Notation "' s" := (TLit s%string) (at level 9, s at level 9, format "' s") : text_scope.
Notation "$ v" := (TVal v) (at level 9, v at level 9, format "$ v") : text_scope.

(** ToBoolean of a text: only the empty string is falsy; the printed form
    of a value is never empty. *)
Fixpoint text_truthy (t : Text) : bool :=
  match t with
  | TLit s => negb (String.eqb s "")
  | TVal _ => true
  | TCat a b => text_truthy a || text_truthy b
  end.

Definition str_truthy (s : string) : bool := negb (String.eqb s "").

(** [if (popup) layer.bindPopup(popup)]: a falsy content binds nothing. *)
Definition boundPopup (popupContent : option Text) : option Text :=
  match popupContent with
  | Some p => if text_truthy p then Some p else None
  | None => None
  end.

(** A handle stands for a reference to an object of the rendering engine:
    its position in the object store. *)
Definition Handle : Type := nat.

Record LineStyle : Type := {
  ls_color : string;
  ls_weight : Num;
  ls_opacity : Num;
  ls_dashArray : option string
}.

(** The objects the class asks the rendering engine to create. *)
Inductive Layer : Type :=
| TileLayer (url attribution : string)
| Marker (lat lng : JsVal) (icon : string) (popup : option Text)
| Polyline (coordinates : list (JsVal * JsVal)) (style : LineStyle)
| Circle (lat lng radius : JsVal) (color fillColor : string)
         (fillOpacity weight : Num) (popup : option Text).

Definition is_marker (l : Layer) : bool :=
  match l with Marker _ _ _ _ => true | _ => false end.

Definition is_circle (l : Layer) : bool :=
  match l with Circle _ _ _ _ _ _ _ _ => true | _ => false end.

Definition is_polyline (l : Layer) : bool :=
  match l with Polyline _ _ => true | _ => false end.

Inductive Bounds : Type :=
| BoundsBox (south west north east : JsVal)
| BoundsOfLayers (group : list Handle)
| BoundsOfPath (path : Handle).

(** Commands that change what the surface shows.  [SetView lat lng None]
    keeps the current zoom. *)
Inductive ViewCmd : Type :=
| SetView (lat lng : JsVal) (zoom : option JsVal)
| FitBounds (b : Bounds) (padding : option (nat * nat)).

Record Geocoder : Type := {
  gc_placeholder : string;
  gc_errorMessage : string
}.

(** Modelled from the spec: the rendering engine (Leaflet) is not part of
    the repository sources; its map object follows the rendering engine
    contract of the specification: it is bound to a container, holds the
    layers attached to it, receives view commands (latest first), controls
    and listeners.  Attaching an attached layer and removing an absent one
    do nothing; a map is ready as soon as its view has been set. *)
Record LeafletMap : Type := {
  container : string;
  layers : list Handle;
  viewLog : list ViewCmd;
  geocoders : list Geocoder;
  clickListeners : nat;
  confirmListeners : nat
}.

Definition handle_in (h : Handle) (l : list Handle) : bool :=
  existsb (Nat.eqb h) l.

Definition addLayer (h : Handle) (m : LeafletMap) : LeafletMap :=
  {| container := container m;
     layers := if handle_in h (layers m) then layers m else layers m ++ [h];
     viewLog := viewLog m;
     geocoders := geocoders m;
     clickListeners := clickListeners m;
     confirmListeners := confirmListeners m |}.

Definition removeLayer (h : Handle) (m : LeafletMap) : LeafletMap :=
  {| container := container m;
     layers := filter (fun x => negb (Nat.eqb h x)) (layers m);
     viewLog := viewLog m;
     geocoders := geocoders m;
     clickListeners := clickListeners m;
     confirmListeners := confirmListeners m |}.

Definition pushView (c : ViewCmd) (m : LeafletMap) : LeafletMap :=
  {| container := container m;
     layers := layers m;
     viewLog := c :: viewLog m;
     geocoders := geocoders m;
     clickListeners := clickListeners m;
     confirmListeners := confirmListeners m |}.

Definition addGeocoder (g : Geocoder) (m : LeafletMap) : LeafletMap :=
  {| container := container m;
     layers := layers m;
     viewLog := viewLog m;
     geocoders := geocoders m ++ [g];
     clickListeners := clickListeners m;
     confirmListeners := confirmListeners m |}.

Definition addSelectorListeners (m : LeafletMap) : LeafletMap :=
  {| container := container m;
     layers := layers m;
     viewLog := viewLog m;
     geocoders := geocoders m;
     clickListeners := S (clickListeners m);
     confirmListeners := S (confirmListeners m) |}.

(** [L.map(containerId)] *)
Definition L_map (containerId : string) : LeafletMap :=
  {| container := containerId;
     layers := [];
     viewLog := [];
     geocoders := [];
     clickListeners := 0;
     confirmListeners := 0 |}.

(* ------------------------------------------------------------------ *)
(** ** The session *)

Record Config : Type := {
  cfg_lat : JsVal;
  cfg_lng : JsVal;
  cfg_zoom : JsVal;
  cfg_containerId : string;
  cfg_tileUrl : string;
  cfg_attribution : string;
  cfg_selectorIcon : string
}.

(** [static DEFAULTS] *)
Definition DEFAULTS : Config :=
  {| cfg_lat := VNum (Fin 8.240773);
     cfg_lng := VNum (Fin (-65.546409));
     cfg_zoom := VNum (Fin 7);
     cfg_containerId := "map";
     cfg_tileUrl := "https://{s}.tile.openstreetmap.org/{z}/{x}/{y}.png";
     cfg_attribution := "© OpenStreetMap | Strix Technologies | aceroraas";
     cfg_selectorIcon := "📦" |}.

(** [static LINKS] *)
Definition LINKS_googleMaps (lat lng : JsVal) : Text :=
  ('"https://www.google.com/maps?q=" +++ $lat +++ '"," +++ $lng)%text.

Definition LINKS_openStreetMap (lat lng : JsVal) : Text :=
  ('"https://www.openstreetmap.org/?mlat=" +++ $lat +++ '"&mlon=" +++ $lng
   +++ '"&zoom=15")%text.

(** [static OSRM_URL] *)
Definition OSRM_URL : string := "https://router.project-osrm.org/route/v1/driving".

(** The options of the constructor: an absent field keeps the default. *)
Record ConfigOptions : Type := {
  co_lat : option JsVal;
  co_lng : option JsVal;
  co_zoom : option JsVal;
  co_containerId : option string;
  co_tileUrl : option string;
  co_attribution : option string;
  co_selectorIcon : option string
}.

Definition noOptions : ConfigOptions :=
  {| co_lat := None; co_lng := None; co_zoom := None; co_containerId := None;
     co_tileUrl := None; co_attribution := None; co_selectorIcon := None |}.

Definition default {A : Type} (d : A) (o : option A) : A :=
  match o with Some a => a | None => d end.

(** What [getSelectedCoordinates] derives from the stored coordinates. *)
Record SelectedPoint : Type := {
  sp_lat : Num;
  sp_lng : Num;
  sp_timestamp : string;
  sp_formatted : Text;
  sp_googleMapsUrl : Text;
  sp_openStreetMapUrl : Text
}.

(** The function registered by [setupSelector]: the default [() => {}] or a
    function of the caller, known by an identifier only. *)
Inductive Callback : Type :=
| DefaultNoop
| UserCallback (id : nat).

Record RouteLayer : Type := {
  rl_polyline : Handle;
  rl_originMarker : option Handle;
  rl_destinationMarker : option Handle
}.

(** What the class does to the world outside the rendering surface. *)
Inductive Effect : Type :=
| ConsoleWarn (msg : string)
| ConsoleError (msg : string)
| Alert (msg : string)
| CallbackInvoked (cb : Callback) (coords : SelectedPoint)
| FetchRequest (url : Text).

(** The private fields of an [OpenStreetMap] instance with its [config],
    followed by the object store of the rendering engine and the trace of
    effects (latest first). *)
Record OpenStreetMap : Type := {
  config : Config;
  map : option LeafletMap;
  selectorMarker : option Handle;
  selectedCoords : option (JsVal * JsVal);
  isSelectorEnabled : bool;
  onSelectCallback : option Callback;
  routeLayers : list RouteLayer;
  markers : list Handle;
  circles : list Handle;
  objects : list Layer;
  trace : list Effect
}.

Definition set_config (c : Config) (s : OpenStreetMap) : OpenStreetMap :=
  {| config := c; map := map s; selectorMarker := selectorMarker s;
     selectedCoords := selectedCoords s;
     isSelectorEnabled := isSelectorEnabled s;
     onSelectCallback := onSelectCallback s; routeLayers := routeLayers s;
     markers := markers s; circles := circles s; objects := objects s;
     trace := trace s |}.

Definition set_map (m : option LeafletMap) (s : OpenStreetMap) : OpenStreetMap :=
  {| config := config s; map := m; selectorMarker := selectorMarker s;
     selectedCoords := selectedCoords s;
     isSelectorEnabled := isSelectorEnabled s;
     onSelectCallback := onSelectCallback s; routeLayers := routeLayers s;
     markers := markers s; circles := circles s; objects := objects s;
     trace := trace s |}.

Definition set_selectorMarker (h : option Handle) (s : OpenStreetMap)
  : OpenStreetMap :=
  {| config := config s; map := map s; selectorMarker := h;
     selectedCoords := selectedCoords s;
     isSelectorEnabled := isSelectorEnabled s;
     onSelectCallback := onSelectCallback s; routeLayers := routeLayers s;
     markers := markers s; circles := circles s; objects := objects s;
     trace := trace s |}.

Definition set_selectedCoords (c : option (JsVal * JsVal)) (s : OpenStreetMap)
  : OpenStreetMap :=
  {| config := config s; map := map s; selectorMarker := selectorMarker s;
     selectedCoords := c;
     isSelectorEnabled := isSelectorEnabled s;
     onSelectCallback := onSelectCallback s; routeLayers := routeLayers s;
     markers := markers s; circles := circles s; objects := objects s;
     trace := trace s |}.

Definition set_selector (b : bool) (cb : option Callback) (s : OpenStreetMap)
  : OpenStreetMap :=
  {| config := config s; map := map s; selectorMarker := selectorMarker s;
     selectedCoords := selectedCoords s;
     isSelectorEnabled := b;
     onSelectCallback := cb; routeLayers := routeLayers s;
     markers := markers s; circles := circles s; objects := objects s;
     trace := trace s |}.

Definition set_routeLayers (r : list RouteLayer) (s : OpenStreetMap)
  : OpenStreetMap :=
  {| config := config s; map := map s; selectorMarker := selectorMarker s;
     selectedCoords := selectedCoords s;
     isSelectorEnabled := isSelectorEnabled s;
     onSelectCallback := onSelectCallback s; routeLayers := r;
     markers := markers s; circles := circles s; objects := objects s;
     trace := trace s |}.

Definition set_markers (l : list Handle) (s : OpenStreetMap) : OpenStreetMap :=
  {| config := config s; map := map s; selectorMarker := selectorMarker s;
     selectedCoords := selectedCoords s;
     isSelectorEnabled := isSelectorEnabled s;
     onSelectCallback := onSelectCallback s; routeLayers := routeLayers s;
     markers := l; circles := circles s; objects := objects s;
     trace := trace s |}.

Definition set_circles (l : list Handle) (s : OpenStreetMap) : OpenStreetMap :=
  {| config := config s; map := map s; selectorMarker := selectorMarker s;
     selectedCoords := selectedCoords s;
     isSelectorEnabled := isSelectorEnabled s;
     onSelectCallback := onSelectCallback s; routeLayers := routeLayers s;
     markers := markers s; circles := l; objects := objects s;
     trace := trace s |}.

Definition set_objects (l : list Layer) (s : OpenStreetMap) : OpenStreetMap :=
  {| config := config s; map := map s; selectorMarker := selectorMarker s;
     selectedCoords := selectedCoords s;
     isSelectorEnabled := isSelectorEnabled s;
     onSelectCallback := onSelectCallback s; routeLayers := routeLayers s;
     markers := markers s; circles := circles s; objects := l;
     trace := trace s |}.

Definition set_trace (l : list Effect) (s : OpenStreetMap) : OpenStreetMap :=
  {| config := config s; map := map s; selectorMarker := selectorMarker s;
     selectedCoords := selectedCoords s;
     isSelectorEnabled := isSelectorEnabled s;
     onSelectCallback := onSelectCallback s; routeLayers := routeLayers s;
     markers := markers s; circles := circles s; objects := objects s;
     trace := l |}.

(** [isInitialized] *)
Definition isInitialized (s : OpenStreetMap) : bool :=
  match map s with Some _ => true | None => false end.

(** The layers attached to the surface of the session (none before
    initialisation). *)
Definition surface (s : OpenStreetMap) : list Handle :=
  match map s with Some m => layers m | None => [] end.

Definition views (s : OpenStreetMap) : list ViewCmd :=
  match map s with Some m => viewLog m | None => [] end.

Definition layerAt (s : OpenStreetMap) (h : Handle) : option Layer :=
  nth_error (objects s) h.

Definition kindAt (k : Layer -> bool) (s : OpenStreetMap) (h : Handle) : bool :=
  match layerAt s h with Some l => k l | None => false end.

(** The markers, respectively circles, currently visible on the surface. *)
Definition visibleMarkers (s : OpenStreetMap) : list Handle :=
  filter (kindAt is_marker s) (surface s).

Definition visibleCircles (s : OpenStreetMap) : list Handle :=
  filter (kindAt is_circle s) (surface s).

(* ------------------------------------------------------------------ *)
(** ** State passing *)

Definition M (A : Type) : Type := OpenStreetMap -> A * OpenStreetMap.

Definition ret {A : Type} (a : A) : M A := fun s => (a, s).

Definition bind {A B : Type} (m : M A) (k : A -> M B) : M B :=
  fun s => let (a, s') := m s in k a s'.

Notation "x <- m ;; k" := (bind m (fun x => k))
  (at level 61, m at next level, right associativity).
Notation "m ;;; k" := (bind m (fun _ => k))
  (at level 61, right associativity).

Definition gets {A : Type} (f : OpenStreetMap -> A) : M A := fun s => (f s, s).

Definition modify (f : OpenStreetMap -> OpenStreetMap) : M unit :=
  fun s => (tt, f s).

Definition when (b : bool) (m : M unit) : M unit := if b then m else ret tt.

Definition emit (e : Effect) : M unit :=
  modify (fun s => set_trace (e :: trace s) s).

(** Apply an engine call to the map of the session ([this.#map.f(...)]). *)
Definition onMap (f : LeafletMap -> LeafletMap) : M unit :=
  modify (fun s => set_map (option_map f (map s)) s).

(** Create an engine object and return the reference to it. *)
Definition newLayer (l : Layer) : M Handle :=
  fun s => (List.length (objects s), set_objects (objects s ++ [l]) s).

(** [L.xxx(...).addTo(this.#map)] *)
Definition newLayerOnMap (l : Layer) : M Handle :=
  h <- newLayer l ;;
  onMap (addLayer h) ;;;
  ret h.

(** The outcome of a call that may throw. *)
Inductive JsError : Type :=
| TypeError.

Inductive Outcome (A : Type) : Type :=
| Returned (a : A)
| Thrown (e : JsError).

Arguments Returned {A} a.
Arguments Thrown {A} e.
(* ------------------------------------------------------------------ *)
(** ** Operations of the class *)

(** [constructor(options)]: [{ ...DEFAULTS, ...options }], every private
    field at its initial value, in a world with the given engine objects. *)
Definition mergeConfig (o : ConfigOptions) : Config :=
  {| cfg_lat := default (cfg_lat DEFAULTS) (co_lat o);
     cfg_lng := default (cfg_lng DEFAULTS) (co_lng o);
     cfg_zoom := default (cfg_zoom DEFAULTS) (co_zoom o);
     cfg_containerId := default (cfg_containerId DEFAULTS) (co_containerId o);
     cfg_tileUrl := default (cfg_tileUrl DEFAULTS) (co_tileUrl o);
     cfg_attribution := default (cfg_attribution DEFAULTS) (co_attribution o);
     cfg_selectorIcon := default (cfg_selectorIcon DEFAULTS) (co_selectorIcon o) |}.

Definition new (options : ConfigOptions) : OpenStreetMap :=
  {| config := mergeConfig options;
     map := None;
     selectorMarker := None;
     selectedCoords := None;
     isSelectorEnabled := false;
     onSelectCallback := None;
     routeLayers := [];
     markers := [];
     circles := [];
     objects := [];
     trace := [] |}.

(** [#requireMap()] *)
Definition requireMap : M bool :=
  m <- gets map ;;
  match m with
  | None =>
      emit (ConsoleWarn
        "OpenStreetMap: El mapa no ha sido inicializado. Llama a initMap() primero.") ;;;
      ret false
  | Some _ => ret true
  end.

(** [#requireSelector()] *)
Definition requireSelector : M bool :=
  ok <- requireMap ;;
  if negb ok then ret false
  else
    enabled <- gets isSelectorEnabled ;;
    if negb enabled then
      emit (ConsoleWarn
        "OpenStreetMap: El selector no está habilitado. Llama a setupSelector() primero.") ;;;
      ret false
    else ret true.

(** The parameters of [initMap]; an absent one is [VUndefined] / [None]. *)
Record InitParams : Type := {
  ip_lat : JsVal;
  ip_lng : JsVal;
  ip_containerId : option string;
  ip_zoom : JsVal
}.

Definition noParams : InitParams :=
  {| ip_lat := VUndefined; ip_lng := VUndefined; ip_containerId := None;
     ip_zoom := VUndefined |}.

(** [initMap({ lat, lng, containerId, zoom } = {})] *)
Definition initMap (p : InitParams) : M unit :=
  cfg <- gets config ;;
  let lat := orElse (VNum (parseFloat (ip_lat p))) (cfg_lat cfg) in
  let lng := orElse (VNum (parseFloat (ip_lng p))) (cfg_lng cfg) in
  let containerId :=
    match ip_containerId p with
    | Some c => if str_truthy c then c else cfg_containerId cfg
    | None => cfg_containerId cfg
    end in
  let zoom := orElse (VNum (parseInt (ip_zoom p))) (cfg_zoom cfg) in
  modify (set_config
            {| cfg_lat := lat; cfg_lng := lng; cfg_zoom := zoom;
               cfg_containerId := cfg_containerId cfg;
               cfg_tileUrl := cfg_tileUrl cfg;
               cfg_attribution := cfg_attribution cfg;
               cfg_selectorIcon := cfg_selectorIcon cfg |}) ;;;
  modify (set_map
            (Some (pushView (SetView lat lng (Some zoom)) (L_map containerId)))) ;;;
  _ <- newLayerOnMap (TileLayer (cfg_tileUrl cfg) (cfg_attribution cfg)) ;;
  ret tt.

Record SearchOptions : Type := {
  so_placeholder : option string;
  so_errorMessage : option string
}.

(** [setupSearch(options = {})]; the returned value is the session. *)
Definition setupSearch (options : SearchOptions) : M unit :=
  ok <- requireMap ;;
  if negb ok then ret tt
  else
    onMap (addGeocoder
             {| gc_placeholder := default "Buscar ciudad" (so_placeholder options);
                gc_errorMessage :=
                  default "No se encontró la ciudad" (so_errorMessage options) |}).

(** The handler of the geocoder's [markgeocode] event. *)
Definition onMarkGeocode (south west north east : JsVal) : M unit :=
  onMap (pushView (FitBounds (BoundsBox south west north east) None)).

(** [addMarker(lat, lng, icon = BOX, popupContent = null)] *)
Definition addMarker (lat lng : JsVal) (icon : option string)
  (popupContent : option Text) : M (option Handle) :=
  ok <- requireMap ;;
  if negb ok then ret None
  else
    cfg <- gets config ;;
    let lat := nullish lat (cfg_lat cfg) in
    let lng := nullish lng (cfg_lng cfg) in
    let icon := default "📦" icon in
    marker <- newLayerOnMap (Marker lat lng icon (boundPopup popupContent)) ;;
    modify (fun s => set_markers (markers s ++ [marker]) s) ;;;
    ret (Some marker).

(** [clearSelector()] *)
Definition clearSelector : M unit :=
  m <- gets map ;;
  sm <- gets selectorMarker ;;
  match m, sm with
  | Some _, Some h =>
      onMap (removeLayer h) ;;;
      modify (set_selectorMarker None) ;;;
      modify (set_selectedCoords None)
  | _, _ => ret tt
  end.

(** [#buildSelectorPopup(lat, lng)]; the quotation marks around attribute
    values and the layout of the markup are left out. *)
Definition buildSelectorPopup (lat lng : JsVal) : Text :=
  ('"<div class=map-selector-popup><h3>🏁📦 Punto seleccionado</h3><p>Latitud: "
   +++ $lat +++ '"<br>Longitud: " +++ $lng +++ '"</p><a href="
   +++ LINKS_googleMaps lat lng
   +++ '" target=_blank>🔗 Ver en Google Maps</a><br><a href="
   +++ LINKS_openStreetMap lat lng
   +++ '" target=_blank>🗺️ Ver en OpenStreetMap</a><button class=map-selector-confirm-btn>🏁 Seleccionar Coordenadas</button></div>")%text.

(** [placeSelector(lat, lng, icon)] *)
Definition placeSelector (lat lng : JsVal) (icon : option string) : M unit :=
  ok <- requireSelector ;;
  if negb ok then ret tt
  else
    cfg <- gets config ;;
    let icon := default (cfg_selectorIcon cfg) icon in
    clearSelector ;;;
    modify (set_selectedCoords (Some (lat, lng))) ;;;
    let popup := buildSelectorPopup lat lng in
    marker <- addMarker lat lng (Some icon) (Some popup) ;;
    modify (set_selectorMarker marker).

(** The argument of [setupSelector]: omitted, [null], or a function. *)
Inductive OnSelect : Type :=
| OnSelectOmitted
| OnSelectNull
| OnSelectFn (id : nat).

(** [setupSelector(onSelect = () => { })]; the returned value is the
    session.  The map is ready since [initMap] set its view, so the default
    point is placed at once. *)
Definition setupSelector (onSelect : OnSelect) : M unit :=
  ok <- requireMap ;;
  if negb ok then ret tt
  else
    let cb :=
      match onSelect with
      | OnSelectOmitted => Some DefaultNoop
      | OnSelectNull => None
      | OnSelectFn id => Some (UserCallback id)
      end in
    modify (set_selector true cb) ;;;
    onMap addSelectorListeners ;;;
    cfg <- gets config ;;
    placeSelector (cfg_lat cfg) (cfg_lng cfg) None.

(** [getSelectedCoordinates()]; [now] is what [new Date().toISOString()]
    reads at the time of the call. *)
Definition getSelectedCoordinates (now : string) : M (option SelectedPoint) :=
  sc <- gets selectedCoords ;;
  match sc with
  | None => ret None
  | Some (lat, lng) =>
      ret (Some {| sp_lat := parseFloat lat;
                   sp_lng := parseFloat lng;
                   sp_timestamp := now;
                   sp_formatted := ($lat +++ '", " +++ $lng)%text;
                   sp_googleMapsUrl := LINKS_googleMaps lat lng;
                   sp_openStreetMapUrl := LINKS_openStreetMap lat lng |})
  end.

(** [confirmSelection()] *)
Definition confirmSelection (now : string) : M (option SelectedPoint) :=
  coords <- getSelectedCoordinates now ;;
  match coords with
  | None =>
      emit (Alert "❌ Primero selecciona un punto en el mapa") ;;;
      ret None
  | Some c =>
      cb <- gets onSelectCallback ;;
      match cb with
      | Some f => emit (CallbackInvoked f c)
      | None => ret tt
      end ;;;
      ret (Some c)
  end.

(** A click reported by the rendering surface: [e.latlng]. *)
Record ClickEvent : Type := {
  click_lat : option Num;
  click_lng : option Num
}.

(** [#handleMapClick(e)] *)
Definition handleMapClick (e : ClickEvent) : M unit :=
  enabled <- gets isSelectorEnabled ;;
  if negb enabled then ret tt
  else
    match click_lat e, click_lng e with
    | Some lat, Some lng => placeSelector (VFixed 8 lat) (VFixed 8 lng) None
    | _, _ => ret tt
    end.

(** [setView(lat, lng, zoom)]; the returned value is the session. *)
Definition setView (lat lng zoom : JsVal) : M unit :=
  ok <- requireMap ;;
  if negb ok then ret tt
  else
    onMap (pushView (SetView lat lng (if truthy zoom then Some zoom else None))).

(* ------------------------------------------------------------------ *)
(** ** Routes *)

(** An endpoint of a route: [{ lat, lng, icon, popup }]. *)
Record Endpoint : Type := {
  ep_lat : JsVal;
  ep_lng : JsVal;
  ep_icon : option string;
  ep_popup : option Text
}.

Record RouteOptions : Type := {
  ro_useRoadRoute : option bool;
  ro_color : option string;
  ro_weight : option Num;
  ro_opacity : option Num;
  ro_fitBounds : option bool;
  ro_dashArray : option string
}.

Definition noRouteOptions : RouteOptions :=
  {| ro_useRoadRoute := None; ro_color := None; ro_weight := None;
     ro_opacity := None; ro_fitBounds := None; ro_dashArray := None |}.

Inductive RouteType : Type :=
| straight
| road.

Record RouteData : Type := {
  distance : JsVal;
  distanceKm : JsVal;
  duration : JsVal;
  durationMin : JsVal;
  route_type : RouteType
}.

Record RouteResult : Type := {
  rr_data : RouteData;
  rr_originMarker : option Handle;
  rr_destinationMarker : option Handle;
  rr_polyline : Handle
}.

(** One route of the routing service's answer; [None] as geometry stands for
    a route whose [geometry.coordinates] cannot be read as a list of
    pairs. *)
Record OsrmRoute : Type := {
  osrm_distance : JsVal;
  osrm_duration : JsVal;
  osrm_geometry : option (list (JsVal * JsVal))
}.

(** What the request to the routing service comes to: the request fails,
    the body is not JSON, the JSON value has no properties to read ([null]),
    or it is an object whose [routes] is absent or a list. *)
Inductive FetchOutcome : Type :=
| NetworkError
| MalformedBody
| JsonNull
| JsonBody (routes : option (list OsrmRoute)).

Definition toFixedDiv (d : nat) (v : JsVal) (c : R) : JsVal :=
  VFixed d (ndivc (ToNumber v) c).

(** [#buildStraightRoute(origin, destination, lineStyle)] *)
Definition buildStraightRoute (origin destination : Endpoint)
  (lineStyle : LineStyle) : M (Handle * RouteData) :=
  let coordinates :=
    [ (VNum (parseFloat (ep_lat origin)), VNum (parseFloat (ep_lng origin)));
      (VNum (parseFloat (ep_lat destination)),
       VNum (parseFloat (ep_lng destination))) ] in
  let lineStyle :=
    {| ls_color := ls_color lineStyle;
       ls_weight := ls_weight lineStyle;
       ls_opacity := ls_opacity lineStyle;
       ls_dashArray :=
         match ls_dashArray lineStyle with
         | Some d => if str_truthy d then Some d else Some "10, 8"%string
         | None => Some "10, 8"%string
         end |} in
  polyline <- newLayerOnMap (Polyline coordinates lineStyle) ;;
  let dist :=
    VNum (haversineDistance (ToNumber (ep_lat origin)) (ToNumber (ep_lng origin))
            (ToNumber (ep_lat destination)) (ToNumber (ep_lng destination))) in
  ret (polyline,
       {| distance := dist;
          distanceKm := toFixedDiv 2 dist 1000;
          duration := VNull;
          durationMin := VNull;
          route_type := straight |}).

Definition osrmUrl (origin destination : Endpoint) : Text :=
  ('OSRM_URL +++ '"/" +++ $(ep_lng origin) +++ '"," +++ $(ep_lat origin)
   +++ '";" +++ $(ep_lng destination) +++ '"," +++ $(ep_lat destination)
   +++ '"?overview=full&geometries=geojson")%text.

(** [#fetchRoadRoute(origin, destination, lineStyle)]; [fetch] answers the
    request.  Whatever is thrown inside the [try] block is caught. *)
Definition fetchRoadRoute (fetch : Text -> FetchOutcome)
  (origin destination : Endpoint) (lineStyle : LineStyle)
  : M (option (Handle * RouteData)) :=
  let url := osrmUrl origin destination in
  emit (FetchRequest url) ;;;
  let caught :=
    emit (ConsoleError "OpenStreetMap: Error al calcular la ruta:") ;;;
    ret None in
  match fetch url with
  | NetworkError | MalformedBody | JsonNull => caught
  | JsonBody None | JsonBody (Some []) =>
      emit (ConsoleWarn
        "OpenStreetMap: No se encontró una ruta entre los puntos.") ;;;
      ret None
  | JsonBody (Some (route :: _)) =>
      match osrm_geometry route with
      | None => caught
      | Some geometry =>
          let coordinates := List.map (fun '(lng, lat) => (lat, lng)) geometry in
          polyline <- newLayerOnMap (Polyline coordinates lineStyle) ;;
          ret (Some (polyline,
                     {| distance := osrm_distance route;
                        distanceKm := toFixedDiv 2 (osrm_distance route) 1000;
                        duration := osrm_duration route;
                        durationMin := toFixedDiv 1 (osrm_duration route) 60;
                        route_type := road |}))
      end
  end.

(** [origin?.lat] *)
Definition optLat (e : option Endpoint) : JsVal :=
  match e with Some e => ep_lat e | None => VUndefined end.

Definition optLng (e : option Endpoint) : JsVal :=
  match e with Some e => ep_lng e | None => VUndefined end.

(** [async drawRoute(origin, destination, routeOptions = {})]: the value the
    returned promise resolves to.  The request to the routing service is
    answered by [fetch]; nothing else touches the session while the answer
    is awaited. *)
Definition drawRoute (fetch : Text -> FetchOutcome)
  (origin destination : option Endpoint) (routeOptions : RouteOptions)
  : M (option RouteResult) :=
  ok <- requireMap ;;
  if negb ok then ret None
  else
    match origin, destination with
    | Some o, Some d =>
        if negb (truthy (ep_lat o)) || negb (truthy (ep_lng o))
           || negb (truthy (ep_lat d)) || negb (truthy (ep_lng d))
        then
          emit (ConsoleWarn
            "OpenStreetMap: drawRoute requiere origin y destination con lat/lng.") ;;;
          ret None
        else
          let useRoadRoute := default false (ro_useRoadRoute routeOptions) in
          let color := default "#2C6B94"%string (ro_color routeOptions) in
          let weight := default (Fin 5) (ro_weight routeOptions) in
          let opacity := default (Fin 0.7) (ro_opacity routeOptions) in
          let fitBounds := default true (ro_fitBounds routeOptions) in
          let lineStyle :=
            {| ls_color := color; ls_weight := weight; ls_opacity := opacity;
               ls_dashArray :=
                 match ro_dashArray routeOptions with
                 | Some da => if str_truthy da then Some da else None
                 | None => None
                 end |} in
          originMarker <-
            addMarker (ep_lat o) (ep_lng o)
              (Some (default "🏠"%string (ep_icon o))) (ep_popup o) ;;
          destinationMarker <-
            addMarker (ep_lat d) (ep_lng d)
              (Some (default "📦"%string (ep_icon d))) (ep_popup d) ;;
          result <-
            (if useRoadRoute then
               r <- fetchRoadRoute fetch o d lineStyle ;;
               match r with
               | Some result => ret result
               | None =>
                   emit (ConsoleWarn
                     "OpenStreetMap: OSRM falló, usando línea recta como fallback.") ;;;
                   buildStraightRoute o d lineStyle
               end
             else buildStraightRoute o d lineStyle) ;;
          let polyline := fst result in
          modify (fun s =>
                    set_routeLayers
                      (routeLayers s ++
                         [ {| rl_polyline := polyline;
                              rl_originMarker := originMarker;
                              rl_destinationMarker := destinationMarker |} ])
                      s) ;;;
          when fitBounds
            (onMap (pushView (FitBounds (BoundsOfPath polyline) (Some (30, 30)%nat)))) ;;;
          ret (Some {| rr_data := snd result;
                       rr_originMarker := originMarker;
                       rr_destinationMarker := destinationMarker;
                       rr_polyline := polyline |})
    | _, _ =>
        emit (ConsoleWarn
          "OpenStreetMap: drawRoute requiere origin y destination con lat/lng.") ;;;
        ret None
    end.

Definition removeOpt (h : option Handle) (m : LeafletMap) : LeafletMap :=
  match h with Some h => removeLayer h m | None => m end.

Definition removeRoute (r : RouteLayer) (m : LeafletMap) : LeafletMap :=
  removeOpt (rl_destinationMarker r)
    (removeOpt (rl_originMarker r) (removeLayer (rl_polyline r) m)).

(** [clearRoutes()] *)
Definition clearRoutes : M unit :=
  m <- gets map ;;
  match m with
  | None => ret tt
  | Some _ =>
      rs <- gets routeLayers ;;
      onMap (fun m => fold_left (fun m r => removeRoute r m) rs m) ;;;
      modify (set_routeLayers [])
  end.
(* ------------------------------------------------------------------ *)
(** ** Generic markers and circles *)

(** An element of the array given to [addMarkers]. *)
Record MarkerSpec : Type := {
  ms_lat : JsVal;
  ms_lng : JsVal;
  ms_icon : option string;
  ms_popup : option Text
}.

Record BulkOptions : Type := {
  bo_fitBounds : option bool
}.

(** [.filter(Boolean)] on an array of references or [null]. *)
Fixpoint somes {A : Type} (l : list (option A)) : list A :=
  match l with
  | [] => []
  | Some a :: l' => a :: somes l'
  | None :: l' => somes l'
  end.

(** [markers.map(({ lat, lng, icon, popup }) => this.addMarker(...))]: an
    element that is [null] or [undefined] ([None]) cannot be destructured;
    the exception leaves the markers added so far in place. *)
Fixpoint mapAddMarker (specs : list (option MarkerSpec))
  : M (Outcome (list (option Handle))) :=
  match specs with
  | [] => ret (Returned [])
  | None :: _ => ret (Thrown TypeError)
  | Some sp :: rest =>
      h <- addMarker (ms_lat sp) (ms_lng sp)
             (Some (default "📦" (ms_icon sp))) (ms_popup sp) ;;
      r <- mapAddMarker rest ;;
      ret (match r with
           | Returned hs => Returned (h :: hs)
           | Thrown e => Thrown e
           end)
  end.

(** What [addMarkers] hands back: an array of marker references, or the
    session itself. *)
Inductive AddMarkersResult : Type :=
| MarkersArray (created : list Handle)
| MarkersThis.

(** [addMarkers(markers = [], options = {})] *)
Definition addMarkers (specs : list (option MarkerSpec)) (options : BulkOptions)
  : M (Outcome AddMarkersResult) :=
  ok <- requireMap ;;
  if negb ok then ret (Returned (MarkersArray []))
  else
    let fitBounds := default false (bo_fitBounds options) in
    r <- mapAddMarker specs ;;
    match r with
    | Thrown e => ret (Thrown e)
    | Returned hs =>
        let created := somes hs in
        when (fitBounds && (0 <? List.length created)%nat)
          (onMap (pushView (FitBounds (BoundsOfLayers created) (Some (30, 30)%nat)))) ;;;
        ret (Returned MarkersThis)
    end.

(** [clearMarkers()]; the returned value is the session. *)
Definition clearMarkers : M unit :=
  m <- gets map ;;
  match m with
  | None => ret tt
  | Some _ =>
      ms <- gets markers ;;
      onMap (fun m => fold_left (fun m h => removeLayer h m) ms m) ;;;
      modify (set_markers [])
  end.

Record CircleOptions : Type := {
  ci_color : option string;
  ci_fillColor : option string;
  ci_fillOpacity : option Num;
  ci_weight : option Num;
  ci_popup : option Text
}.

Definition noCircleOptions : CircleOptions :=
  {| ci_color := None; ci_fillColor := None; ci_fillOpacity := None;
     ci_weight := None; ci_popup := None |}.

(** [addCircle(lat, lng, radius = 5000, options = {})] *)
Definition addCircle (lat lng : JsVal) (radius : option JsVal)
  (options : CircleOptions) : M (option Handle) :=
  ok <- requireMap ;;
  if negb ok then ret None
  else
    let radius := default (VNum (Fin 5000)) radius in
    let color := default "#2C6B94" (ci_color options) in
    let fillColor := default "#2C6B94" (ci_fillColor options) in
    let fillOpacity := default (Fin 0.15) (ci_fillOpacity options) in
    let weight := default (Fin 2) (ci_weight options) in
    circle <-
      newLayerOnMap (Circle lat lng radius color fillColor fillOpacity weight
                       (boundPopup (ci_popup options))) ;;
    modify (fun s => set_circles (circles s ++ [circle]) s) ;;;
    ret (Some circle).

(** An element of the array given to [addCircles]:
    [{ lat, lng, radius, ...opts }]. *)
Record CircleSpec : Type := {
  cs_lat : JsVal;
  cs_lng : JsVal;
  cs_radius : option JsVal;
  cs_opts : CircleOptions
}.

Fixpoint mapAddCircle (specs : list (option CircleSpec))
  : M (Outcome (list (option Handle))) :=
  match specs with
  | [] => ret (Returned [])
  | None :: _ => ret (Thrown TypeError)
  | Some sp :: rest =>
      h <- addCircle (cs_lat sp) (cs_lng sp) (cs_radius sp) (cs_opts sp) ;;
      r <- mapAddCircle rest ;;
      ret (match r with
           | Returned hs => Returned (h :: hs)
           | Thrown e => Thrown e
           end)
  end.

(** [addCircles(circles = [], options = {})]; the returned value is the
    session. *)
Definition addCircles (specs : list (option CircleSpec)) (options : BulkOptions)
  : M (Outcome unit) :=
  ok <- requireMap ;;
  if negb ok then ret (Returned tt)
  else
    let fitBounds := default false (bo_fitBounds options) in
    r <- mapAddCircle specs ;;
    match r with
    | Thrown e => ret (Thrown e)
    | Returned hs =>
        let created := somes hs in
        when (fitBounds && (0 <? List.length created)%nat)
          (onMap (pushView (FitBounds (BoundsOfLayers created) (Some (30, 30)%nat)))) ;;;
        ret (Returned tt)
    end.

(** [clearCircles()]; the returned value is the session. *)
Definition clearCircles : M unit :=
  m <- gets map ;;
  match m with
  | None => ret tt
  | Some _ =>
      cs <- gets circles ;;
      onMap (fun m => fold_left (fun m h => removeLayer h m) cs m) ;;;
      modify (set_circles [])
  end.

(* ------------------------------------------------------------------ *)
(** ** Calls and events *)

(** The public methods of the class, with their arguments, and the events
    the rendering surface delivers to the listeners the class registered. *)
Inductive Op : Type :=
| OpInitMap (p : InitParams)
| OpSetupSearch (o : SearchOptions)
| OpSetupSelector (f : OnSelect)
| OpPlaceSelector (lat lng : JsVal) (icon : option string)
| OpClearSelector
| OpGetSelectedCoordinates (now : string)
| OpConfirmSelection (now : string)
| OpDrawRoute (fetch : Text -> FetchOutcome) (origin destination : option Endpoint)
              (options : RouteOptions)
| OpSetView (lat lng zoom : JsVal)
| OpClearRoutes
| OpAddMarker (lat lng : JsVal) (icon : option string) (popup : option Text)
| OpAddMarkers (specs : list (option MarkerSpec)) (options : BulkOptions)
| OpClearMarkers
| OpAddCircle (lat lng : JsVal) (radius : option JsVal) (options : CircleOptions)
| OpAddCircles (specs : list (option CircleSpec)) (options : BulkOptions)
| OpClearCircles
| EvClick (e : ClickEvent)
| EvMarkGeocode (south west north east : JsVal)
| EvConfirmClick (now : string).

(** The value a call evaluates to. *)
Inductive Value : Type :=
| RetThis
| RetUndefined
| RetNull
| RetHandle (h : Handle)
| RetArray (hs : list Handle)
| RetPoint (p : SelectedPoint)
| RetRoute (r : RouteResult).

Definition ofHandle (h : option Handle) : Value :=
  match h with Some h => RetHandle h | None => RetNull end.

Definition ofPoint (p : option SelectedPoint) : Value :=
  match p with Some p => RetPoint p | None => RetNull end.

Definition ofRoute (r : option RouteResult) : Value :=
  match r with Some r => RetRoute r | None => RetNull end.

Fixpoint repeatM (n : nat) (m : M unit) : M unit :=
  match n with
  | O => ret tt
  | S n' => m ;;; repeatM n' m
  end.

Definition returning {A : Type} (v : Value) (m : M A) : M (Outcome Value) :=
  _ <- m ;; ret (Returned v).

(** One call or event: its outcome and the state it leaves. *)
Definition call (op : Op) : M (Outcome Value) :=
  match op with
  | OpInitMap p => returning RetThis (initMap p)
  | OpSetupSearch o => returning RetThis (setupSearch o)
  | OpSetupSelector f => returning RetThis (setupSelector f)
  | OpPlaceSelector lat lng icon => returning RetUndefined (placeSelector lat lng icon)
  | OpClearSelector => returning RetUndefined clearSelector
  | OpGetSelectedCoordinates now =>
      p <- getSelectedCoordinates now ;; ret (Returned (ofPoint p))
  | OpConfirmSelection now =>
      p <- confirmSelection now ;; ret (Returned (ofPoint p))
  | OpDrawRoute fetch origin destination options =>
      r <- drawRoute fetch origin destination options ;; ret (Returned (ofRoute r))
  | OpSetView lat lng zoom => returning RetThis (setView lat lng zoom)
  | OpClearRoutes => returning RetUndefined clearRoutes
  | OpAddMarker lat lng icon popup =>
      h <- addMarker lat lng icon popup ;; ret (Returned (ofHandle h))
  | OpAddMarkers specs options =>
      r <- addMarkers specs options ;;
      ret (match r with
           | Returned (MarkersArray hs) => Returned (RetArray hs)
           | Returned MarkersThis => Returned RetThis
           | Thrown e => Thrown e
           end)
  | OpClearMarkers => returning RetThis clearMarkers
  | OpAddCircle lat lng radius options =>
      h <- addCircle lat lng radius options ;; ret (Returned (ofHandle h))
  | OpAddCircles specs options =>
      r <- addCircles specs options ;;
      ret (match r with
           | Returned _ => Returned RetThis
           | Thrown e => Thrown e
           end)
  | OpClearCircles => returning RetThis clearCircles
  | EvClick e =>
      m <- gets map ;;
      returning RetUndefined
        (repeatM (match m with Some m => clickListeners m | None => 0%nat end)
                 (handleMapClick e))
  | EvMarkGeocode south west north east =>
      m <- gets map ;;
      returning RetUndefined
        (match m with
         | Some m =>
             match geocoders m with
             | [] => ret tt
             | _ :: _ => onMarkGeocode south west north east
             end
         | None => ret tt
         end)
  | EvConfirmClick now =>
      m <- gets map ;;
      returning RetUndefined
        (repeatM (match m with Some m => confirmListeners m | None => 0%nat end)
                 (_ <- confirmSelection now ;; ret tt))
  end.

Definition step (op : Op) (s : OpenStreetMap) : OpenStreetMap := snd (call op s).

Definition run (ops : list Op) (s : OpenStreetMap) : OpenStreetMap :=
  fold_left (fun s op => step op s) ops s.

(** The states a run goes through, the first one included. *)
Fixpoint states (ops : list Op) (s : OpenStreetMap) : list OpenStreetMap :=
  s :: match ops with
       | [] => []
       | op :: ops' => states ops' (step op s)
       end.

(** The public operations other than initialisation. *)
Definition guarded (op : Op) : bool :=
  match op with
  | OpSetupSearch _ | OpSetupSelector _ | OpPlaceSelector _ _ _
  | OpDrawRoute _ _ _ _ | OpSetView _ _ _ | OpAddMarker _ _ _ _
  | OpAddMarkers _ _ | OpAddCircle _ _ _ _ | OpAddCircles _ _
  | OpClearSelector | OpClearRoutes | OpClearMarkers | OpClearCircles => true
  | _ => false
  end.

Definition is_initMap (op : Op) : bool :=
  match op with OpInitMap _ => true | _ => false end.

(** The values a guarded operation may hand back when it does nothing. *)
Definition failsSafe (v : Value) : bool :=
  match v with
  | RetNull | RetUndefined | RetThis | RetArray [] => true
  | _ => false
  end.

(** Two states that differ in the trace of effects only. *)
Definition sameButTrace (s s' : OpenStreetMap) : Prop :=
  config s' = config s /\ map s' = map s
  /\ selectorMarker s' = selectorMarker s
  /\ selectedCoords s' = selectedCoords s
  /\ isSelectorEnabled s' = isSelectorEnabled s
  /\ onSelectCallback s' = onSelectCallback s
  /\ routeLayers s' = routeLayers s
  /\ markers s' = markers s /\ circles s' = circles s
  /\ objects s' = objects s.

(** The handles a route entry groups. *)
Definition routeHandles (r : RouteLayer) : list Handle :=
  rl_polyline r :: somes [rl_originMarker r; rl_destinationMarker r].

Definition allRouteHandles (s : OpenStreetMap) : list Handle :=
  flat_map routeHandles (routeLayers s).

(** The endpoint markers of the routes on record. *)
Definition routeMarkers (s : OpenStreetMap) : list Handle :=
  flat_map (fun r => somes [rl_originMarker r; rl_destinationMarker r])
           (routeLayers s).

Definition countInvoked (t : list Effect) : nat :=
  List.length (filter (fun e => match e with CallbackInvoked _ _ => true | _ => false end) t).

(** A session initialised with the given parameters, to start examples
    from. *)
Definition session (options : ConfigOptions) (p : InitParams) : OpenStreetMap :=
  snd (initMap p (new options)).
(* ------------------------------------------------------------------ *)
(** ** Invariants of the session *)

(** What holds of the registries, the surface and the selector fields in
    every state the operations can reach. *)
Record wf (s : OpenStreetMap) : Prop := {
  wf_mk_nodup : NoDup (markers s);
  wf_ci_nodup : NoDup (circles s);
  wf_mk_kind : forall h, In h (markers s) -> kindAt is_marker s h = true;
  wf_ci_kind : forall h, In h (circles s) -> kindAt is_circle s h = true;
  wf_sf_nodup : NoDup (surface s);
  wf_sf_alloc : forall h, In h (surface s) -> (h < List.length (objects s))%nat;
  wf_sf_mk :
    forall h, In h (surface s) -> kindAt is_marker s h = true -> In h (markers s);
  wf_sf_ci :
    forall h, In h (surface s) -> kindAt is_circle s h = true -> In h (circles s);
  wf_sel_kind :
    forall h, selectorMarker s = Some h -> kindAt is_marker s h = true;
  wf_rt_kind :
    forall r, In r (routeLayers s) ->
      kindAt is_polyline s (rl_polyline r) = true
      /\ (forall h, rl_originMarker r = Some h -> kindAt is_marker s h = true)
      /\ (forall h, rl_destinationMarker r = Some h -> kindAt is_marker s h = true);
  wf_sel_coords : selectorMarker s = None <-> selectedCoords s = None
}.

(** The object store only grows. *)
Definition grows (s s' : OpenStreetMap) : Prop :=
  exists l, objects s' = objects s ++ l.

(** The surface gains new objects only. *)
Definition gainsFresh (s s' : OpenStreetMap) : Prop :=
  forall h, In h (surface s') ->
    In h (surface s) \/ (List.length (objects s) <= h)%nat.

(** The selector marker stays, or it is replaced: the old one is taken off
    the surface and the new one is a new object. *)
Definition replacesSelector (s s' : OpenStreetMap) : Prop :=
  selectorMarker s' = selectorMarker s
  \/ ((forall h0, selectorMarker s = Some h0 -> ~ In h0 (surface s'))
      /\ (forall h, selectorMarker s' = Some h -> (List.length (objects s) <= h)%nat)).

(** The circles on the surface are the registered ones, in order. *)
Definition circlesInSync (s : OpenStreetMap) : Prop :=
  visibleCircles s = circles s.

(** A transition that keeps the invariants; with [e = true] it also keeps
    the circle registry in step with the surface. *)
Definition sound (e : bool) (s s' : OpenStreetMap) : Prop :=
  wf s ->
  wf s' /\ grows s s' /\ gainsFresh s s' /\ replacesSelector s s'
  /\ (e = true -> circlesInSync s -> circlesInSync s').

Definition soundM {A : Type} (e : bool) (m : M A) : Prop :=
  forall s, sound e s (snd (m s)).

(** The handles that were the selector marker in some state of a run. *)
Definition selectorHandles (ops : list Op) (s : OpenStreetMap) : list Handle :=
  somes (List.map selectorMarker (states ops s)).

(** The selector markers of a run that are on the surface at its end. *)
Definition activeSelectorMarkers (ops : list Op) (s : OpenStreetMap) : list Handle :=
  filter (fun h => handle_in h (selectorHandles ops s)) (surface (run ops s)).

(** The history of selector markers is consistent with a state: its handles
    are allocated, and one that is on the surface is the current one. *)
Definition retired (H : list Handle) (s : OpenStreetMap) : Prop :=
  (forall h, In h H -> (h < List.length (objects s))%nat)
  /\ (forall h, In h H -> In h (surface s) -> selectorMarker s = Some h).

(** A failure of the routing service: no answer, no JSON, no route, or a
    first route whose geometry cannot be read. *)
Definition routingFails (o : FetchOutcome) : bool :=
  match o with
  | NetworkError | MalformedBody | JsonNull => true
  | JsonBody None | JsonBody (Some []) => true
  | JsonBody (Some (r :: _)) =>
      match osrm_geometry r with None => true | Some _ => false end
  end.

(** The four coordinates of a pair of endpoints pass the test of
    [drawRoute]. *)
Definition validEndpoints (o d : Endpoint) : bool :=
  truthy (ep_lat o) && truthy (ep_lng o) && truthy (ep_lat d) && truthy (ep_lng d).

(** The part of a state the invariants speak about. *)
Definition core (s : OpenStreetMap) :=
  (objects s, surface s, markers s, circles s, selectorMarker s,
   selectedCoords s, routeLayers s).

(** The state after [L.xxx(...).addTo(this.#map)] for the object [l]. *)
Definition placed (l : Layer) (s : OpenStreetMap) : OpenStreetMap :=
  set_map (option_map (addLayer (List.length (objects s))) (map s))
          (set_objects (objects s ++ [l]) s).

(** The marker object [addMarker] creates. *)
Definition markerFor (cfg : Config) (lat lng : JsVal) (icon : option string)
  (popupContent : option Text) : Layer :=
  Marker (nullish lat (cfg_lat cfg)) (nullish lng (cfg_lng cfg))
         (default "📦" icon) (boundPopup popupContent).

(** The circle object [addCircle] creates. *)
Definition circleFor (lat lng : JsVal) (radius : option JsVal)
  (options : CircleOptions) : Layer :=
  Circle lat lng (default (VNum (Fin 5000)) radius)
         (default "#2C6B94" (ci_color options))
         (default "#2C6B94" (ci_fillColor options))
         (default (Fin 0.15) (ci_fillOpacity options))
         (default (Fin 2) (ci_weight options))
         (boundPopup (ci_popup options)).

(** A computation that draws one path on an initialised session, besides
    effects in the trace, and returns the reference to it. *)
Definition addsPath (R : M (Handle * RouteData)) : Prop :=
  forall s m, map s = Some m ->
    exists data l t,
      is_polyline l = true
      /\ R s = ((List.length (objects s), data), set_trace t (placed l s)).

(** The last steps of [drawRoute]: the route entry is recorded and the view
    is fitted to the path. *)
Definition recordRoute (fit : bool) (r : RouteLayer) (s : OpenStreetMap)
  : OpenStreetMap :=
  let s4 := set_routeLayers (routeLayers s ++ [r]) s in
  if fit then
    set_map (option_map
               (pushView (FitBounds (BoundsOfPath (rl_polyline r)) (Some (30, 30)%nat)))
               (map s4)) s4
  else s4.

(* ------------------------------------------------------------------ *)
(** ** Concrete sessions used by the examples *)

(** A routing service that cannot be reached. *)
Definition offline : Text -> FetchOutcome := fun _ => NetworkError.

(** A routing service that finds no route. *)
Definition noRoute : Text -> FetchOutcome := fun _ => JsonBody (Some []).

Definition endpoint (lat lng : R) : Endpoint :=
  {| ep_lat := VNum (Fin lat); ep_lng := VNum (Fin lng);
     ep_icon := None; ep_popup := None |}.

(** A fresh session, initialised with the defaults. *)
Definition s_init : OpenStreetMap := session noOptions noParams.

(** ... after [setupSelector(cb)] and [placeSelector(10.48, -66.90)]. *)
Definition selecting : list Op :=
  [ OpInitMap noParams; OpSetupSelector (OnSelectFn 0);
    OpPlaceSelector (VNum (Fin 10.48)) (VNum (Fin (-66.90))) None ].

Definition s_selected : OpenStreetMap := run selecting (new noOptions).

(** ... after one straight route from (10.0, -66.0) to (10.1, -66.1). *)
Definition s_routed : OpenStreetMap :=
  snd (drawRoute offline (Some (endpoint 10.0 (-66.0)))
         (Some (endpoint 10.1 (-66.1))) noRouteOptions s_init).

(** The number of initialisations in a list of calls. *)
Definition initCount (ops : list Op) : nat :=
  List.length (filter is_initMap ops).
(* ------------------------------------------------------------------ *)
(** ** Reading a session: effects, kinds of calls, the view *)

Definition is_invocation (e : Effect) : bool :=
  match e with CallbackInvoked _ _ => true | _ => false end.

Definition is_alert (e : Effect) : bool :=
  match e with Alert _ => true | _ => false end.

Definition is_request (e : Effect) : bool :=
  match e with FetchRequest _ => true | _ => false end.

(** The number of effects of one kind in a trace. *)
Definition countEffects (k : Effect -> bool) (t : list Effect) : nat :=
  List.length (filter k t).

Definition is_setupSelector (op : Op) : bool :=
  match op with OpSetupSelector _ => true | _ => false end.

(** The calls and events that work on the selector marker. *)
Definition usesSelector (op : Op) : bool :=
  match op with
  | OpSetupSelector _ | OpPlaceSelector _ _ _ | OpClearSelector | EvClick _ => true
  | _ => false
  end.

(** A confirmation: the call of [confirmSelection] or a click on the
    button of the popup. *)
Definition is_confirmation (op : Op) : bool :=
  match op with
  | OpConfirmSelection _ | EvConfirmClick _ => true
  | _ => false
  end.

(** The calls of [drawRoute] that ask for a route by road. *)
Definition asksRoadRoute (op : Op) : bool :=
  match op with
  | OpDrawRoute _ _ _ options => default false (ro_useRoadRoute options)
  | _ => false
  end.

(** A computation keeps a property of the session. *)
Definition preserves (I : OpenStreetMap -> Prop) {A : Type} (m : M A) : Prop :=
  forall s, I s -> I (snd (m s)).

(** What the selector operations, the switch of [setupSelector], the
    confirmation and the request to the routing service ask of a property
    for it to be kept. *)
Definition keptBySelector (I : OpenStreetMap -> Prop) : Prop :=
  (forall h s, I s -> I (set_selectorMarker h s))
  /\ (forall c s, I s -> I (set_selectedCoords c s)).

Definition keptByEnabling (I : OpenStreetMap -> Prop) : Prop :=
  forall cb s, I s -> I (set_selector true cb s).

Definition keptByConfirmation (I : OpenStreetMap -> Prop) : Prop :=
  (forall msg s, I s -> I (set_trace (Alert msg :: trace s) s))
  /\ (forall f p s, I s -> I (set_trace (CallbackInvoked f p :: trace s) s)).

Definition keptByRequest (I : OpenStreetMap -> Prop) : Prop :=
  (forall url s, I s -> I (set_trace (FetchRequest url :: trace s) s))
  /\ (forall msg s, I s -> I (set_trace (ConsoleError msg :: trace s) s)).

(** A session whose selector was never set up: the selector is off, nothing
    is selected, no callback is registered and none was invoked. *)
Definition unselected (s : OpenStreetMap) : Prop :=
  isSelectorEnabled s = false /\ selectorMarker s = None
  /\ selectedCoords s = None /\ onSelectCallback s = None
  /\ countEffects is_invocation (trace s) = 0%nat.

(** Modelled from the spec: what [getZoom()] of the rendering engine reads
    after the view commands a map received (latest first).  A command with a
    zoom level sets it and one without keeps it; after the view was fitted to
    bounds the level is chosen by the engine and not known here. *)
Fixpoint zoomAfter (log : list ViewCmd) : option JsVal :=
  match log with
  | [] => None
  | SetView _ _ (Some z) :: _ => Some z
  | SetView _ _ None :: log' => zoomAfter log'
  | FitBounds _ _ :: _ => None
  end.

(** Modelled from the spec: the centre of the view after a [setView]. *)
Definition centreAfter (log : list ViewCmd) : option (JsVal * JsVal) :=
  match log with
  | SetView lat lng _ :: _ => Some (lat, lng)
  | _ => None
  end.

(** The style [drawRoute] builds from its options. *)
Definition lineStyleOf (routeOptions : RouteOptions) : LineStyle :=
  {| ls_color := default "#2C6B94" (ro_color routeOptions);
     ls_weight := default (Fin 5) (ro_weight routeOptions);
     ls_opacity := default (Fin 0.7) (ro_opacity routeOptions);
     ls_dashArray :=
       match ro_dashArray routeOptions with
       | Some da => if str_truthy da then Some da else None
       | None => None
       end |}.

(** The marker [addMarkers] creates for an element of its array, and the
    circle [addCircles] creates. *)
Definition markerOfSpec (cfg : Config) (sp : MarkerSpec) : Layer :=
  markerFor cfg (ms_lat sp) (ms_lng sp) (Some (default "📦" (ms_icon sp)))
            (ms_popup sp).

Definition circleOfSpec (sp : CircleSpec) : Layer :=
  circleFor (cs_lat sp) (cs_lng sp) (cs_radius sp) (cs_opts sp).

(* ------------------------------------------------------------------ *)
(** ** The window factory ([DhtmlxMap]) *)

(** The options of [createMap]; an absent [zoom] is [VUndefined], and
    [instructions] is a text or absent ([false]). *)
Record CreateMapOptions : Type := {
  cm_title : option string;
  cm_zoom : JsVal;
  cm_instructions : option string
}.

(** Modelled from the spec: the windowing host (dhtmlXWindows) is not part
    of the repository sources; a window holds what the factory asked of
    it. *)
Record DhxWindow : Type := {
  win_id : string;
  win_box : nat * nat * nat * nat;
  win_text : string;
  win_modal : bool;
  win_maximized : bool;
  win_centered : bool;
  win_innerScroll : bool;
  win_html : Text
}.

(** What [createMap] hands back: the session, extended with [getWindow]
    (the window) and [showInstructions].  The banner of [showInstructions]
    lives in the document, which is outside the model: of that function
    only the call [createMap] itself makes is recorded, with its text. *)
Record DhtmlxMapInstance : Type := {
  dm_map : OpenStreetMap;
  dm_window : DhxWindow;
  dm_instructions : option string
}.

(** [v != null] *)
Definition notNull (v : JsVal) : bool :=
  match v with
  | VUndefined | VNull => false
  | _ => true
  end.

(** [async createMap(containerId, lat, lng, options = {})]: the value the
    returned promise resolves to; the container is in the document when
    the session is initialised.  The quotation marks around the attribute
    values of the markup are left out. *)
Definition createMap (containerId : string) (lat lng : JsVal)
  (options : CreateMapOptions) : DhtmlxMapInstance :=
  let title := default "Map" (cm_title options) in
  let zoom :=
    match cm_zoom options with
    | VUndefined => VNum (Fin 20)
    | z => z
    end in
  let win :=
    {| win_id := "mapWindow";
       win_box := (10, 10, 370, 150)%nat;
       win_text := title;
       win_modal := true;
       win_maximized := true;
       win_centered := true;
       win_innerScroll := true;
       win_html :=
         ('"<div class=map-container><div class=map-view id="
          +++ 'containerId +++ '"></div></div>")%text |} in
  let map :=
    new {| co_lat := None; co_lng := None; co_zoom := None;
           co_containerId := Some containerId; co_tileUrl := None;
           co_attribution := None; co_selectorIcon := None |} in
  let hasCoordinates := notNull lat && notNull lng in
  let map :=
    if hasCoordinates then
      snd (initMap {| ip_lat := lat; ip_lng := lng; ip_containerId := None;
                      ip_zoom := zoom |} map)
    else snd (initMap noParams map) in
  {| dm_map := map;
     dm_window := win;
     dm_instructions :=
       match cm_instructions options with
       | Some text => if str_truthy text then Some text else None
       | None => None
       end |}.

(* ------------------------------------------------------------------ *)
(** ** More concrete inputs for the examples *)

(** A routing service that answers with one route of 15.7 km and 21
    minutes along three points. *)
Definition exampleRoute : OsrmRoute :=
  {| osrm_distance := VNum (Fin 15700);
     osrm_duration := VNum (Fin 1260);
     osrm_geometry :=
       Some [ (VNum (Fin (-66.0)), VNum (Fin 10.0));
              (VNum (Fin (-66.05)), VNum (Fin 10.02));
              (VNum (Fin (-66.1)), VNum (Fin 10.1)) ] |}.

Definition routed : Text -> FetchOutcome :=
  fun _ => JsonBody (Some [exampleRoute]).

Definition byRoad : RouteOptions :=
  {| ro_useRoadRoute := Some true; ro_color := None; ro_weight := None;
     ro_opacity := None; ro_fitBounds := None; ro_dashArray := None |}.

Definition exampleMarkers : list MarkerSpec :=
  [ {| ms_lat := VNum (Fin 10.48); ms_lng := VNum (Fin (-66.90));
       ms_icon := Some "🏠"; ms_popup := None |};
    {| ms_lat := VNum (Fin 10.50); ms_lng := VNum (Fin (-66.85));
       ms_icon := None; ms_popup := Some (TLit "Cliente") |} ].

Definition exampleCircles : list CircleSpec :=
  [ {| cs_lat := VNum (Fin 10.48); cs_lng := VNum (Fin (-66.90));
       cs_radius := None; cs_opts := noCircleOptions |};
    {| cs_lat := VNum (Fin 10.50); cs_lng := VNum (Fin (-66.85));
       cs_radius := Some (VNum (Fin 800)); cs_opts := noCircleOptions |} ].

Definition fitted : BulkOptions := {| bo_fitBounds := Some true |}.

(* ------------------------------------------------------------------ *)
(** ** The distance calculator in binary64 arithmetic

    The session model above computes with exact reals.  This module embeds
    [#haversineDistance] once more, on IEEE-754 doubles, as the engine
    evaluates it: every arithmetic operator rounds to the nearest double.
    [Math.sin], [Math.cos] and [Math.atan2] belong to the engine, which
    returns an approximation of the exact value; they are taken here to
    return the double nearest to it, computed from the power series in
    fixed-point arithmetic with [guardBits] bits more than the result
    keeps. *)

From Stdlib Require Floats.

Module Binary64.

Import PrimFloat SpecFloat FloatOps.
Local Open Scope Z_scope.

Definition guardBits : Z := 192.

(** [2^p * (1/k - 1/(3 k^3) + 1/(5 k^5) - ...)], that is [2^p * atan (1/k)];
    [power] is [2^p / k^n]. *)
Fixpoint arctanInverse (fuel : nat) (k2 power n : Z) (minus : bool) (acc : Z) : Z :=
  match fuel with
  | O => acc
  | S fuel' =>
      if power =? 0 then acc
      else
        let term := power / n in
        arctanInverse fuel' k2 (power / k2) (n + 2) (negb minus)
          (if minus then acc - term else acc + term)
  end.

(** [2^p * PI], by Machin's formula [PI = 16 atan (1/5) - 4 atan (1/239)]. *)
Definition piScaled (p : Z) : Z :=
  let q := p + 32 in
  let arctan k := arctanInverse (Z.to_nat q) (k * k) (Z.shiftl 1 q / k) 1 false 0 in
  Z.shiftr (16 * arctan 5 - 4 * arctan 239) 32.

(** The alternating series [t - t r^2 / (n (n + 1)) + ...] in fixed point
    with [p] fractional bits: the sine from [t = r, n = 2], the cosine from
    [t = 1, n = 1]. *)
Fixpoint sumSeries (fuel : nat) (p r2 term n : Z) (minus : bool) (acc : Z) : Z :=
  match fuel with
  | O => acc
  | S fuel' =>
      if term =? 0 then acc
      else
        sumSeries fuel' p r2 (Z.shiftr (term * r2) p / (n * (n + 1))) (n + 2)
          (negb minus)
          (if minus then acc - term else acc + term)
  end.

Definition sinScaled (p r : Z) : Z :=
  sumSeries (Z.to_nat p) p (Z.shiftr (r * r) p) r 2 false 0.

Definition cosScaled (p r : Z) : Z :=
  sumSeries (Z.to_nat p) p (Z.shiftr (r * r) p) (Z.shiftl 1 p) 1 false 0.

(** The double nearest to [v / 2^p] (ties to even); a zero takes the sign
    [negative]. *)
Definition roundNearest (v p : Z) (negative : bool) : float :=
  SF2Prim (binary_normalize prec emax v (- p) negative).

(** The magnitude [m * 2^e] reduced by quarter turns: the precision, the
    quadrant and the rest, in [0, PI/2). *)
Definition reduced (m : positive) (e : Z) : Z * Z * Z :=
  let p := guardBits + 53 + Z.abs e in
  let x := Z.shiftl (Z.pos m) (e + p) in
  let halfPi := Z.shiftr (piScaled (p + 1)) 2 in
  let (turns, rest) := Z.div_eucl x halfPi in
  (p, turns mod 4, rest).

(** [Math.sin(x)]: NaN for NaN and the infinities, [x] itself for a zero. *)
Definition Math_sin (x : float) : float :=
  match Prim2SF x with
  | S754_nan | S754_infinity _ => nan
  | S754_zero _ => x
  | S754_finite s m e =>
      let '(p, quadrant, r) := reduced m e in
      let v := if quadrant =? 0 then sinScaled p r
               else if quadrant =? 1 then cosScaled p r
               else if quadrant =? 2 then - sinScaled p r
               else - cosScaled p r in
      roundNearest (if s then - v else v) p s
  end.

(** [Math.cos(x)]: NaN for NaN and the infinities, 1 for a zero. *)
Definition Math_cos (x : float) : float :=
  match Prim2SF x with
  | S754_nan | S754_infinity _ => nan
  | S754_zero _ => one
  | S754_finite _ m e =>
      let '(p, quadrant, r) := reduced m e in
      let v := if quadrant =? 0 then cosScaled p r
               else if quadrant =? 1 then - sinScaled p r
               else if quadrant =? 2 then - cosScaled p r
               else sinScaled p r in
      roundNearest v p false
  end.

(** [w - w^3 / 3 + w^5 / 5 - ...] in fixed point; [power] is [w^n]. *)
Fixpoint arctanSeries (fuel : nat) (p w2 power n : Z) (minus : bool) (acc : Z) : Z :=
  match fuel with
  | O => acc
  | S fuel' =>
      if power =? 0 then acc
      else
        let term := power / n in
        arctanSeries fuel' p w2 (Z.shiftr (power * w2) p) (n + 2) (negb minus)
          (if minus then acc - term else acc + term)
  end.

(** [2^p * atan (u / 2^p)] for [0 <= u <= 2^p]; the argument is halved
    twice with [atan u = 2 atan (u / (1 + sqrt (1 + u^2)))]. *)
Definition arctanScaled (p u : Z) : Z :=
  let unit := Z.shiftl 1 p in
  let halve v := Z.shiftl v p / (unit + Z.sqrt (Z.shiftl 1 (2 * p) + v * v)) in
  let w := halve (halve u) in
  4 * arctanSeries (Z.to_nat p) p (Z.shiftr (w * w) p) w 1 false 0.

(** The double nearest to [PI * numerator / denominator], with its sign. *)
Definition piTimes (numerator denominator : Z) (negative : bool) : float :=
  let p := guardBits + 64 in
  let v := piScaled p * numerator / denominator in
  roundNearest (if negative then - v else v) p negative.

(** The angle of the point [(x, y)] for finite non-zero [y] and [x], given
    by sign, mantissa and exponent. *)
Definition angleOf (sy : bool) (my : positive) (ey : Z)
  (sx : bool) (mx : positive) (ex : Z) : float :=
  let p := guardBits + 64 + Z.abs (ey - ex) in
  let low := Z.min ey ex in
  let steep := Z.shiftl (Z.pos mx) (ex - low) <? Z.shiftl (Z.pos my) (ey - low) in
  let a :=
    if steep
    then Z.shiftr (piScaled (p + 1)) 2
         - arctanScaled p (Z.shiftl (Z.pos mx) (p + ex - ey) / Z.pos my)
    else arctanScaled p (Z.shiftl (Z.pos my) (p + ey - ex) / Z.pos mx) in
  let angle := if sx then piScaled p - a else a in
  roundNearest (if sy then - angle else angle) p sy.

(** [Math.atan2(y, x)], with the cases the language fixes for NaN, the
    zeros and the infinities. *)
Definition Math_atan2 (y x : float) : float :=
  match Prim2SF y, Prim2SF x with
  | S754_nan, _ | _, S754_nan => nan
  | S754_infinity sy, S754_infinity false => piTimes 1 4 sy
  | S754_infinity sy, S754_infinity true => piTimes 3 4 sy
  | S754_infinity sy, _ => piTimes 1 2 sy
  | S754_zero _, (S754_zero false | S754_finite false _ _ | S754_infinity false) => y
  | S754_zero sy, _ => piTimes 1 1 sy
  | S754_finite sy _ _, S754_infinity false => if sy then neg_zero else zero
  | S754_finite sy _ _, S754_infinity true => piTimes 1 1 sy
  | S754_finite sy _ _, S754_zero _ => piTimes 1 2 sy
  | S754_finite sy my ey, S754_finite sx mx ex => angleOf sy my ey sx mx ex
  end.

Local Open Scope float_scope.

(** [Math.PI] *)
Definition Math_PI : float := 0x1.921fb54442d18p+1.

(** [x ** 2]: the double nearest to the square. *)
Definition square (x : float) : float := x * x.

Definition toRad (deg : float) : float := (deg * Math_PI) / 180.

(** The [a] term of the Haversine formula. *)
Definition haversineTerm (lat1 lng1 lat2 lng2 : float) : float :=
  let dLat := toRad (lat2 - lat1) in
  let dLng := toRad (lng2 - lng1) in
  square (Math_sin (dLat / 2))
  + Math_cos (toRad lat1) * Math_cos (toRad lat2) * square (Math_sin (dLng / 2)).

(** [static #haversineDistance(lat1, lng1, lat2, lng2)], in metres. *)
Definition haversineDistance (lat1 lng1 lat2 lng2 : float) : float :=
  let R := 6371000 in
  let a := haversineTerm lat1 lng1 lat2 lng2 in
  R * 2 * Math_atan2 (sqrt a) (sqrt (1 - a)).

End Binary64.

(* ------------------------------------------------------------------ *)
(** ** The selector marker and the surface *)

Definition is_clearMarkers (op : Op) : bool :=
  match op with OpClearMarkers => true | _ => false end.

(** The calls that write the list of route entries. *)
Definition writesRoutes (op : Op) : bool :=
  match op with
  | OpDrawRoute _ _ _ _ | OpClearRoutes => true
  | _ => false
  end.

(** The calls and events that can take the selector marker off the surface
    while the session keeps it: a new initialisation, which starts a new
    map, and [clearMarkers], since the selector marker is registered like
    any marker. *)
Definition dropsSelector (op : Op) : bool :=
  is_initMap op || is_clearMarkers op.

(** The calls and events that take no layer off the surface. *)
Definition removesNothing (op : Op) : bool :=
  match op with
  | OpSetupSearch _ | OpGetSelectedCoordinates _ | OpConfirmSelection _
  | OpDrawRoute _ _ _ _ | OpSetView _ _ _ | OpAddMarker _ _ _ _
  | OpAddMarkers _ _ | OpAddCircle _ _ _ _ | OpAddCircles _ _
  | EvMarkGeocode _ _ _ _ | EvConfirmClick _ => true
  | _ => false
  end.

(** The selector marker the session holds is on the surface. *)
Definition selectorOnSurface (s : OpenStreetMap) : Prop :=
  forall h, selectorMarker s = Some h -> In h (surface s).

(** The selector marker is in no route entry. *)
Definition selectorApart (s : OpenStreetMap) : Prop :=
  forall h, selectorMarker s = Some h -> ~ In h (allRouteHandles s).

(** A computation that takes nothing off the surface. *)
Definition enlarges {A : Type} (m : M A) : Prop :=
  forall s, incl (surface s) (surface (snd (m s))).

(** A session where a point is selected and the markers are then cleared. *)
Definition markersCleared : list Op :=
  [ OpInitMap noParams; OpSetupSelector (OnSelectFn 0); OpClearMarkers ].
(* ------------------------------------------------------------------ *)
(** * Properties *)

Section Haversine.

Implicit Types lat lng : R.

(** Product of cosines in half-sum / half-difference form. *)
Lemma cos_mul_half (x y : R) :
  cos x * cos y = (cos ((y - x) / 2))² - (sin ((x + y) / 2))².
Proof.
  set (u := (y - x) / 2). set (v := (x + y) / 2).
  replace x with (v - u) by (unfold u, v; lra).
  replace y with (v + u) by (unfold u, v; lra).
  rewrite cos_minus, cos_plus.
  pose proof (sin2_cos2 u) as Hu. pose proof (sin2_cos2 v) as Hv.
  unfold Rsqr in *. nra.
Qed.

Lemma Rsqr_bounds_sin (x : R) : 0 <= (sin x)² <= 1.
Proof.
  pose proof (sin2_cos2 x) as H.
  pose proof (Rle_0_sqr (sin x)). pose proof (Rle_0_sqr (cos x)). lra.
Qed.

Lemma Rsqr_bounds_cos (x : R) : 0 <= (cos x)² <= 1.
Proof.
  pose proof (sin2_cos2 x) as H.
  pose proof (Rle_0_sqr (sin x)). pose proof (Rle_0_sqr (cos x)). lra.
Qed.

Lemma haversineTerm_Fin lat1 lng1 lat2 lng2 :
  haversineTerm (Fin lat1) (Fin lng1) (Fin lat2) (Fin lng2)
  = Fin (hterm lat1 lng1 lat2 lng2).
Proof. reflexivity. Qed.

Lemma hterm_sym lat1 lng1 lat2 lng2 :
  hterm lat1 lng1 lat2 lng2 = hterm lat2 lng2 lat1 lng1.
Proof.
  unfold hterm.
  replace (rad (lat1 - lat2) / 2) with (- (rad (lat2 - lat1) / 2))
    by (unfold rad; lra).
  replace (rad (lng1 - lng2) / 2) with (- (rad (lng2 - lng1) / 2))
    by (unfold rad; lra).
  rewrite !sin_neg. ring.
Qed.

Lemma hterm_range lat1 lng1 lat2 lng2 :
  0 <= hterm lat1 lng1 lat2 lng2 <= 1.
Proof.
  unfold hterm.
  rewrite cos_mul_half.
  replace ((rad lat2 - rad lat1) / 2) with (rad (lat2 - lat1) / 2)
    by (unfold rad; lra).
  set (u := rad (lat2 - lat1) / 2).
  set (v := (rad lat1 + rad lat2) / 2).
  set (w := rad (lng2 - lng1) / 2).
  pose proof (Rsqr_bounds_sin u) as Hu.
  pose proof (Rsqr_bounds_sin v) as Hv.
  pose proof (Rsqr_bounds_sin w) as Hw.
  pose proof (sin2_cos2 u) as Hu1.
  unfold Rsqr in *.
  replace (sin u ^ 2) with (sin u * sin u) by ring.
  replace (sin w ^ 2) with (sin w * sin w) by ring.
  set (su := sin u * sin u) in *. set (sv := sin v * sin v) in *.
  set (sw := sin w * sin w) in *. set (cu := cos u * cos u) in *.
  replace cu with (1 - su) by lra.
  split; nra.
Qed.

Lemma hterm_same lat lng : hterm lat lng lat lng = 0.
Proof.
  unfold hterm.
  replace (rad (lat - lat) / 2) with 0 by (unfold rad; lra).
  replace (rad (lng - lng) / 2) with 0 by (unfold rad; lra).
  rewrite sin_0. ring.
Qed.

Lemma haversineDistance_Fin lat1 lng1 lat2 lng2 :
  haversineDistance (Fin lat1) (Fin lng1) (Fin lat2) (Fin lng2)
  = Fin (6371000 * 2
         * Ratan2 (sqrt (hterm lat1 lng1 lat2 lng2))
                  (sqrt (1 - hterm lat1 lng1 lat2 lng2))).
Proof.
  unfold haversineDistance. rewrite haversineTerm_Fin. simpl.
  pose proof (hterm_range lat1 lng1 lat2 lng2) as [H0 H1].
  destruct (Rlt_dec (hterm lat1 lng1 lat2 lng2) 0) as [Hn|_]; [lra|].
  destruct (Rlt_dec (1 - hterm lat1 lng1 lat2 lng2) 0) as [Hn|_]; [lra|].
  reflexivity.
Qed.

(** The formula in exact arithmetic: on finite coordinates it is symmetric
    in the two points and zero for coincident points.  (What the doubles of
    the engine make of it near the antipodes is another matter, see
    [Binary64.haversineDistance].) *)
Lemma haversineDistance_symmetric_zero lat1 lng1 lat2 lng2 :
  num_eq (haversineDistance (Fin lat1) (Fin lng1) (Fin lat2) (Fin lng2))
         (haversineDistance (Fin lat2) (Fin lng2) (Fin lat1) (Fin lng1))
  /\ num_eq (haversineDistance (Fin lat1) (Fin lng1) (Fin lat1) (Fin lng1))
            (Fin 0).
Proof.
  rewrite !haversineDistance_Fin. simpl. split.
  - now rewrite (hterm_sym lat1 lng1 lat2 lng2).
  - rewrite hterm_same, Rminus_0_r, sqrt_0, sqrt_1.
    unfold Ratan2.
    destruct (Rlt_dec 0 1) as [_|H]; [|lra].
    unfold Rdiv. rewrite Rmult_0_l, atan_0. ring.
Qed.

End Haversine.
(* ------------------------------------------------------------------ *)
Section Guards.

Lemma Rzerob_0 : Rzerob 0 = true.
Proof. unfold Rzerob. destruct (Req_dec_T 0 0); [reflexivity | lra]. Qed.

Lemma Rzerob_nonzero (r : R) : r <> 0 -> Rzerob r = false.
Proof. intros H. unfold Rzerob. destruct (Req_dec_T r 0); [contradiction | reflexivity]. Qed.

Lemma truthy_Fin (r : R) : r <> 0 -> truthy (VNum (Fin r)) = true.
Proof. intros H. simpl. now rewrite Rzerob_nonzero. Qed.

Lemma truthy_zero : truthy (VNum (Fin 0)) = false.
Proof. simpl. now rewrite Rzerob_0. Qed.

Lemma requireMap_none (s : OpenStreetMap) :
  map s = None ->
  requireMap s
  = (false,
     set_trace
       (ConsoleWarn
          "OpenStreetMap: El mapa no ha sido inicializado. Llama a initMap() primero."
        :: trace s) s).
Proof. intros H. unfold requireMap, bind, gets. now rewrite H. Qed.

Lemma requireMap_some (s : OpenStreetMap) (m : LeafletMap) :
  map s = Some m -> requireMap s = (true, s).
Proof. intros H. unfold requireMap, bind, gets. now rewrite H. Qed.

Lemma sameButTrace_set_trace (t : list Effect) (s : OpenStreetMap) :
  sameButTrace s (set_trace t s).
Proof. unfold sameButTrace. simpl. tauto. Qed.

Lemma sameButTrace_refl (s : OpenStreetMap) : sameButTrace s s.
Proof. unfold sameButTrace. tauto. Qed.

Lemma guarded_uninitialized (op : Op) (s : OpenStreetMap) :
  guarded op = true ->
  isInitialized s = false ->
  exists v s',
    call op s = (Returned v, s') /\ failsSafe v = true /\ sameButTrace s s'.
Proof.
  intros Hg Hi.
  assert (Hm : map s = None).
  { unfold isInitialized in Hi. destruct (map s); [discriminate | reflexivity]. }
  destruct op; try discriminate Hg; clear Hg;
    unfold call, returning, setupSearch, setupSelector, placeSelector,
      requireSelector, drawRoute, setView, addMarker, addMarkers, addCircle,
      addCircles, clearSelector, clearRoutes, clearMarkers, clearCircles, bind, gets;
    rewrite ?requireMap_none by exact Hm; rewrite ?Hm; simpl;
    eexists; eexists; (split; [reflexivity|]); split; try reflexivity;
    first [apply sameButTrace_set_trace | apply sameButTrace_refl].
Qed.
(** C10. Every public operation other than initialisation, called on an
    uninitialised session, returns normally (it does not throw) with null,
    undefined, an empty array or the session itself, and leaves every field
    of the session and the object store as they were: only a warning is
    logged. *)
Theorem uninitialized_fails_safe (op : Op) (s : OpenStreetMap) :
  guarded op = true ->
  isInitialized s = false ->
  exists v s',
    call op s = (Returned v, s') /\ failsSafe v = true /\ sameButTrace s s'.
Proof. apply guarded_uninitialized. Qed.

End Guards.
(* ------------------------------------------------------------------ *)
Section Invariants.

Lemma kindAt_lt (k : Layer -> bool) (s : OpenStreetMap) (h : Handle) :
  kindAt k s h = true -> (h < List.length (objects s))%nat.
Proof.
  unfold kindAt, layerAt. intros H.
  destruct (nth_error (objects s) h) eqn:E; [|discriminate].
  apply nth_error_Some. congruence.
Qed.

Lemma kindAt_old (k : Layer -> bool) (s s' : OpenStreetMap) (l : list Layer)
  (h : Handle) :
  objects s' = objects s ++ l ->
  (h < List.length (objects s))%nat ->
  kindAt k s' h = kindAt k s h.
Proof.
  intros Ho Hlt. unfold kindAt, layerAt. rewrite Ho.
  now rewrite nth_error_app1.
Qed.

Lemma kindAt_new (k : Layer -> bool) (s s' : OpenStreetMap) (l : Layer) :
  objects s' = objects s ++ [l] ->
  kindAt k s' (List.length (objects s)) = k l.
Proof.
  intros Ho. unfold kindAt, layerAt. rewrite Ho.
  rewrite nth_error_app2 by lia. now rewrite Nat.sub_diag.
Qed.

Lemma kindAt_grows (k : Layer -> bool) (s s' : OpenStreetMap) (h : Handle) :
  grows s s' -> kindAt k s h = true -> kindAt k s' h = true.
Proof.
  intros [l Hl] H. rewrite (kindAt_old k s s' l h Hl); [exact H|].
  now apply kindAt_lt in H.
Qed.

Lemma kind_marker_not_circle (s : OpenStreetMap) (h : Handle) :
  kindAt is_marker s h = true -> kindAt is_circle s h = false.
Proof.
  unfold kindAt. destruct (layerAt s h) as [[]|]; simpl; congruence.
Qed.

Lemma kind_polyline_not_circle (s : OpenStreetMap) (h : Handle) :
  kindAt is_polyline s h = true -> kindAt is_circle s h = false.
Proof.
  unfold kindAt. destruct (layerAt s h) as [[]|]; simpl; congruence.
Qed.

Lemma handle_in_In (h : Handle) (l : list Handle) :
  handle_in h l = true <-> In h l.
Proof.
  unfold handle_in. rewrite existsb_exists. split.
  - intros (x & Hx & E). apply Nat.eqb_eq in E. now subst.
  - intros H. exists h. split; [exact H | apply Nat.eqb_refl].
Qed.

Lemma handle_in_not_In (h : Handle) (l : list Handle) :
  handle_in h l = false <-> ~ In h l.
Proof.
  rewrite <- handle_in_In. destruct (handle_in h l); split; congruence.
Qed.

Lemma NoDup_snoc (A : Type) (l : list A) (a : A) :
  NoDup l -> ~ In a l -> NoDup (l ++ [a]).
Proof.
  intros Hl Ha. apply NoDup_app; [exact Hl | constructor; [intros [] | constructor] |].
  intros x Hx [Hax|[]]. subst. contradiction.
Qed.

Lemma filter_filter_keep (A : Type) (f g : A -> bool) (l : list A) :
  (forall x, In x l -> g x = true -> f x = true) ->
  filter g (filter f l) = filter g l.
Proof.
  induction l as [|x xs IH]; intros H; [reflexivity|]. simpl.
  assert (IH' : filter g (filter f xs) = filter g xs).
  { apply IH. intros y Hy. apply H. now right. }
  destruct (g x) eqn:Gx.
  - rewrite (H x (or_introl eq_refl) Gx). simpl. now rewrite Gx, IH'.
  - destruct (f x); simpl; rewrite ?Gx; exact IH'.
Qed.

Lemma filter_filter_drop (A : Type) (f g : A -> bool) (l : list A) :
  (forall x, In x l -> g x = true -> f x = false) ->
  filter g (filter f l) = [].
Proof.
  induction l as [|x xs IH]; intros H; [reflexivity|]. simpl.
  assert (IH' : filter g (filter f xs) = []).
  { apply IH. intros y Hy. apply H. now right. }
  destruct (f x) eqn:Fx; [|exact IH']. simpl.
  destruct (g x) eqn:Gx; [|exact IH'].
  rewrite (H x (or_introl eq_refl) Gx) in Fx. discriminate.
Qed.

Lemma grows_refl (s : OpenStreetMap) : grows s s.
Proof. exists []. now rewrite app_nil_r. Qed.

Lemma grows_trans (s1 s2 s3 : OpenStreetMap) :
  grows s1 s2 -> grows s2 s3 -> grows s1 s3.
Proof.
  intros [l1 H1] [l2 H2]. exists (l1 ++ l2). now rewrite H2, H1, app_assoc.
Qed.

Lemma grows_length (s s' : OpenStreetMap) :
  grows s s' -> (List.length (objects s) <= List.length (objects s'))%nat.
Proof. intros [l H]. rewrite H, length_app. lia. Qed.

Lemma wf_core (s s' : OpenStreetMap) : core s = core s' -> wf s -> wf s'.
Proof.
  unfold core. intros H W. injection H as Ho Hs Hm Hc Hsel Hco Hr.
  assert (Hk : forall k h, kindAt k s' h = kindAt k s h).
  { intros. unfold kindAt, layerAt. now rewrite Ho. }
  destruct W as [W1 W2 W3 W4 W5 W6 W7 W8 W9 W10 W11].
  constructor.
  - now rewrite <- Hm.
  - now rewrite <- Hc.
  - intros h Hh. rewrite Hk. apply W3. now rewrite Hm.
  - intros h Hh. rewrite Hk. apply W4. now rewrite Hc.
  - now rewrite <- Hs.
  - intros h Hh. rewrite <- Ho. apply W6. now rewrite Hs.
  - intros h Hh Hkd. rewrite <- Hm. apply W7; [now rewrite Hs | now rewrite <- Hk].
  - intros h Hh Hkd. rewrite <- Hc. apply W8; [now rewrite Hs | now rewrite <- Hk].
  - intros h Hh. rewrite Hk. apply W9. now rewrite Hsel.
  - intros r Hr'. rewrite !Hk.
    destruct (W10 r) as (A & B & C); [now rewrite Hr|].
    split; [exact A|]. split; intros h Hh; rewrite Hk; auto.
  - now rewrite <- Hsel, <- Hco.
Qed.

Lemma circlesInSync_core (s s' : OpenStreetMap) :
  core s = core s' -> circlesInSync s -> circlesInSync s'.
Proof.
  unfold core, circlesInSync, visibleCircles. intros H E.
  injection H as Ho Hs Hm Hc Hsel Hco Hr.
  rewrite <- Hs, <- Hc, <- E. apply filter_ext. intros h.
  unfold kindAt, layerAt. now rewrite Ho.
Qed.

Lemma sound_refl (e : bool) (s : OpenStreetMap) : sound e s s.
Proof.
  intros W. split; [exact W|]. split; [apply grows_refl|].
  split; [intros h H; now left|]. split; [now left | auto].
Qed.

Lemma sound_trans (e : bool) (s1 s2 s3 : OpenStreetMap) :
  sound e s1 s2 -> sound e s2 s3 -> sound e s1 s3.
Proof.
  intros H12 H23 W1.
  destruct (H12 W1) as (W2 & G12 & F12 & R12 & E12).
  destruct (H23 W2) as (W3 & G23 & F23 & R23 & E23).
  pose proof (grows_length _ _ G12) as L12.
  split; [exact W3|]. split; [eapply grows_trans; eassumption|].
  assert (F13 : gainsFresh s1 s3).
  { intros h Hh. destruct (F23 h Hh) as [H|H]; [|right; lia].
    now apply F12. }
  split; [exact F13|]. split; [|auto].
  assert (Hold : forall h0, selectorMarker s1 = Some h0 ->
                 ~ In h0 (surface s2) -> ~ In h0 (surface s3)).
  { intros h0 Hs Hn Hin. destruct (F23 h0 Hin) as [H|H]; [contradiction|].
    apply (wf_sel_kind s1 W1) in Hs. apply kindAt_lt in Hs. lia. }
  destruct R12 as [R12|[R12a R12b]], R23 as [R23|[R23a R23b]].
  - left. congruence.
  - right. split.
    + intros h0 Hs. apply R23a. congruence.
    + intros h Hs. apply R23b in Hs. lia.
  - right. split.
    + intros h0 Hs. apply Hold; auto.
    + intros h Hs. apply R12b. congruence.
  - right. split.
    + intros h0 Hs. apply Hold; auto.
    + intros h Hs. apply R23b in Hs. lia.
Qed.

Lemma sound_weaken (e : bool) (s s' : OpenStreetMap) :
  sound true s s' -> sound e s s'.
Proof.
  intros H W. destruct (H W) as (W' & G & F & R & E).
  split; [exact W'|]. split; [exact G|]. split; [exact F|]. split; [exact R|].
  intros He. destruct e; [now apply E | discriminate].
Qed.

(** A transition that leaves the core alone. *)
Lemma sound_frame (e : bool) (s s' : OpenStreetMap) :
  core s = core s' -> sound e s s'.
Proof.
  intros H W. pose proof H as H'. unfold core in H'.
  injection H' as Ho Hs Hm Hc Hsel Hco Hr.
  split; [eapply wf_core; eassumption|].
  split; [exists []; now rewrite app_nil_r|].
  split; [intros h Hh; left; now rewrite Hs|].
  split; [left; now rewrite Hsel|].
  intros _. now apply circlesInSync_core.
Qed.

(** A new object is created and attached to the surface; a marker is
    registered as a generic marker, a circle as a circle.  The new marker may
    become the selector marker when there was none. *)
Lemma sound_alloc (e : bool) (s s' : OpenStreetMap) (l : Layer) :
  objects s' = objects s ++ [l] ->
  surface s'
  = (if handle_in (List.length (objects s)) (surface s) then surface s
     else surface s ++ [List.length (objects s)]) ->
  markers s' = markers s ++ (if is_marker l then [List.length (objects s)] else []) ->
  circles s' = circles s ++ (if is_circle l then [List.length (objects s)] else []) ->
  routeLayers s' = routeLayers s ->
  (selectorMarker s' = selectorMarker s /\ selectedCoords s' = selectedCoords s
   \/ selectorMarker s = None /\ selectorMarker s' = Some (List.length (objects s))
      /\ is_marker l = true /\ selectedCoords s' <> None) ->
  sound e s s'.
Proof.
  set (n := List.length (objects s)).
  intros Ho Hs Hm Hc Hr Hsel W.
  destruct W as [W1 W2 W3 W4 W5 W6 W7 W8 W9 W10 W11].
  assert (Hn : forall h, In h (surface s) -> h <> n).
  { intros h Hh. apply W6 in Hh. fold n in Hh. lia. }
  assert (Hns : ~ In n (surface s)).
  { intros Hh. now apply (Hn n). }
  apply handle_in_not_In in Hns. rewrite Hns in Hs.
  apply handle_in_not_In in Hns.
  assert (Hnm : ~ In n (markers s)).
  { intros Hh. apply W3, kindAt_lt in Hh. fold n in Hh. lia. }
  assert (Hnc : ~ In n (circles s)).
  { intros Hh. apply W4, kindAt_lt in Hh. fold n in Hh. lia. }
  assert (G : grows s s') by (now exists [l]).
  assert (Hnew : forall k, kindAt k s' n = k l).
  { intros k. now apply kindAt_new. }
  assert (Hold : forall k h, (h < n)%nat -> kindAt k s' h = kindAt k s h).
  { intros k h Hh. now apply kindAt_old with (l := [l]). }
  split.
  { constructor.
    - rewrite Hm. destruct (is_marker l); [now apply NoDup_snoc | now rewrite app_nil_r].
    - rewrite Hc. destruct (is_circle l); [now apply NoDup_snoc | now rewrite app_nil_r].
    - rewrite Hm. intros h Hh. apply in_app_or in Hh as [Hh|Hh].
      + eapply kindAt_grows; eauto.
      + destruct (is_marker l) eqn:E; [|destruct Hh].
        destruct Hh as [<-|[]]. now rewrite Hnew.
    - rewrite Hc. intros h Hh. apply in_app_or in Hh as [Hh|Hh].
      + eapply kindAt_grows; eauto.
      + destruct (is_circle l) eqn:E; [|destruct Hh].
        destruct Hh as [<-|[]]. now rewrite Hnew.
    - rewrite Hs. now apply NoDup_snoc.
    - rewrite Hs, Ho, length_app. simpl. intros h Hh.
      apply in_app_or in Hh as [Hh|[<-|[]]]; [apply W6 in Hh|]; fold n; lia.
    - rewrite Hs, Hm. intros h Hh Hk. apply in_or_app.
      apply in_app_or in Hh as [Hh|[<-|[]]].
      + left. apply W7; [exact Hh|]. rewrite <- Hold; [exact Hk|].
        apply W6 in Hh. exact Hh.
      + right. rewrite Hnew in Hk. rewrite Hk. now left.
    - rewrite Hs, Hc. intros h Hh Hk. apply in_or_app.
      apply in_app_or in Hh as [Hh|[<-|[]]].
      + left. apply W8; [exact Hh|]. rewrite <- Hold; [exact Hk|].
        apply W6 in Hh. exact Hh.
      + right. rewrite Hnew in Hk. rewrite Hk. now left.
    - intros h Hh. destruct Hsel as [[Hsel _]|(_ & Hsel & Hl & _)].
      + rewrite Hsel in Hh. eapply kindAt_grows; eauto.
      + rewrite Hsel in Hh. injection Hh as <-. now rewrite Hnew.
    - rewrite Hr. intros r Hr'. destruct (W10 r Hr') as (A & B & C).
      split; [eapply kindAt_grows; eauto|].
      split; intros h Hh; eapply kindAt_grows; eauto.
    - destruct Hsel as [[Hsel Hco]|(_ & Hsel & _ & Hco)].
      + now rewrite Hsel, Hco.
      + rewrite Hsel. split; [discriminate | contradiction]. }
  split; [exact G|].
  split.
  { intros h Hh. rewrite Hs in Hh.
    apply in_app_or in Hh as [Hh|[<-|[]]]; [now left | right; fold n; lia]. }
  split.
  { destruct Hsel as [[Hsel _]|(Hsel0 & Hsel & _)]; [now left|].
    right. split.
    - intros h0 Hh0. congruence.
    - intros h Hh. rewrite Hsel in Hh. injection Hh as <-. fold n. lia. }
  intros _ E. unfold circlesInSync, visibleCircles in *.
  rewrite Hs, Hc, filter_app, <- E. f_equal.
  - apply filter_ext_in. intros h Hh. apply Hold. apply W6 in Hh. exact Hh.
  - simpl. now rewrite Hnew.
Qed.

(** A new map is created with one layer on it, neither a marker nor a
    circle. *)
Lemma sound_init (s s' : OpenStreetMap) (l : Layer) :
  objects s' = objects s ++ [l] ->
  is_marker l = false -> is_circle l = false ->
  surface s' = [List.length (objects s)] ->
  markers s' = markers s -> circles s' = circles s ->
  routeLayers s' = routeLayers s ->
  selectorMarker s' = selectorMarker s -> selectedCoords s' = selectedCoords s ->
  sound false s s'.
Proof.
  set (n := List.length (objects s)).
  intros Ho Hlm Hlc Hs Hm Hc Hr Hsel Hco W.
  destruct W as [W1 W2 W3 W4 W5 W6 W7 W8 W9 W10 W11].
  assert (G : grows s s') by (now exists [l]).
  assert (Hnew : forall k, kindAt k s' n = k l).
  { intros k. now apply kindAt_new. }
  split.
  { constructor.
    - now rewrite Hm.
    - now rewrite Hc.
    - rewrite Hm. intros h Hh. eapply kindAt_grows; eauto.
    - rewrite Hc. intros h Hh. eapply kindAt_grows; eauto.
    - rewrite Hs. constructor; [intros [] | constructor].
    - rewrite Hs, Ho, length_app. simpl. intros h [<-|[]]. fold n. lia.
    - rewrite Hs. intros h [<-|[]] Hk. rewrite Hnew in Hk. congruence.
    - rewrite Hs. intros h [<-|[]] Hk. rewrite Hnew in Hk. congruence.
    - rewrite Hsel. intros h Hh. eapply kindAt_grows; eauto.
    - rewrite Hr. intros r Hr'. destruct (W10 r Hr') as (A & B & C).
      split; [eapply kindAt_grows; eauto|].
      split; intros h Hh; eapply kindAt_grows; eauto.
    - now rewrite Hsel, Hco. }
  split; [exact G|].
  split; [intros h Hh; rewrite Hs in Hh; destruct Hh as [<-|[]]; right; fold n; lia|].
  split; [now left | discriminate].
Qed.

(** Layers are taken off the surface; a registry may be emptied when all its
    handles are taken off, and the selector may be cleared when its marker
    is. *)
Lemma sound_shrink (e : bool) (s s' : OpenStreetMap) (f : Handle -> bool) :
  objects s' = objects s ->
  surface s' = filter f (surface s) ->
  (markers s' = markers s
   \/ markers s' = [] /\ forall h, In h (markers s) -> f h = false) ->
  (circles s' = circles s /\ (forall h, In h (circles s) -> f h = true)
   \/ circles s' = [] /\ forall h, In h (circles s) -> f h = false) ->
  (routeLayers s' = routeLayers s \/ routeLayers s' = []) ->
  (selectorMarker s' = selectorMarker s /\ selectedCoords s' = selectedCoords s
   \/ selectorMarker s' = None /\ selectedCoords s' = None
      /\ forall h, selectorMarker s = Some h -> f h = false) ->
  sound e s s'.
Proof.
  intros Ho Hs Hm Hc Hr Hsel W.
  destruct W as [W1 W2 W3 W4 W5 W6 W7 W8 W9 W10 W11].
  assert (Hk : forall k h, kindAt k s' h = kindAt k s h).
  { intros. unfold kindAt, layerAt. now rewrite Ho. }
  split.
  { constructor.
    - destruct Hm as [->|[-> _]]; [assumption | constructor].
    - destruct Hc as [[-> _]|[-> _]]; [assumption | constructor].
    - intros h Hh. rewrite Hk. destruct Hm as [Hm|[Hm _]]; rewrite Hm in Hh;
        [now apply W3 | destruct Hh].
    - intros h Hh. rewrite Hk. destruct Hc as [[Hc _]|[Hc _]]; rewrite Hc in Hh;
        [now apply W4 | destruct Hh].
    - rewrite Hs. now apply NoDup_filter.
    - rewrite Hs, Ho. intros h Hh. apply filter_In in Hh as [Hh _]. now apply W6.
    - rewrite Hs. intros h Hh Hkd. apply filter_In in Hh as [Hh Hf].
      rewrite Hk in Hkd. pose proof (W7 h Hh Hkd) as Hin.
      destruct Hm as [->|[_ Hm]]; [exact Hin|]. rewrite (Hm h Hin) in Hf. discriminate.
    - rewrite Hs. intros h Hh Hkd. apply filter_In in Hh as [Hh Hf].
      rewrite Hk in Hkd. pose proof (W8 h Hh Hkd) as Hin.
      destruct Hc as [[-> _]|[_ Hc]]; [exact Hin|]. rewrite (Hc h Hin) in Hf. discriminate.
    - intros h Hh. rewrite Hk. destruct Hsel as [[Hsel _]|[Hsel _]]; rewrite Hsel in Hh;
        [now apply W9 | discriminate].
    - intros r Hr'. rewrite !Hk.
      destruct Hr as [Hr|Hr]; rewrite Hr in Hr'; [|destruct Hr'].
      destruct (W10 r Hr') as (A & B & C).
      split; [exact A|]. split; intros h Hh; rewrite Hk; auto.
    - destruct Hsel as [[-> ->]|(-> & -> & _)]; [exact W11 | tauto]. }
  split; [exists []; now rewrite app_nil_r|].
  split.
  { intros h Hh. rewrite Hs in Hh. apply filter_In in Hh as [Hh _]. now left. }
  split.
  { destruct Hsel as [[Hsel _]|(Hsel & _ & Hf)]; [now left|].
    right. split.
    - intros h0 Hh0 Hin. rewrite Hs in Hin. apply filter_In in Hin as [_ Hin].
      rewrite (Hf h0 Hh0) in Hin. discriminate.
    - intros h Hh. congruence. }
  intros _ E. unfold circlesInSync, visibleCircles in *.
  rewrite Hs.
  rewrite (filter_ext (kindAt is_circle s') (kindAt is_circle s)) by (intros; apply Hk).
  destruct Hc as [[Hc Hf]|[Hc Hf]]; rewrite Hc.
  - rewrite <- E. apply filter_filter_keep. intros x Hx Kx. apply Hf. now apply W8.
  - apply filter_filter_drop. intros x Hx Kx. apply Hf. now apply W8.
Qed.

(** A route entry is recorded whose handles are a path and two markers. *)
Lemma sound_push_route (e : bool) (s s' : OpenStreetMap) (r : RouteLayer) :
  objects s' = objects s -> surface s' = surface s ->
  markers s' = markers s -> circles s' = circles s ->
  selectorMarker s' = selectorMarker s -> selectedCoords s' = selectedCoords s ->
  routeLayers s' = routeLayers s ++ [r] ->
  kindAt is_polyline s (rl_polyline r) = true ->
  (forall h, rl_originMarker r = Some h -> kindAt is_marker s h = true) ->
  (forall h, rl_destinationMarker r = Some h -> kindAt is_marker s h = true) ->
  sound e s s'.
Proof.
  intros Ho Hs Hm Hc Hsel Hco Hr Kp Ko Kd W.
  set (s0 := set_routeLayers (routeLayers s) s').
  assert (C0 : core s = core s0).
  { unfold core, s0. simpl. unfold surface. simpl. fold (surface s').
    now rewrite Ho, Hs, Hm, Hc, Hsel, Hco. }
  destruct (sound_frame e s s0 C0 W) as (W0 & G & F & R & E).
  assert (Hk : forall k h, kindAt k s' h = kindAt k s h).
  { intros. unfold kindAt, layerAt. now rewrite Ho. }
  split.
  { destruct W as [W1 W2 W3 W4 W5 W6 W7 W8 W9 W10 W11].
    constructor; rewrite ?Hm, ?Hc, ?Hs, ?Ho, ?Hsel, ?Hco; try assumption.
    - intros h Hh. rewrite Hk. auto.
    - intros h Hh. rewrite Hk. auto.
    - intros h Hh Hkd. rewrite Hk in Hkd. auto.
    - intros h Hh Hkd. rewrite Hk in Hkd. auto.
    - intros h Hh. rewrite Hk. auto.
    - rewrite Hr. intros r' Hr'. rewrite Hk.
      apply in_app_or in Hr' as [Hr'|[<-|[]]].
      + destruct (W10 r' Hr') as (A & B & C).
        split; [exact A|]. split; intros h Hh; rewrite Hk; auto.
      + split; [exact Kp|]. split; intros h Hh; rewrite Hk; auto. }
  split; [exists []; now rewrite Ho, app_nil_r|].
  split; [intros h Hh; left; now rewrite <- Hs|].
  split; [left; exact Hsel|].
  intros He Es. unfold circlesInSync, visibleCircles in *.
  rewrite Hs, Hc, <- Es. apply filter_ext. intros h. apply Hk.
Qed.

End Invariants.
(* ------------------------------------------------------------------ *)
Section Operations.

Lemma snd_bind (A B : Type) (m : M A) (k : A -> M B) (s : OpenStreetMap) :
  snd (bind m k s) = snd (k (fst (m s)) (snd (m s))).
Proof. unfold bind. now destruct (m s). Qed.

Lemma fst_bind (A B : Type) (m : M A) (k : A -> M B) (s : OpenStreetMap) :
  fst (bind m k s) = fst (k (fst (m s)) (snd (m s))).
Proof. unfold bind. now destruct (m s). Qed.

Lemma soundM_bind (A B : Type) (e : bool) (m : M A) (k : A -> M B) :
  soundM e m -> (forall a, soundM e (k a)) -> soundM e (bind m k).
Proof.
  intros Hm Hk s. rewrite snd_bind.
  eapply sound_trans; [apply Hm | apply Hk].
Qed.

Lemma soundM_ret (A : Type) (e : bool) (a : A) : soundM e (ret a).
Proof. intros s. apply sound_refl. Qed.

Lemma soundM_gets (A : Type) (e : bool) (f : OpenStreetMap -> A) : soundM e (gets f).
Proof. intros s. apply sound_refl. Qed.

Lemma soundM_emit (e : bool) (ev : Effect) : soundM e (emit ev).
Proof. intros s. now apply sound_frame. Qed.

Lemma soundM_when (e : bool) (b : bool) (m : M unit) :
  soundM e m -> soundM e (when b m).
Proof. intros H. destruct b; [exact H | apply soundM_ret]. Qed.

Lemma soundM_onMap_frame (e : bool) (f : LeafletMap -> LeafletMap) :
  (forall m, layers (f m) = layers m) -> soundM e (onMap f).
Proof.
  intros Hf s. apply sound_frame. unfold core, onMap, modify, surface. simpl.
  destruct (map s); simpl; now rewrite ?Hf.
Qed.

Lemma soundM_set_selector (e : bool) (b : bool) (cb : option Callback) :
  soundM e (modify (set_selector b cb)).
Proof. intros s. now apply sound_frame. Qed.

Lemma soundM_requireMap (e : bool) : soundM e requireMap.
Proof.
  unfold requireMap. apply soundM_bind; [apply soundM_gets|].
  intros [m|]; [apply soundM_ret|].
  apply soundM_bind; [apply soundM_emit | intros; apply soundM_ret].
Qed.

Lemma soundM_requireSelector (e : bool) : soundM e requireSelector.
Proof.
  unfold requireSelector. apply soundM_bind; [apply soundM_requireMap|].
  intros [|]; simpl; [|apply soundM_ret].
  apply soundM_bind; [apply soundM_gets|].
  intros [|]; simpl; [apply soundM_ret|].
  apply soundM_bind; [apply soundM_emit | intros; apply soundM_ret].
Qed.

Lemma newLayerOnMap_eq (l : Layer) (s : OpenStreetMap) :
  newLayerOnMap l s = (List.length (objects s), placed l s).
Proof. reflexivity. Qed.

Lemma surface_placed (l : Layer) (s : OpenStreetMap) (m : LeafletMap) :
  map s = Some m ->
  surface (placed l s)
  = (if handle_in (List.length (objects s)) (surface s) then surface s
     else surface s ++ [List.length (objects s)]).
Proof. intros H. unfold surface, placed. simpl. now rewrite H. Qed.

(** What [addMarker] does on an initialised session. *)
Lemma addMarker_eq (lat lng : JsVal) (icon : option string)
  (popupContent : option Text) (s : OpenStreetMap) (m : LeafletMap) :
  map s = Some m ->
  addMarker lat lng icon popupContent s
  = (Some (List.length (objects s)),
     set_markers (markers s ++ [List.length (objects s)])
       (placed (markerFor (config s) lat lng icon popupContent) s)).
Proof.
  intros H. unfold addMarker, bind. rewrite (requireMap_some s m H). reflexivity.
Qed.

Lemma addMarker_none (lat lng : JsVal) (icon : option string)
  (popupContent : option Text) (s : OpenStreetMap) :
  map s = None ->
  addMarker lat lng icon popupContent s = (None, snd (requireMap s)).
Proof.
  intros H. unfold addMarker, bind. now rewrite (requireMap_none s H).
Qed.

Lemma soundM_addMarker (e : bool) (lat lng : JsVal) (icon : option string)
  (popupContent : option Text) :
  soundM e (addMarker lat lng icon popupContent).
Proof.
  intros s. destruct (map s) as [m|] eqn:Hm.
  - rewrite (addMarker_eq _ _ _ _ s m Hm). simpl snd.
    apply sound_alloc with (l := markerFor (config s) lat lng icon popupContent);
      try reflexivity.
    + exact (surface_placed (markerFor (config s) lat lng icon popupContent) s m Hm).
    + now rewrite app_nil_r.
    + now left.
  - rewrite (addMarker_none _ _ _ _ s Hm). apply soundM_requireMap.
Qed.

Lemma addCircle_eq (lat lng : JsVal) (radius : option JsVal)
  (options : CircleOptions) (s : OpenStreetMap) (m : LeafletMap) :
  map s = Some m ->
  addCircle lat lng radius options s
  = (Some (List.length (objects s)),
     set_circles (circles s ++ [List.length (objects s)])
       (placed (circleFor lat lng radius options) s)).
Proof.
  intros H. unfold addCircle, bind. rewrite (requireMap_some s m H). reflexivity.
Qed.

Lemma addCircle_none (lat lng : JsVal) (radius : option JsVal)
  (options : CircleOptions) (s : OpenStreetMap) :
  map s = None ->
  addCircle lat lng radius options s = (None, snd (requireMap s)).
Proof.
  intros H. unfold addCircle, bind. now rewrite (requireMap_none s H).
Qed.

Lemma soundM_addCircle (e : bool) (lat lng : JsVal) (radius : option JsVal)
  (options : CircleOptions) :
  soundM e (addCircle lat lng radius options).
Proof.
  intros s. destruct (map s) as [m|] eqn:Hm.
  - rewrite (addCircle_eq _ _ _ _ s m Hm). simpl snd.
    apply sound_alloc with (l := circleFor lat lng radius options);
      try reflexivity.
    + exact (surface_placed (circleFor lat lng radius options) s m Hm).
    + now rewrite app_nil_r.
    + now left.
  - rewrite (addCircle_none _ _ _ _ s Hm). apply soundM_requireMap.
Qed.

Lemma soundM_mapAddMarker (e : bool) (specs : list (option MarkerSpec)) :
  soundM e (mapAddMarker specs).
Proof.
  induction specs as [|[sp|] rest IH]; simpl; try apply soundM_ret.
  apply soundM_bind; [apply soundM_addMarker|]. intros h.
  apply soundM_bind; [exact IH | intros; apply soundM_ret].
Qed.

Lemma soundM_mapAddCircle (e : bool) (specs : list (option CircleSpec)) :
  soundM e (mapAddCircle specs).
Proof.
  induction specs as [|[sp|] rest IH]; simpl; try apply soundM_ret.
  apply soundM_bind; [apply soundM_addCircle|]. intros h.
  apply soundM_bind; [exact IH | intros; apply soundM_ret].
Qed.

Lemma soundM_pushView (e : bool) (c : ViewCmd) : soundM e (onMap (pushView c)).
Proof. now apply soundM_onMap_frame. Qed.

Lemma soundM_addMarkers (e : bool) (specs : list (option MarkerSpec))
  (options : BulkOptions) :
  soundM e (addMarkers specs options).
Proof.
  unfold addMarkers. apply soundM_bind; [apply soundM_requireMap|].
  intros [|]; simpl; [|apply soundM_ret].
  apply soundM_bind; [apply soundM_mapAddMarker|].
  intros [hs|err]; [|apply soundM_ret].
  apply soundM_bind; [apply soundM_when, soundM_pushView | intros; apply soundM_ret].
Qed.

Lemma soundM_addCircles (e : bool) (specs : list (option CircleSpec))
  (options : BulkOptions) :
  soundM e (addCircles specs options).
Proof.
  unfold addCircles. apply soundM_bind; [apply soundM_requireMap|].
  intros [|]; simpl; [|apply soundM_ret].
  apply soundM_bind; [apply soundM_mapAddCircle|].
  intros [hs|err]; [|apply soundM_ret].
  apply soundM_bind; [apply soundM_when, soundM_pushView | intros; apply soundM_ret].
Qed.

Lemma soundM_setView (e : bool) (lat lng zoom : JsVal) : soundM e (setView lat lng zoom).
Proof.
  unfold setView. apply soundM_bind; [apply soundM_requireMap|].
  intros [|]; simpl; [apply soundM_pushView | apply soundM_ret].
Qed.

Lemma soundM_setupSearch (e : bool) (o : SearchOptions) : soundM e (setupSearch o).
Proof.
  unfold setupSearch. apply soundM_bind; [apply soundM_requireMap|].
  intros [|]; simpl; [now apply soundM_onMap_frame | apply soundM_ret].
Qed.

Lemma soundM_onMarkGeocode (e : bool) (a b c d : JsVal) :
  soundM e (onMarkGeocode a b c d).
Proof. apply soundM_pushView. Qed.

Lemma soundM_getSelectedCoordinates (e : bool) (now : string) :
  soundM e (getSelectedCoordinates now).
Proof.
  unfold getSelectedCoordinates. apply soundM_bind; [apply soundM_gets|].
  intros [[lat lng]|]; apply soundM_ret.
Qed.

Lemma soundM_confirmSelection (e : bool) (now : string) :
  soundM e (confirmSelection now).
Proof.
  unfold confirmSelection. apply soundM_bind; [apply soundM_getSelectedCoordinates|].
  intros [c|].
  - apply soundM_bind; [apply soundM_gets|]. intros cb.
    apply soundM_bind; [|intros; apply soundM_ret].
    destruct cb; [apply soundM_emit | apply soundM_ret].
  - apply soundM_bind; [apply soundM_emit | intros; apply soundM_ret].
Qed.

Lemma soundM_repeatM (e : bool) (n : nat) (m : M unit) :
  soundM e m -> soundM e (repeatM n m).
Proof.
  intros H. induction n as [|n IH]; simpl; [apply soundM_ret|].
  apply soundM_bind; [exact H | intros; exact IH].
Qed.

(** Removing layers is filtering the list of attached layers. *)
Lemma filter_and (A : Type) (f g : A -> bool) (l : list A) :
  filter g (filter f l) = filter (fun x => f x && g x) l.
Proof.
  induction l as [|x xs IH]; [reflexivity|]. simpl.
  destruct (f x); simpl; [destruct (g x)|]; now rewrite IH.
Qed.

Lemma handle_in_app (x : Handle) (l1 l2 : list Handle) :
  handle_in x (l1 ++ l2) = handle_in x l1 || handle_in x l2.
Proof. unfold handle_in. apply existsb_app. Qed.

Lemma layers_removeLayer (h : Handle) (m : LeafletMap) :
  layers (removeLayer h m) = filter (fun x => negb (handle_in x [h])) (layers m).
Proof.
  simpl. apply filter_ext. intros x. unfold handle_in. simpl.
  now rewrite orb_false_r, Nat.eqb_sym.
Qed.

Lemma filter_not_in_app (l1 l2 l : list Handle) :
  filter (fun x => negb (handle_in x l2)) (filter (fun x => negb (handle_in x l1)) l)
  = filter (fun x => negb (handle_in x (l1 ++ l2))) l.
Proof.
  rewrite filter_and. apply filter_ext. intros x.
  now rewrite handle_in_app, negb_orb.
Qed.

Lemma layers_fold_remove (hs : list Handle) (m : LeafletMap) :
  layers (fold_left (fun m h => removeLayer h m) hs m)
  = filter (fun x => negb (handle_in x hs)) (layers m).
Proof.
  revert m. induction hs as [|h hs IH]; intros m; simpl fold_left.
  - simpl. induction (layers m) as [|x xs IHx]; [reflexivity|]. simpl. now f_equal.
  - rewrite IH, layers_removeLayer, filter_not_in_app. reflexivity.
Qed.

Lemma layers_removeOpt (h : option Handle) (m : LeafletMap) :
  layers (removeOpt h m) = filter (fun x => negb (handle_in x (somes [h]))) (layers m).
Proof.
  destruct h as [h|]; simpl removeOpt.
  - apply layers_removeLayer.
  - simpl. induction (layers m) as [|x xs IHx]; [reflexivity|]. simpl. now f_equal.
Qed.

Lemma layers_removeRoute (r : RouteLayer) (m : LeafletMap) :
  layers (removeRoute r m)
  = filter (fun x => negb (handle_in x (routeHandles r))) (layers m).
Proof.
  unfold removeRoute, routeHandles.
  rewrite !layers_removeOpt, layers_removeLayer, !filter_not_in_app.
  apply filter_ext. intros x. f_equal. f_equal.
  destruct (rl_originMarker r), (rl_destinationMarker r); reflexivity.
Qed.

Lemma layers_fold_removeRoute (rs : list RouteLayer) (m : LeafletMap) :
  layers (fold_left (fun m r => removeRoute r m) rs m)
  = filter (fun x => negb (handle_in x (flat_map routeHandles rs))) (layers m).
Proof.
  revert m. induction rs as [|r rs IH]; intros m; simpl fold_left.
  - simpl. induction (layers m) as [|x xs IHx]; [reflexivity|]. simpl. now f_equal.
  - rewrite IH, layers_removeRoute, filter_not_in_app. reflexivity.
Qed.

(** What [clearSelector] does. *)
Lemma clearSelector_eq (s : OpenStreetMap) (m : LeafletMap) (h : Handle) :
  map s = Some m -> selectorMarker s = Some h ->
  clearSelector s
  = (tt, set_selectedCoords None
           (set_selectorMarker None (set_map (Some (removeLayer h m)) s))).
Proof.
  intros Hm Hs. unfold clearSelector, bind, gets. rewrite Hm, Hs.
  unfold onMap, modify. simpl. now rewrite Hm.
Qed.

Lemma clearSelector_noop (s : OpenStreetMap) :
  map s = None \/ selectorMarker s = None -> clearSelector s = (tt, s).
Proof.
  intros H. unfold clearSelector, bind, gets.
  destruct (map s), (selectorMarker s); try reflexivity.
  destruct H; discriminate.
Qed.

Lemma kind_circle_not_marker (s : OpenStreetMap) (h : Handle) :
  kindAt is_circle s h = true -> kindAt is_marker s h = true -> False.
Proof.
  intros Hc Hm. apply kind_marker_not_circle in Hm. congruence.
Qed.

Lemma handle_in_single (x h : Handle) :
  negb (handle_in x [h]) = false -> x = h.
Proof.
  unfold handle_in. simpl. rewrite orb_false_r. intros H.
  apply negb_false_iff, Nat.eqb_eq in H. exact H.
Qed.

Lemma soundM_clearSelector (e : bool) : soundM e clearSelector.
Proof.
  intros s. destruct (map s) as [m|] eqn:Hm; [destruct (selectorMarker s) as [h|] eqn:Hs|].
  - rewrite (clearSelector_eq s m h Hm Hs). simpl snd. intros W.
    apply (fun H1 H2 H3 H4 H5 H6 =>
             sound_shrink e s _ (fun x => negb (handle_in x [h]))
               H1 H2 H3 H4 H5 H6 W);
      try reflexivity.
    + unfold surface. simpl. rewrite Hm. apply layers_removeLayer.
    + now left.
    + left. split; [reflexivity|]. intros h' Hh'.
      destruct (negb (handle_in h' [h])) eqn:E; [reflexivity|].
      apply handle_in_single in E. subst h'.
      exfalso. apply (kind_circle_not_marker s h).
      * now apply (wf_ci_kind s W).
      * now apply (wf_sel_kind s W).
    + now left.
    + right. split; [reflexivity|]. split; [reflexivity|].
      intros h' Hh'. rewrite Hs in Hh'. injection Hh' as <-.
      unfold handle_in. simpl. now rewrite Nat.eqb_refl.
  - rewrite clearSelector_noop by now right. apply sound_refl.
  - rewrite clearSelector_noop by now left. apply sound_refl.
Qed.

Lemma clearSelector_after (s : OpenStreetMap) (m : LeafletMap) :
  map s = Some m ->
  exists m', map (snd (clearSelector s)) = Some m'
    /\ selectorMarker (snd (clearSelector s)) = None
    /\ config (snd (clearSelector s)) = config s
    /\ (forall h, selectorMarker s = Some h ->
         ~ In h (surface (snd (clearSelector s)))).
Proof.
  intros Hm. destruct (selectorMarker s) as [h|] eqn:Hs.
  - rewrite (clearSelector_eq s m h Hm Hs). simpl. eexists. split; [reflexivity|].
    repeat split. intros h' Hh'. injection Hh' as <-.
    unfold surface. simpl. intros Hin. apply filter_In in Hin as [_ Hin].
    now rewrite Nat.eqb_refl in Hin.
  - rewrite clearSelector_noop by now right. simpl. exists m.
    repeat split; try assumption. intros h Hh. discriminate.
Qed.

Lemma requireSelector_ok (s : OpenStreetMap) (m : LeafletMap) :
  map s = Some m -> isSelectorEnabled s = true -> requireSelector s = (true, s).
Proof.
  intros Hm He. unfold requireSelector, bind. rewrite (requireMap_some s m Hm).
  simpl. unfold gets. now rewrite He.
Qed.

Lemma requireSelector_fails (s : OpenStreetMap) :
  map s = None \/ isSelectorEnabled s = false ->
  exists t, requireSelector s = (false, set_trace t s).
Proof.
  intros H. unfold requireSelector, bind.
  destruct (map s) as [m|] eqn:Hm.
  - rewrite (requireMap_some s m Hm). simpl. unfold gets.
    destruct H as [H|H]; [discriminate|]. rewrite H. simpl. eexists. reflexivity.
  - rewrite (requireMap_none s Hm). simpl. eexists. reflexivity.
Qed.

(** What [placeSelector] does on a session whose selector is enabled. *)
Lemma placeSelector_eq (lat lng : JsVal) (icon : option string)
  (s : OpenStreetMap) (m : LeafletMap) :
  map s = Some m -> isSelectorEnabled s = true ->
  let sA := snd (clearSelector s) in
  let n := List.length (objects sA) in
  placeSelector lat lng icon s
  = (tt,
     set_selectorMarker (Some n)
       (set_markers (markers sA ++ [n])
          (placed (markerFor (config sA) lat lng
                     (Some (default (cfg_selectorIcon (config s)) icon))
                     (Some (buildSelectorPopup lat lng)))
                  (set_selectedCoords (Some (lat, lng)) sA)))).
Proof.
  intros Hm He sA n.
  destruct (clearSelector_after s m Hm) as (m' & Hm' & _).
  unfold placeSelector, bind. rewrite (requireSelector_ok s m Hm He). simpl.
  subst sA n. destruct (clearSelector s) as [[] s1] eqn:E1.
  simpl in Hm'. simpl snd.
  rewrite (addMarker_eq _ _ _ _ (set_selectedCoords (Some (lat, lng)) s1) m')
    by exact Hm'.
  reflexivity.
Qed.

Lemma soundM_placeSelector (e : bool) (lat lng : JsVal) (icon : option string) :
  soundM e (placeSelector lat lng icon).
Proof.
  intros s.
  destruct (map s) as [m|] eqn:Hm; [destruct (isSelectorEnabled s) eqn:He|].
  - rewrite (placeSelector_eq lat lng icon s m Hm He). simpl snd.
    destruct (clearSelector_after s m Hm) as (m' & Hm' & Hsel & _).
    eapply sound_trans; [apply soundM_clearSelector|].
    set (sA := snd (clearSelector s)) in *.
    apply sound_alloc with
      (l := markerFor (config sA) lat lng
              (Some (default (cfg_selectorIcon (config s)) icon))
              (Some (buildSelectorPopup lat lng)));
      try reflexivity.
    + exact (surface_placed _ (set_selectedCoords (Some (lat, lng)) sA) m' Hm').
    + now rewrite app_nil_r.
    + right. split; [exact Hsel|]. split; [reflexivity|]. split; [reflexivity|].
      discriminate.
  - unfold placeSelector. rewrite snd_bind.
    destruct (requireSelector_fails s (or_intror He)) as [t Ht]. rewrite Ht.
    simpl. now apply sound_frame.
  - unfold placeSelector. rewrite snd_bind.
    destruct (requireSelector_fails s (or_introl Hm)) as [t Ht]. rewrite Ht.
    simpl. now apply sound_frame.
Qed.

Lemma soundM_setupSelector (e : bool) (f : OnSelect) : soundM e (setupSelector f).
Proof.
  unfold setupSelector. apply soundM_bind; [apply soundM_requireMap|].
  intros [|]; simpl; [|apply soundM_ret].
  apply soundM_bind; [apply soundM_set_selector|]. intros _.
  apply soundM_bind; [now apply soundM_onMap_frame|]. intros _.
  apply soundM_bind; [apply soundM_gets|]. intros cfg.
  apply soundM_placeSelector.
Qed.

Lemma soundM_handleMapClick (e : bool) (ev : ClickEvent) :
  soundM e (handleMapClick ev).
Proof.
  unfold handleMapClick. apply soundM_bind; [apply soundM_gets|].
  intros [|]; simpl; [|apply soundM_ret].
  destruct (click_lat ev), (click_lng ev); try apply soundM_ret.
  apply soundM_placeSelector.
Qed.

End Operations.
(* ------------------------------------------------------------------ *)
Section Clearing.

Lemma clearMarkers_eq (s : OpenStreetMap) (m : LeafletMap) :
  map s = Some m ->
  clearMarkers s
  = (tt, set_markers []
           (set_map (Some (fold_left (fun m h => removeLayer h m) (markers s) m)) s)).
Proof.
  intros Hm. unfold clearMarkers, bind, gets. rewrite Hm.
  unfold onMap, modify. simpl. now rewrite Hm.
Qed.

Lemma clearCircles_eq (s : OpenStreetMap) (m : LeafletMap) :
  map s = Some m ->
  clearCircles s
  = (tt, set_circles []
           (set_map (Some (fold_left (fun m h => removeLayer h m) (circles s) m)) s)).
Proof.
  intros Hm. unfold clearCircles, bind, gets. rewrite Hm.
  unfold onMap, modify. simpl. now rewrite Hm.
Qed.

Lemma clearRoutes_eq (s : OpenStreetMap) (m : LeafletMap) :
  map s = Some m ->
  clearRoutes s
  = (tt, set_routeLayers []
           (set_map (Some (fold_left (fun m r => removeRoute r m) (routeLayers s) m)) s)).
Proof.
  intros Hm. unfold clearRoutes, bind, gets. rewrite Hm.
  unfold onMap, modify. simpl. now rewrite Hm.
Qed.

Lemma clear_none (s : OpenStreetMap) :
  map s = None ->
  clearMarkers s = (tt, s) /\ clearCircles s = (tt, s) /\ clearRoutes s = (tt, s).
Proof.
  intros Hm. unfold clearMarkers, clearCircles, clearRoutes, bind, gets.
  now rewrite Hm.
Qed.

Lemma not_handle_in_false (x : Handle) (l : list Handle) :
  In x l -> negb (handle_in x l) = false.
Proof. intros H. apply handle_in_In in H. now rewrite H. Qed.

Lemma not_handle_in_true (x : Handle) (l : list Handle) :
  ~ In x l -> negb (handle_in x l) = true.
Proof. intros H. apply handle_in_not_In in H. now rewrite H. Qed.

Lemma soundM_clearMarkers (e : bool) : soundM e clearMarkers.
Proof.
  intros s. destruct (map s) as [m|] eqn:Hm.
  - rewrite (clearMarkers_eq s m Hm). simpl snd. intros W.
    apply (fun H1 H2 H3 H4 H5 H6 =>
             sound_shrink e s _ (fun x => negb (handle_in x (markers s)))
               H1 H2 H3 H4 H5 H6 W);
      try reflexivity.
    + unfold surface. simpl. rewrite Hm. apply layers_fold_remove.
    + right. split; [reflexivity|]. intros h Hh. now apply not_handle_in_false.
    + left. split; [reflexivity|]. intros h Hh. apply not_handle_in_true.
      intros Hin. apply (kind_circle_not_marker s h).
      * now apply (wf_ci_kind s W).
      * now apply (wf_mk_kind s W).
    + now left.
    + now left.
  - destruct (clear_none s Hm) as (-> & _). apply sound_refl.
Qed.

Lemma soundM_clearCircles (e : bool) : soundM e clearCircles.
Proof.
  intros s. destruct (map s) as [m|] eqn:Hm.
  - rewrite (clearCircles_eq s m Hm). simpl snd. intros W.
    apply (fun H1 H2 H3 H4 H5 H6 =>
             sound_shrink e s _ (fun x => negb (handle_in x (circles s)))
               H1 H2 H3 H4 H5 H6 W);
      try reflexivity.
    + unfold surface. simpl. rewrite Hm. apply layers_fold_remove.
    + now left.
    + right. split; [reflexivity|]. intros h Hh. now apply not_handle_in_false.
    + now left.
    + now left.
  - destruct (clear_none s Hm) as (_ & -> & _). apply sound_refl.
Qed.

Lemma route_handle_kind (s : OpenStreetMap) (h : Handle) :
  wf s -> In h (allRouteHandles s) ->
  kindAt is_polyline s h = true \/ kindAt is_marker s h = true.
Proof.
  intros W Hin. unfold allRouteHandles in Hin.
  apply in_flat_map in Hin as (r & Hr & Hh).
  destruct (wf_rt_kind s W r Hr) as (A & B & C).
  unfold routeHandles in Hh. destruct Hh as [<-|Hh]; [now left|]. right.
  destruct (rl_originMarker r) as [ho|], (rl_destinationMarker r) as [hd|];
    simpl in Hh; intuition (subst; auto).
Qed.

Lemma soundM_clearRoutes (e : bool) : soundM e clearRoutes.
Proof.
  intros s. destruct (map s) as [m|] eqn:Hm.
  - rewrite (clearRoutes_eq s m Hm). simpl snd. intros W.
    apply (fun H1 H2 H3 H4 H5 H6 =>
             sound_shrink e s _ (fun x => negb (handle_in x (allRouteHandles s)))
               H1 H2 H3 H4 H5 H6 W);
      try reflexivity.
    + unfold surface. simpl. rewrite Hm. apply layers_fold_removeRoute.
    + now left.
    + left. split; [reflexivity|]. intros h Hh. apply not_handle_in_true.
      intros Hin. pose proof (wf_ci_kind s W h Hh) as Hc.
      destruct (route_handle_kind s h W Hin) as [K|K].
      * apply kind_polyline_not_circle in K. congruence.
      * now apply (kind_circle_not_marker s h).
    + now right.
    + now left.
  - destruct (clear_none s Hm) as (_ & _ & ->). apply sound_refl.
Qed.

End Clearing.
(* ------------------------------------------------------------------ *)
Section RoutePlanner.

#[local] Arguments haversineDistance : simpl never.
#[local] Arguments truthy : simpl never.
#[local] Arguments parseFloat : simpl never.
#[local] Arguments ToNumber : simpl never.
#[local] Arguments osrmUrl : simpl never.
#[local] Arguments toFixedDiv : simpl never.
#[local] Arguments String.eqb : simpl never.

Variable fetch : Text -> FetchOutcome.

Lemma buildStraightRoute_spec (o d : Endpoint) (ls : LineStyle) (s : OpenStreetMap) :
  exists data l,
    is_polyline l = true
    /\ route_type data = straight /\ duration data = VNull /\ durationMin data = VNull
    /\ distance data
       = VNum (haversineDistance (ToNumber (ep_lat o)) (ToNumber (ep_lng o))
                 (ToNumber (ep_lat d)) (ToNumber (ep_lng d)))
    /\ buildStraightRoute o d ls s = ((List.length (objects s), data), placed l s).
Proof.
  unfold buildStraightRoute, bind. rewrite newLayerOnMap_eq.
  eexists. eexists. repeat apply conj.
  6: reflexivity.
  all: reflexivity.
Qed.

Lemma fetchRoadRoute_spec (o d : Endpoint) (ls : LineStyle) (s : OpenStreetMap) :
  (routingFails (fetch (osrmUrl o d)) = true
   /\ exists t, fetchRoadRoute fetch o d ls s = (None, set_trace t s))
  \/ (routingFails (fetch (osrmUrl o d)) = false
      /\ exists data l t,
           is_polyline l = true /\ route_type data = road
           /\ fetchRoadRoute fetch o d ls s
              = (Some (List.length (objects s), data), set_trace t (placed l s))).
Proof.
  unfold fetchRoadRoute, bind, emit, modify.
  destruct (fetch (osrmUrl o d)) as [| | |[[|route rest]|]]; simpl;
    try (left; split; [reflexivity|]; eexists; reflexivity).
  destruct (osrm_geometry route) as [g|]; simpl.
  - right. split; [reflexivity|].
    eexists. exists (Polyline (List.map (fun '(lng, lat) => (lat, lng)) g) ls).
    eexists. repeat apply conj.
    3: reflexivity.
    all: reflexivity.
  - left. split; [reflexivity|]. eexists; reflexivity.
Qed.

(** The path of a route, by road or straight, with the fall-back. *)
Lemma routeStep_spec (b : bool) (o d : Endpoint) (ls : LineStyle) (s : OpenStreetMap) :
  exists data l t,
    is_polyline l = true
    /\ (b = true -> routingFails (fetch (osrmUrl o d)) = true ->
        route_type data = straight /\ duration data = VNull
        /\ durationMin data = VNull
        /\ distance data
           = VNum (haversineDistance (ToNumber (ep_lat o)) (ToNumber (ep_lng o))
                     (ToNumber (ep_lat d)) (ToNumber (ep_lng d))))
    /\ (if b then
          r <- fetchRoadRoute fetch o d ls ;;
          match r with
          | Some result => ret result
          | None =>
              emit (ConsoleWarn
                "OpenStreetMap: OSRM falló, usando línea recta como fallback.") ;;;
              buildStraightRoute o d ls
          end
        else buildStraightRoute o d ls) s
       = ((List.length (objects s), data), set_trace t (placed l s)).
Proof.
  destruct b.
  - unfold bind at 1.
    destruct (fetchRoadRoute_spec o d ls s)
      as [[Hf [t Ht]]|[Hf (data & l & t & Hl & Hr & Ht)]]; rewrite Ht.
    + unfold bind, emit, modify. simpl.
      match goal with |- context [buildStraightRoute o d ls ?s1] =>
        destruct (buildStraightRoute_spec o d ls s1)
          as (data & l & Hl & H1 & H2 & H3 & H4 & Hb); rewrite Hb end.
      exists data, l. eexists. split; [exact Hl|]. split; [auto|]. reflexivity.
    + exists data, l, t. split; [exact Hl|]. split; [|reflexivity].
      intros _ Hf'. congruence.
  - destruct (buildStraightRoute_spec o d ls s)
      as (data & l & Hl & H1 & H2 & H3 & H4 & Hb); rewrite Hb.
    exists data, l, (trace s). split; [exact Hl|]. split; [discriminate|]. reflexivity.
Qed.

Lemma drawRoute_invalid (o d : option Endpoint) (opts : RouteOptions)
  (s : OpenStreetMap) :
  map s = None
  \/ match o, d with
     | Some o, Some d => validEndpoints o d = false
     | _, _ => True
     end ->
  exists t, drawRoute fetch o d opts s = (None, set_trace t s).
Proof.
  intros H. unfold drawRoute, bind.
  destruct (map s) as [m|] eqn:Hm.
  - rewrite (requireMap_some s m Hm). simpl.
    destruct H as [H|H]; [discriminate|].
    destruct o as [o|], d as [d|]; try (unfold emit, modify; simpl; eexists; reflexivity).
    unfold validEndpoints in H.
    replace (negb (truthy (ep_lat o)) || negb (truthy (ep_lng o))
             || negb (truthy (ep_lat d)) || negb (truthy (ep_lng d))) with true.
    + unfold emit, modify; simpl; eexists; reflexivity.
    + destruct (truthy (ep_lat o)), (truthy (ep_lng o)), (truthy (ep_lat d)),
        (truthy (ep_lng d)); simpl in *; congruence.
  - rewrite (requireMap_none s Hm). simpl. eexists. reflexivity.
Qed.

Lemma validEndpoints_guard (o d : Endpoint) :
  validEndpoints o d = true ->
  negb (truthy (ep_lat o)) || negb (truthy (ep_lng o))
  || negb (truthy (ep_lat d)) || negb (truthy (ep_lng d)) = false.
Proof.
  unfold validEndpoints. intros H.
  apply andb_prop in H as [H H4]. apply andb_prop in H as [H H3].
  apply andb_prop in H as [H1 H2]. now rewrite H1, H2, H3, H4.
Qed.

(** What [drawRoute] does on an initialised session with endpoints that pass
    its test: two markers, then the path, then the route entry. *)
Lemma drawRoute_eq (o d : Endpoint) (opts : RouteOptions)
  (s : OpenStreetMap) (m : LeafletMap) :
  map s = Some m -> validEndpoints o d = true ->
  let s1 := snd (addMarker (ep_lat o) (ep_lng o)
                   (Some (default "🏠" (ep_icon o))) (ep_popup o) s) in
  let s2 := snd (addMarker (ep_lat d) (ep_lng d)
                   (Some (default "📦" (ep_icon d))) (ep_popup d) s1) in
  let ho := List.length (objects s) in
  let hd := List.length (objects s1) in
  let hp := List.length (objects s2) in
  exists data l t,
    is_polyline l = true
    /\ (ro_useRoadRoute opts = Some true ->
        routingFails (fetch (osrmUrl o d)) = true ->
        route_type data = straight /\ duration data = VNull
        /\ durationMin data = VNull
        /\ distance data
           = VNum (haversineDistance (ToNumber (ep_lat o)) (ToNumber (ep_lng o))
                     (ToNumber (ep_lat d)) (ToNumber (ep_lng d))))
    /\ drawRoute fetch (Some o) (Some d) opts s
       = (Some {| rr_data := data; rr_originMarker := Some ho;
                  rr_destinationMarker := Some hd; rr_polyline := hp |},
          recordRoute (default true (ro_fitBounds opts))
            {| rl_polyline := hp; rl_originMarker := Some ho;
               rl_destinationMarker := Some hd |}
            (set_trace t (placed l s2))).
Proof.
  intros Hm Hv s1 s2 ho hd hp.
  assert (Hm1 : map s1 = Some (addLayer ho m)).
  { unfold s1. rewrite (addMarker_eq _ _ _ _ s m Hm). simpl. now rewrite Hm. }
  assert (E1 : addMarker (ep_lat o) (ep_lng o) (Some (default "🏠" (ep_icon o)))
                 (ep_popup o) s = (Some ho, s1)).
  { unfold s1. now rewrite (addMarker_eq _ _ _ _ s m Hm). }
  assert (E2 : addMarker (ep_lat d) (ep_lng d) (Some (default "📦" (ep_icon d)))
                 (ep_popup d) s1 = (Some hd, s2)).
  { unfold s2. now rewrite (addMarker_eq _ _ _ _ s1 _ Hm1). }
  unfold drawRoute. unfold bind at 1. rewrite (requireMap_some s m Hm).
  cbn [negb]. cbv beta iota. rewrite (validEndpoints_guard o d Hv). cbv iota.
  unfold bind at 1. rewrite E1. unfold bind at 1. rewrite E2.
  unfold bind at 1.
  match goal with |- context [(if ?b then _ else _) s2] =>
    destruct (routeStep_spec b o d
                {| ls_color := default "#2C6B94" (ro_color opts);
                   ls_weight := default (Fin 5) (ro_weight opts);
                   ls_opacity := default (Fin 0.7) (ro_opacity opts);
                   ls_dashArray :=
                     match ro_dashArray opts with
                     | Some da => if str_truthy da then Some da else None
                     | None => None
                     end |} s2)
      as (data & l & t & Hl & Hfb & Hstep)
  end.
  rewrite Hstep.
  exists data, l, t. split; [exact Hl|]. split.
  - intros Hroad. apply Hfb. now rewrite Hroad.
  - unfold recordRoute, bind, modify, when, onMap, modify, ret. simpl.
    fold hp. destruct (default true (ro_fitBounds opts)); reflexivity.
Qed.

End RoutePlanner.
(* ------------------------------------------------------------------ *)
Section Runs.

Lemma polyline_kinds (l : Layer) :
  is_polyline l = true -> is_marker l = false /\ is_circle l = false.
Proof. destruct l; simpl; intros H; try discriminate; now split. Qed.

Lemma core_recordRoute (fit : bool) (r : RouteLayer) (s : OpenStreetMap) :
  core (recordRoute fit r s)
  = (objects s, surface s, markers s, circles s, selectorMarker s,
     selectedCoords s, routeLayers s ++ [r]).
Proof.
  unfold recordRoute, core, surface. destruct fit; simpl; [|reflexivity].
  now destruct (map s).
Qed.

Lemma soundM_drawRoute (e : bool) (fetch : Text -> FetchOutcome)
  (o d : option Endpoint) (opts : RouteOptions) :
  soundM e (drawRoute fetch o d opts).
Proof.
  intros s.
  assert (Hinv : (exists t, drawRoute fetch o d opts s = (None, set_trace t s)) ->
                 sound e s (snd (drawRoute fetch o d opts s))).
  { intros [t ->]. now apply sound_frame. }
  destruct (map s) as [m|] eqn:Hm;
    [|apply Hinv, drawRoute_invalid; now left].
  destruct o as [o|]; [|apply Hinv, drawRoute_invalid; now right].
  destruct d as [d|]; [|apply Hinv, drawRoute_invalid; now right].
  destruct (validEndpoints o d) eqn:Hv;
    [|apply Hinv, drawRoute_invalid; now right].
  clear Hinv.
  destruct (drawRoute_eq fetch o d opts s m Hm Hv) as (data & l & t & Hl & _ & ->).
  simpl snd.
  set (a1 := addMarker (ep_lat o) (ep_lng o) (Some (default "🏠" (ep_icon o)))
               (ep_popup o)).
  set (a2 := addMarker (ep_lat d) (ep_lng d) (Some (default "📦" (ep_icon d)))
               (ep_popup d)).
  set (s1 := snd (a1 s)). set (s2 := snd (a2 s1)).
  assert (E1 : a1 s = (Some (List.length (objects s)), s1)
               /\ objects s1
                  = objects s
                    ++ [markerFor (config s) (ep_lat o) (ep_lng o)
                          (Some (default "🏠" (ep_icon o))) (ep_popup o)]
               /\ map s1 = Some (addLayer (List.length (objects s)) m)).
  { unfold s1, a1. rewrite (addMarker_eq _ _ _ _ s m Hm). simpl.
    now rewrite Hm. }
  destruct E1 as (E1 & O1 & M1).
  assert (E2 : objects s2
               = objects s1
                 ++ [markerFor (config s1) (ep_lat d) (ep_lng d)
                       (Some (default "📦" (ep_icon d))) (ep_popup d)]
               /\ map s2 = Some (addLayer (List.length (objects s1))
                                   (addLayer (List.length (objects s)) m))).
  { unfold s2, a2. rewrite (addMarker_eq _ _ _ _ s1 _ M1). simpl.
    now rewrite M1. }
  destruct E2 as (O2 & M2).
  destruct (polyline_kinds l Hl) as [Lm Lc].
  set (s3 := set_trace t (placed l s2)).
  assert (G23 : grows s2 s3) by (now exists [l]).
  assert (G12 : grows s1 s2) by (eexists; exact O2).
  apply sound_trans with (s2 := s1); [apply soundM_addMarker|].
  apply sound_trans with (s2 := s2); [apply soundM_addMarker|].
  apply sound_trans with (s2 := s3).
  - apply sound_alloc with (l := l); try reflexivity.
    + exact (surface_placed l s2 _ M2).
    + rewrite Lm. now rewrite app_nil_r.
    + rewrite Lc. now rewrite app_nil_r.
    + now left.
  - pose proof (core_recordRoute (default true (ro_fitBounds opts))
                  {| rl_polyline := List.length (objects s2);
                     rl_originMarker := Some (List.length (objects s));
                     rl_destinationMarker := Some (List.length (objects s1)) |}
                  s3) as C.
    unfold core in C. injection C as C1 C2 C3 C4 C5 C6 C7.
    apply sound_push_route with
      (r := {| rl_polyline := List.length (objects s2);
               rl_originMarker := Some (List.length (objects s));
               rl_destinationMarker := Some (List.length (objects s1)) |});
      try assumption.
    + simpl. rewrite (kindAt_new is_polyline s2 s3 l eq_refl). exact Hl.
    + simpl. intros h Hh. injection Hh as <-.
      apply (kindAt_grows _ s2 s3 _ G23), (kindAt_grows _ s1 s2 _ G12).
      now rewrite (kindAt_new is_marker s s1 _ O1).
    + simpl. intros h Hh. injection Hh as <-.
      apply (kindAt_grows _ s2 s3 _ G23).
      now rewrite (kindAt_new is_marker s1 s2 _ O2).
Qed.

(** What [initMap] does. *)
Lemma initMap_eq (p : InitParams) (s : OpenStreetMap) :
  let cfg := config s in
  let lat := orElse (VNum (parseFloat (ip_lat p))) (cfg_lat cfg) in
  let lng := orElse (VNum (parseFloat (ip_lng p))) (cfg_lng cfg) in
  let zoom := orElse (VNum (parseInt (ip_zoom p))) (cfg_zoom cfg) in
  let containerId :=
    match ip_containerId p with
    | Some c => if str_truthy c then c else cfg_containerId cfg
    | None => cfg_containerId cfg
    end in
  initMap p s
  = (tt,
     placed (TileLayer (cfg_tileUrl cfg) (cfg_attribution cfg))
       (set_map (Some (pushView (SetView lat lng (Some zoom)) (L_map containerId)))
          (set_config
             {| cfg_lat := lat; cfg_lng := lng; cfg_zoom := zoom;
                cfg_containerId := cfg_containerId cfg;
                cfg_tileUrl := cfg_tileUrl cfg;
                cfg_attribution := cfg_attribution cfg;
                cfg_selectorIcon := cfg_selectorIcon cfg |} s))).
Proof. reflexivity. Qed.

Lemma sound_initMap (p : InitParams) (s : OpenStreetMap) :
  sound false s (snd (initMap p s)).
Proof.
  rewrite initMap_eq. simpl snd.
  apply sound_init with
    (l := TileLayer (cfg_tileUrl (config s)) (cfg_attribution (config s)));
    reflexivity.
Qed.

Lemma soundM_returning (A : Type) (e : bool) (v : Value) (m : M A) :
  soundM e m -> soundM e (returning v m).
Proof.
  intros H. unfold returning. apply soundM_bind; [exact H | intros; apply soundM_ret].
Qed.

Lemma soundM_call (e : bool) (op : Op) :
  (e = true -> is_initMap op = false) -> soundM e (call op).
Proof.
  intros He. destruct op; unfold call.
  - apply soundM_returning. destruct e; [specialize (He eq_refl); discriminate|].
    intros s0. apply sound_initMap.
  - apply soundM_returning, soundM_setupSearch.
  - apply soundM_returning, soundM_setupSelector.
  - apply soundM_returning, soundM_placeSelector.
  - apply soundM_returning, soundM_clearSelector.
  - apply soundM_bind; [apply soundM_getSelectedCoordinates | intros; apply soundM_ret].
  - apply soundM_bind; [apply soundM_confirmSelection | intros; apply soundM_ret].
  - apply soundM_bind; [apply soundM_drawRoute | intros; apply soundM_ret].
  - apply soundM_returning, soundM_setView.
  - apply soundM_returning, soundM_clearRoutes.
  - apply soundM_bind; [apply soundM_addMarker | intros; apply soundM_ret].
  - apply soundM_bind; [apply soundM_addMarkers | intros; apply soundM_ret].
  - apply soundM_returning, soundM_clearMarkers.
  - apply soundM_bind; [apply soundM_addCircle | intros; apply soundM_ret].
  - apply soundM_bind; [apply soundM_addCircles | intros; apply soundM_ret].
  - apply soundM_returning, soundM_clearCircles.
  - apply soundM_bind; [apply soundM_gets|]. intros m.
    apply soundM_returning, soundM_repeatM, soundM_handleMapClick.
  - apply soundM_bind; [apply soundM_gets|]. intros m.
    apply soundM_returning. destruct m as [m|]; [|apply soundM_ret].
    destruct (geocoders m); [apply soundM_ret | apply soundM_onMarkGeocode].
  - apply soundM_bind; [apply soundM_gets|]. intros m.
    apply soundM_returning, soundM_repeatM.
    apply soundM_bind; [apply soundM_confirmSelection | intros; apply soundM_ret].
Qed.

Lemma sound_step (e : bool) (op : Op) (s : OpenStreetMap) :
  (e = true -> is_initMap op = false) -> sound e s (step op s).
Proof. intros He. unfold step. now apply soundM_call. Qed.

Lemma wf_new (options : ConfigOptions) : wf (new options).
Proof.
  constructor; simpl; try (intros; contradiction); try constructor;
    try discriminate; auto.
Qed.

Lemma run_cons (op : Op) (ops : list Op) (s : OpenStreetMap) :
  run (op :: ops) s = run ops (step op s).
Proof. reflexivity. Qed.

Lemma wf_run (ops : list Op) (s : OpenStreetMap) : wf s -> wf (run ops s).
Proof.
  revert s. induction ops as [|op ops IH]; intros s W; [exact W|].
  rewrite run_cons. apply IH.
  now destruct (sound_step false op s (fun H => False_ind _ (diff_false_true H)) W).
Qed.

Lemma circlesInSync_run (ops : list Op) (s : OpenStreetMap) :
  forallb (fun op => negb (is_initMap op)) ops = true ->
  wf s -> circlesInSync s -> circlesInSync (run ops s).
Proof.
  revert s. induction ops as [|op ops IH]; intros s Hn W E; [exact E|].
  simpl in Hn. apply andb_prop in Hn as [Hop Hn].
  apply negb_true_iff in Hop.
  destruct (sound_step true op s (fun _ => Hop) W) as (W' & _ & _ & _ & E').
  rewrite run_cons. apply IH; auto.
Qed.

(** The history of selector markers along a run. *)
Lemma retired_step (H : list Handle) (s s' : OpenStreetMap) :
  wf s -> sound false s s' -> retired H s ->
  retired (H ++ somes [selectorMarker s]) s'.
Proof.
  intros W Hs [Ha Hr]. destruct (Hs W) as (W' & G & F & R & _).
  pose proof (grows_length _ _ G) as L.
  assert (Hsel : forall h, selectorMarker s = Some h ->
                 (h < List.length (objects s))%nat).
  { intros h Hh. now apply (wf_sel_kind s W), kindAt_lt in Hh. }
  assert (Hkeep : forall h, selectorMarker s = Some h -> In h (surface s') ->
                  selectorMarker s' = Some h).
  { intros h Hh Hin. destruct R as [R|[R _]]; [congruence|].
    now apply R in Hh. }
  split.
  - intros h Hh. apply in_app_or in Hh as [Hh|Hh].
    + apply Ha in Hh. lia.
    + destruct (selectorMarker s) as [h0|] eqn:E0; simpl in Hh; [|contradiction].
      destruct Hh as [<-|[]]. specialize (Hsel h0 eq_refl). lia.
  - intros h Hh Hin. apply in_app_or in Hh as [Hh|Hh].
    + apply Hkeep; [|exact Hin]. apply Hr; [exact Hh|].
      destruct (F h Hin) as [Hold|Hnew]; [exact Hold|].
      apply Ha in Hh. lia.
    + destruct (selectorMarker s) as [h0|] eqn:E0; simpl in Hh; [|contradiction].
      destruct Hh as [<-|[]]. now apply Hkeep.
Qed.

Lemma selectorHandles_cons (op : Op) (ops : list Op) (s : OpenStreetMap) :
  selectorHandles (op :: ops) s
  = somes [selectorMarker s] ++ selectorHandles ops (step op s).
Proof.
  unfold selectorHandles. simpl. now destruct (selectorMarker s).
Qed.

Lemma retired_run (ops : list Op) (s : OpenStreetMap) (H : list Handle) :
  wf s -> retired H s ->
  forall h, In h (H ++ selectorHandles ops s) ->
    In h (surface (run ops s)) -> selectorMarker (run ops s) = Some h.
Proof.
  revert s H. induction ops as [|op ops IH]; intros s H W Hr h Hh Hin.
  - simpl in *. apply in_app_or in Hh as [Hh|Hh].
    + now apply Hr.
    + unfold selectorHandles in Hh. simpl in Hh.
      destruct (selectorMarker s) as [h0|]; simpl in Hh; [|contradiction].
      destruct Hh as [<-|[]]. reflexivity.
  - rewrite run_cons in *.
    assert (Hs : sound false s (step op s)).
    { apply sound_step. discriminate. }
    apply (IH (step op s) (H ++ somes [selectorMarker s])).
    + now destruct (Hs W).
    + now apply retired_step.
    + rewrite selectorHandles_cons in Hh. now rewrite <- app_assoc.
    + exact Hin.
Qed.

Lemma NoDup_all_equal (l : list Handle) (a : Handle) :
  NoDup l -> (forall x, In x l -> x = a) -> (List.length l <= 1)%nat.
Proof.
  intros Hn Ha. destruct l as [|x [|y l]]; simpl; try lia.
  exfalso. inversion Hn as [|? ? Hx _]; subst. apply Hx.
  rewrite (Ha x) by now left. rewrite (Ha y) by (right; now left). now left.
Qed.

End Runs.
(* ------------------------------------------------------------------ *)
Section Claims.

#[local] Arguments haversineDistance : simpl never.
#[local] Arguments truthy : simpl never.
#[local] Arguments parseFloat : simpl never.
#[local] Arguments ToNumber : simpl never.
#[local] Arguments osrmUrl : simpl never.
#[local] Arguments toFixedDiv : simpl never.

Lemma valid_endpoint (a b c d : R) :
  a <> 0 -> b <> 0 -> c <> 0 -> d <> 0 ->
  validEndpoints (endpoint a b) (endpoint c d) = true.
Proof.
  intros. unfold validEndpoints, endpoint. simpl.
  now rewrite !truthy_Fin.
Qed.

Lemma nullish_truthy (v w : JsVal) : truthy v = true -> nullish v w = v.
Proof. destruct v; simpl; try reflexivity; discriminate. Qed.

Lemma In_addLayer_same (h : Handle) (m : LeafletMap) : In h (layers (addLayer h m)).
Proof.
  unfold addLayer; simpl. destruct (handle_in h (layers m)) eqn:E.
  - now apply handle_in_In.
  - apply in_or_app. right. now left.
Qed.

Lemma In_addLayer_other (h x : Handle) (m : LeafletMap) :
  In x (layers m) -> In x (layers (addLayer h m)).
Proof.
  unfold addLayer; simpl. intros H. destruct (handle_in h (layers m)); [exact H|].
  apply in_or_app. now left.
Qed.

Lemma isInitialized_map (s : OpenStreetMap) :
  isInitialized s = true -> exists m, map s = Some m.
Proof.
  unfold isInitialized. destruct (map s) as [m|]; [now exists m | discriminate].
Qed.

(** C5, at the failing input.  A route asked by road from a routing service
    that fails, with an origin on the equator: [lat] is the number 0, which
    the test of [drawRoute] takes for a missing value.  On an initialised
    session the call logs the warning of that test and returns null: the
    state is otherwise unchanged, so no endpoint marker is placed, the
    routing service is not asked and no straight line is drawn in its
    place. *)
Theorem drawRoute_by_road_rejects_zero_latitude
  (fetch : Text -> FetchOutcome) (lng : JsVal) (icon : option string)
  (popup : option Text) (d : Endpoint) (opts : RouteOptions)
  (s : OpenStreetMap) :
  isInitialized s = true ->
  ro_useRoadRoute opts = Some true ->
  routingFails
    (fetch (osrmUrl {| ep_lat := VNum (Fin 0); ep_lng := lng; ep_icon := icon;
                       ep_popup := popup |} d)) = true ->
  drawRoute fetch
    (Some {| ep_lat := VNum (Fin 0); ep_lng := lng; ep_icon := icon;
             ep_popup := popup |}) (Some d) opts s
  = (None,
     set_trace
       (ConsoleWarn "OpenStreetMap: drawRoute requiere origin y destination con lat/lng."
        :: trace s) s).
Proof.
  intros Hi _ _. destruct (isInitialized_map s Hi) as [m Hm].
  unfold drawRoute. unfold bind at 1. rewrite (requireMap_some s m Hm).
  cbn [negb ep_lat]. cbv beta iota. rewrite truthy_zero. reflexivity.
Qed.

Lemma confirmSelection_frame (now : string) (s : OpenStreetMap) :
  sameButTrace s (snd (confirmSelection now s)).
Proof.
  unfold confirmSelection, getSelectedCoordinates, bind, gets.
  destruct (selectedCoords s) as [[lat lng]|]; simpl.
  - destruct (onSelectCallback s); simpl;
      [apply sameButTrace_set_trace | apply sameButTrace_refl].
  - apply sameButTrace_set_trace.
Qed.


(** C2, at the failing input.  An origin on the equator: [lat] is the
    number 0, which the test of [drawRoute] takes for a missing value, so
    the call returns null on every session, whatever the other arguments. *)
Theorem drawRoute_rejects_zero_latitude
  (fetch : Text -> FetchOutcome) (lng : JsVal) (icon : option string)
  (popup : option Text) (d : option Endpoint) (opts : RouteOptions)
  (s : OpenStreetMap) :
  fst (drawRoute fetch
         (Some {| ep_lat := VNum (Fin 0); ep_lng := lng; ep_icon := icon;
                  ep_popup := popup |}) d opts s) = None
  /\ sameButTrace s
       (snd (drawRoute fetch
               (Some {| ep_lat := VNum (Fin 0); ep_lng := lng; ep_icon := icon;
                        ep_popup := popup |}) d opts s)).
Proof.
  destruct (drawRoute_invalid fetch
              (Some {| ep_lat := VNum (Fin 0); ep_lng := lng; ep_icon := icon;
                       ep_popup := popup |}) d opts s) as [t ->].
  - right. destruct d as [d|]; [|exact I].
    unfold validEndpoints. simpl. now rewrite truthy_zero.
  - split; [reflexivity | apply sameButTrace_set_trace].
Qed.

Lemma mapAddMarker_nil (s : OpenStreetMap) : mapAddMarker [] s = (Returned [], s).
Proof. reflexivity. Qed.

(** C4, at the failing inputs.  On an initialised session [addMarkers]
    never hands back the array of created markers: it returns the session
    itself (or throws on an element that is not an object).  With an empty
    list the result is the session, not an empty array; no view change is
    made, even with [fitBounds] set. *)
Theorem addMarkers_returns_session
  (specs : list (option MarkerSpec)) (options : BulkOptions) (s : OpenStreetMap) :
  isInitialized s = true ->
  (fst (addMarkers specs options s) = Returned MarkersThis
   \/ fst (addMarkers specs options s) = Thrown TypeError)
  /\ fst (addMarkers [] options s) = Returned MarkersThis
  /\ snd (addMarkers [] options s) = s.
Proof.
  intros Hi. destruct (isInitialized_map s Hi) as [m Hm].
  unfold addMarkers, bind. rewrite (requireMap_some s m Hm).
  cbn [negb]. cbv beta iota.
  split; [|split].
  - destruct (mapAddMarker specs s) as [[hs|[]] s1]; [|now right].
    left. now destruct (when _ _ s1).
  - rewrite mapAddMarker_nil. simpl. now rewrite andb_false_r.
  - rewrite mapAddMarker_nil. simpl. now rewrite andb_false_r.
Qed.

End Claims.
(* ------------------------------------------------------------------ *)
Section Registries.

#[local] Arguments haversineDistance : simpl never.
#[local] Arguments truthy : simpl never.
#[local] Arguments parseFloat : simpl never.
#[local] Arguments ToNumber : simpl never.
#[local] Arguments osrmUrl : simpl never.
#[local] Arguments toFixedDiv : simpl never.

Lemma surface_clearRoutes (s : OpenStreetMap) :
  surface (snd (clearRoutes s))
  = filter (fun h => negb (handle_in h (allRouteHandles s))) (surface s).
Proof.
  destruct (map s) as [m|] eqn:Hm.
  - rewrite (clearRoutes_eq s m Hm). unfold surface. simpl. rewrite Hm.
    apply layers_fold_removeRoute.
  - destruct (clear_none s Hm) as (_ & _ & ->). unfold surface. simpl.
    now rewrite Hm.
Qed.

Lemma surface_clearMarkers (s : OpenStreetMap) :
  surface (snd (clearMarkers s))
  = filter (fun h => negb (handle_in h (markers s))) (surface s).
Proof.
  destruct (map s) as [m|] eqn:Hm.
  - rewrite (clearMarkers_eq s m Hm). unfold surface. simpl. rewrite Hm.
    apply layers_fold_remove.
  - destruct (clear_none s Hm) as (-> & _). unfold surface. simpl.
    now rewrite Hm.
Qed.

Lemma not_on_filtered_surface (h : Handle) (hs l : list Handle) :
  In h hs -> ~ In h (filter (fun x => negb (handle_in x hs)) l).
Proof.
  intros Hh Hin. apply filter_In in Hin as [_ Hin].
  now rewrite (not_handle_in_false h hs Hh) in Hin.
Qed.

(** C1, as amended.  [drawRoute] places the two endpoint markers through
    [addMarker]: they are appended to the generic marker registry and
    grouped with the path in the route entry.  [clearRoutes] then takes off
    the surface exactly the handles of the route entries, empties the list
    of route entries and leaves the marker and circle registries as they
    are; [clearMarkers] takes every registered marker off the surface, the
    endpoint markers of the route included. *)
Theorem route_markers_are_registered
  (fetch : Text -> FetchOutcome) (o d : Endpoint) (opts : RouteOptions)
  (s : OpenStreetMap) :
  isInitialized s = true ->
  validEndpoints o d = true ->
  exists r s' ho hd,
    drawRoute fetch (Some o) (Some d) opts s = (Some r, s')
    /\ rr_originMarker r = Some ho /\ rr_destinationMarker r = Some hd
    /\ markers s' = markers s ++ [ho; hd]
    /\ circles s' = circles s
    /\ routeLayers s'
       = routeLayers s
         ++ [ {| rl_polyline := rr_polyline r; rl_originMarker := Some ho;
                 rl_destinationMarker := Some hd |} ]
    /\ routeLayers (snd (clearRoutes s')) = []
    /\ markers (snd (clearRoutes s')) = markers s'
    /\ circles (snd (clearRoutes s')) = circles s'
    /\ surface (snd (clearRoutes s'))
       = filter (fun h => negb (handle_in h (allRouteHandles s'))) (surface s')
    /\ markers (snd (clearMarkers s')) = []
    /\ routeLayers (snd (clearMarkers s')) = routeLayers s'
    /\ surface (snd (clearMarkers s'))
       = filter (fun h => negb (handle_in h (markers s'))) (surface s')
    /\ ~ In ho (surface (snd (clearMarkers s')))
    /\ ~ In hd (surface (snd (clearMarkers s'))).
Proof.
  intros Hi Hv.
  destruct (isInitialized_map s Hi) as [m Hm].
  destruct (drawRoute_eq fetch o d opts s m Hm Hv) as (data & l & t & Hl & _ & E).
  rewrite E. clear E.
  set (a1 := addMarker (ep_lat o) (ep_lng o) (Some (default "🏠" (ep_icon o)))
               (ep_popup o)) in *.
  set (s1 := snd (a1 s)) in *.
  set (a2 := addMarker (ep_lat d) (ep_lng d) (Some (default "📦" (ep_icon d)))
               (ep_popup d)) in *.
  set (s2 := snd (a2 s1)) in *.
  assert (E1 : s1 = set_markers (markers s ++ [List.length (objects s)])
                      (placed (markerFor (config s) (ep_lat o) (ep_lng o)
                                 (Some (default "🏠" (ep_icon o))) (ep_popup o)) s)).
  { unfold s1, a1. now rewrite (addMarker_eq _ _ _ _ s m Hm). }
  assert (M1 : map s1 = Some (addLayer (List.length (objects s)) m)).
  { rewrite E1. simpl. now rewrite Hm. }
  assert (E2 : s2 = set_markers (markers s1 ++ [List.length (objects s1)])
                      (placed (markerFor (config s1) (ep_lat d) (ep_lng d)
                                 (Some (default "📦" (ep_icon d))) (ep_popup d)) s1)).
  { unfold s2, a2. now rewrite (addMarker_eq _ _ _ _ s1 _ M1). }
  assert (M2 : map s2 = Some (addLayer (List.length (objects s1))
                                (addLayer (List.length (objects s)) m))).
  { rewrite E2. simpl. now rewrite M1. }
  assert (K2 : markers s2 = markers s ++ [List.length (objects s); List.length (objects s1)]).
  { rewrite E2. simpl. rewrite E1 at 1. simpl. now rewrite <- app_assoc. }
  assert (C2 : circles s2 = circles s) by (rewrite E2; simpl; now rewrite E1).
  assert (R2 : routeLayers s2 = routeLayers s) by (rewrite E2; simpl; now rewrite E1).
  match goal with |- context [recordRoute ?f ?r ?s3] =>
    pose proof (core_recordRoute f r s3) as C; set (s' := recordRoute f r s3) in *
  end.
  unfold core in C. injection C as Co Cs Cm Cc _ _ Cr.
  simpl in Cm, Cc, Cr. rewrite K2 in Cm. rewrite C2 in Cc. rewrite R2 in Cr.
  assert (Mi : exists m', map s' = Some m').
  { unfold s', recordRoute. destruct (default true (ro_fitBounds opts)); simpl;
      rewrite M2; simpl; eexists; reflexivity. }
  destruct Mi as [m' Hm'].
  eexists. exists s', (List.length (objects s)), (List.length (objects s1)).
  split; [reflexivity|]. simpl.
  split; [reflexivity|]. split; [reflexivity|].
  split; [exact Cm|]. split; [exact Cc|]. split; [exact Cr|].
  rewrite surface_clearRoutes, surface_clearMarkers.
  rewrite (clearRoutes_eq s' m' Hm'), (clearMarkers_eq s' m' Hm'). simpl.
  repeat apply conj; try reflexivity.
  - apply not_on_filtered_surface. rewrite Cm. apply in_or_app. right. now left.
  - apply not_on_filtered_surface. rewrite Cm. apply in_or_app. right. right. now left.
Qed.

Lemma getSelectedCoordinates_state (now : string) (s : OpenStreetMap) :
  snd (getSelectedCoordinates now s) = s.
Proof.
  unfold getSelectedCoordinates, bind, gets.
  now destruct (selectedCoords s) as [[lat lng]|].
Qed.

Lemma step_initMap (p : InitParams) (s : OpenStreetMap) :
  step (OpInitMap p) s = snd (initMap p s).
Proof. unfold step, call, returning. now rewrite snd_bind. Qed.

(** C3, as amended.  After every sequence of calls and events, neither
    registry lists a handle twice and every marker, respectively circle,
    visible on the surface is registered, so the length of a registry is at
    least the number of visible layers of its kind; the circles on the
    surface are exactly the registered ones in a session initialised at
    most once. *)
Theorem registries_cover_visible_layers
  (options : ConfigOptions) (ops : list Op) :
  NoDup (markers (run ops (new options)))
  /\ NoDup (circles (run ops (new options)))
  /\ incl (visibleMarkers (run ops (new options))) (markers (run ops (new options)))
  /\ incl (visibleCircles (run ops (new options))) (circles (run ops (new options)))
  /\ (List.length (visibleMarkers (run ops (new options)))
      <= List.length (markers (run ops (new options))))%nat
  /\ (List.length (visibleCircles (run ops (new options)))
      <= List.length (circles (run ops (new options))))%nat
  /\ ((initCount ops <= 1)%nat ->
      visibleCircles (run ops (new options)) = circles (run ops (new options))).
Proof.
  pose proof (wf_run ops (new options) (wf_new options)) as W.
  set (s := run ops (new options)) in *.
  assert (Im : incl (visibleMarkers s) (markers s)).
  { intros h Hh. apply filter_In in Hh as [Hh Hk]. now apply (wf_sf_mk s W). }
  assert (Ic : incl (visibleCircles s) (circles s)).
  { intros h Hh. apply filter_In in Hh as [Hh Hk]. now apply (wf_sf_ci s W). }
  split; [apply (wf_mk_nodup s W)|]. split; [apply (wf_ci_nodup s W)|].
  split; [exact Im|]. split; [exact Ic|].
  split; [apply NoDup_incl_length; [apply NoDup_filter, (wf_sf_nodup s W) | exact Im]|].
  split; [apply NoDup_incl_length; [apply NoDup_filter, (wf_sf_nodup s W) | exact Ic]|].
  intros Hc. unfold s. clear W Im Ic s.
  assert (G : forall ops s,
             wf s -> map s = None -> circles s = [] ->
             (initCount ops <= 1)%nat -> circlesInSync (run ops s)).
  { clear ops Hc. induction ops as [|op ops IH]; intros s W Hm Hcs Hc.
    - simpl. unfold circlesInSync, visibleCircles, surface. now rewrite Hm, Hcs.
    - rewrite run_cons. destruct (is_initMap op) eqn:Hop.
      + apply circlesInSync_run.
        * unfold initCount in Hc. simpl in Hc. rewrite Hop in Hc. simpl in Hc.
          assert (Hz : filter is_initMap ops = []).
          { destruct (filter is_initMap ops); [reflexivity | simpl in Hc; lia]. }
          clear -Hz. induction ops as [|x xs IHx]; [reflexivity|].
          simpl in *. destruct (is_initMap x); [discriminate|]. now apply IHx.
        * now destruct (sound_step false op s (fun H => False_ind _ (diff_false_true H)) W).
        * destruct op; try discriminate Hop. rewrite step_initMap.
          rewrite initMap_eq. simpl snd.
          unfold circlesInSync, visibleCircles, surface. simpl.
          unfold kindAt, layerAt. simpl.
          rewrite nth_error_app2 by lia. rewrite Nat.sub_diag. simpl. exact (eq_sym Hcs).
      + assert (Hs : map (step op s) = None /\ circles (step op s) = circles s).
        { destruct (guarded op) eqn:Hg.
          - destruct (guarded_uninitialized op s Hg) as (v & s' & E & _ & S).
            { unfold isInitialized. now rewrite Hm. }
            unfold step. rewrite E. simpl.
            destruct S as (_ & S2 & _ & _ & _ & _ & _ & _ & S9 & _).
            split; [congruence | exact S9].
          - destruct op; try discriminate Hg; try discriminate Hop.
            + unfold step, call. rewrite snd_bind. unfold ret. simpl snd.
              now rewrite getSelectedCoordinates_state.
            + unfold step, call. rewrite snd_bind. unfold ret. simpl snd.
              destruct (confirmSelection_frame now s)
                as (_ & S2 & _ & _ & _ & _ & _ & _ & S9 & _).
              split; [congruence | exact S9].
            + unfold step, call, returning, bind, gets. rewrite Hm. simpl. auto.
            + unfold step, call, returning, bind, gets. rewrite Hm. simpl. auto.
            + unfold step, call, returning, bind, gets. rewrite Hm. simpl. auto. }
        destruct Hs as [Hm' Hcs'].
        apply IH.
        * now destruct (sound_step false op s (fun H => False_ind _ (diff_false_true H)) W).
        * exact Hm'.
        * congruence.
        * unfold initCount in *. simpl in Hc. now rewrite Hop in Hc. }
  apply G; auto using wf_new.
Qed.

End Registries.
(* ------------------------------------------------------------------ *)
Section Selector.

#[local] Arguments truthy : simpl never.
#[local] Arguments parseFloat : simpl never.

Lemma run_snoc (ops : list Op) (op : Op) (s : OpenStreetMap) :
  run (ops ++ [op]) s = step op (run ops s).
Proof. unfold run. now rewrite fold_left_app. Qed.

Lemma last_selector_in_history (ops : list Op) (s : OpenStreetMap) (h : Handle) :
  selectorMarker (run ops s) = Some h -> In h (selectorHandles ops s).
Proof.
  revert s. induction ops as [|op ops IH]; intros s Hh.
  - unfold selectorHandles. simpl in *. rewrite Hh. now left.
  - rewrite selectorHandles_cons. apply in_or_app. right. now apply IH.
Qed.

Lemma retired_new (options : ConfigOptions) : retired [] (new options).
Proof. split; intros h []. Qed.

Lemma active_selector_current (options : ConfigOptions) (ops : list Op) (h : Handle) :
  In h (activeSelectorMarkers ops (new options)) ->
  selectorMarker (run ops (new options)) = Some h.
Proof.
  unfold activeSelectorMarkers. intros Hh. apply filter_In in Hh as [Hs Hh].
  apply handle_in_In in Hh.
  apply (retired_run ops (new options) [] (wf_new options) (retired_new options));
    assumption.
Qed.

Lemma active_selector_at_most_one (options : ConfigOptions) (ops : list Op) :
  (List.length (activeSelectorMarkers ops (new options)) <= 1)%nat.
Proof.
  pose proof (wf_run ops (new options) (wf_new options)) as W.
  destruct (selectorMarker (run ops (new options))) as [a|] eqn:Hs.
  - apply NoDup_all_equal with (a := a).
    + apply NoDup_filter, (wf_sf_nodup _ W).
    + intros x Hx. apply active_selector_current in Hx. congruence.
  - destruct (activeSelectorMarkers ops (new options)) as [|x l] eqn:E; [simpl; lia|].
    assert (Hx : In x (activeSelectorMarkers ops (new options)))
      by (rewrite E; now left).
    apply active_selector_current in Hx. congruence.
Qed.

Lemma step_placeSelector (lat lng : JsVal) (icon : option string) (s : OpenStreetMap) :
  step (OpPlaceSelector lat lng icon) s = snd (placeSelector lat lng icon s).
Proof. unfold step, call, returning. now rewrite snd_bind. Qed.

Lemma clearSelector_objects (s : OpenStreetMap) :
  objects (snd (clearSelector s)) = objects s.
Proof.
  destruct (map s) as [m|] eqn:Hm; [destruct (selectorMarker s) as [h|] eqn:Hs|].
  - now rewrite (clearSelector_eq s m h Hm Hs).
  - now rewrite clearSelector_noop by now right.
  - now rewrite clearSelector_noop by now left.
Qed.

Lemma In_addLayer_inv (h x : Handle) (m : LeafletMap) :
  In x (layers (addLayer h m)) -> x = h \/ In x (layers m).
Proof.
  unfold addLayer; simpl. destruct (handle_in h (layers m)); [now right|].
  intros H. apply in_app_or in H as [H|[<-|[]]]; auto.
Qed.

(** What one [placeSelector] leaves behind on a session whose selector is
    enabled. *)
Lemma placeSelector_replaces (lat lng : JsVal) (icon : option string)
  (s : OpenStreetMap) :
  wf s -> isInitialized s = true -> isSelectorEnabled s = true ->
  exists h,
    selectorMarker (snd (placeSelector lat lng icon s)) = Some h
    /\ selectedCoords (snd (placeSelector lat lng icon s)) = Some (lat, lng)
    /\ In h (surface (snd (placeSelector lat lng icon s)))
    /\ forall h0, selectorMarker s = Some h0 ->
         h0 <> h /\ ~ In h0 (surface (snd (placeSelector lat lng icon s))).
Proof.
  intros W Hi He. destruct (isInitialized_map s Hi) as [m Hm].
  rewrite (placeSelector_eq lat lng icon s m Hm He). simpl snd.
  destruct (clearSelector_after s m Hm) as (m' & Hm' & Hsel & Hcfg & Hoff).
  set (sA := snd (clearSelector s)) in *.
  exists (List.length (objects sA)).
  split; [reflexivity|]. split; [reflexivity|].
  assert (Hsurf : surface
                    (set_selectorMarker (Some (List.length (objects sA)))
                       (set_markers (markers sA ++ [List.length (objects sA)])
                          (placed
                             (markerFor (config sA) lat lng
                                (Some (default (cfg_selectorIcon (config s)) icon))
                                (Some (buildSelectorPopup lat lng)))
                             (set_selectedCoords (Some (lat, lng)) sA))))
                  = layers (addLayer (List.length (objects sA)) m')).
  { unfold surface. simpl. now rewrite Hm'. }
  rewrite Hsurf. split; [apply In_addLayer_same|].
  intros h0 Hh0.
  assert (Hlt : (h0 < List.length (objects sA))%nat).
  { unfold sA. rewrite clearSelector_objects.
    now apply (wf_sel_kind s W), kindAt_lt in Hh0. }
  split; [lia|]. intros Hin. apply In_addLayer_inv in Hin as [Hin|Hin]; [lia|].
  apply (Hoff h0 Hh0). unfold surface. now rewrite Hm'.
Qed.

End Selector.
(* ------------------------------------------------------------------ *)
Section Initialisation.

#[local] Arguments truthy : simpl never.
#[local] Arguments parseFloat : simpl never.
#[local] Arguments parseInt : simpl never.

Lemma orElse_number (r : R) (w : JsVal) :
  r <> 0 -> orElse (VNum (Fin r)) w = VNum (Fin r).
Proof. intros H. unfold orElse. now rewrite truthy_Fin. Qed.

Lemma orElse_NaN (w : JsVal) : orElse (VNum NaN) w = w.
Proof. reflexivity. Qed.

Lemma orElse_zero (w : JsVal) : orElse (VNum (Fin 0)) w = w.
Proof. unfold orElse. now rewrite truthy_zero. Qed.

Lemma Rtrunc_between (r : R) (z : Z) :
  0 <= IZR z -> IZR z <= r < IZR z + 1 -> Rtrunc r = IZR z.
Proof.
  intros Hz [Hl Hu]. unfold Rtrunc.
  destruct (Rle_dec 0 r) as [_|Hn]; [|lra].
  unfold Int_part. f_equal.
  assert (H : (z + 1)%Z = up r).
  { apply up_tech; [exact Hl|]. rewrite plus_IZR. simpl. lra. }
  lia.
Qed.

Lemma decimal_notation (r : R) :
  r = 0 \/ / 10 ^ 6 <= Rabs r < 10 ^ 21 -> exponentNotation r = false.
Proof.
  intros H. unfold exponentNotation.
  destruct (Req_dec_T r 0) as [_|Hr]; [reflexivity|].
  destruct H as [H|[Hl Hu]]; [contradiction|].
  destruct (Rlt_dec (Rabs r) (/ 10 ^ 6)) as [Hs|_]; [lra|].
  destruct (Rle_dec (10 ^ 21) (Rabs r)) as [Hb|_]; [lra | reflexivity].
Qed.

Lemma exponent_notation (r : R) :
  r <> 0 -> Rabs r < / 10 ^ 6 \/ 10 ^ 21 <= Rabs r -> exponentNotation r = true.
Proof.
  intros Hr H. unfold exponentNotation.
  destruct (Req_dec_T r 0) as [E|_]; [contradiction|].
  destruct (Rlt_dec (Rabs r) (/ 10 ^ 6)) as [_|Hs]; [reflexivity|].
  destruct (Rle_dec (10 ^ 21) (Rabs r)) as [_|Hb]; [reflexivity|].
  destruct H; contradiction.
Qed.

Lemma ln_10_pos : 0 < ln 10.
Proof. rewrite <- ln_1. apply ln_increasing; lra. Qed.

Lemma ln_powerRZ_10 (k : Z) : ln (powerRZ 10 k) = IZR k * ln 10.
Proof. rewrite powerRZ_Rpower by lra. unfold Rpower. apply ln_exp. Qed.

Lemma div_mul_cancel (r p : R) : 0 < p -> r / p * p = r.
Proof. intros H. field. lra. Qed.

(** A positive number lies in the decade of the integer part of its decimal
    logarithm. *)
Lemma decade_spec (r : R) :
  0 < r ->
  powerRZ 10 (Int_part (ln r / ln 10)) <= r
  < 10 * powerRZ 10 (Int_part (ln r / ln 10)).
Proof.
  intros Hr. pose proof ln_10_pos as L.
  set (k := Int_part (ln r / ln 10)).
  destruct (base_Int_part (ln r / ln 10)) as [Hl Hu]. fold k in Hl, Hu.
  assert (Hl' : IZR k * ln 10 <= ln r).
  { apply Rmult_le_compat_r with (r := ln 10) in Hl; [|lra].
    now rewrite div_mul_cancel in Hl. }
  assert (Hu' : ln r < (IZR k + 1) * ln 10).
  { assert (H : ln r / ln 10 < IZR k + 1) by lra.
    apply Rmult_lt_compat_r with (r := ln 10) in H; [|lra].
    now rewrite div_mul_cancel in H. }
  assert (P : powerRZ 10 k = exp (IZR k * ln 10)).
  { rewrite powerRZ_Rpower by lra. reflexivity. }
  rewrite P. split.
  - rewrite <- (exp_ln r Hr) at 1.
    destruct Hl' as [Hl'|Hl']; [left; now apply exp_increasing | right; now rewrite Hl'].
  - rewrite <- (exp_ln r Hr) at 1.
    replace (10 * exp (IZR k * ln 10)) with (exp (ln 10 + IZR k * ln 10)).
    + apply exp_increasing. lra.
    + rewrite exp_plus. rewrite exp_ln by lra. reflexivity.
Qed.

Lemma decade_unique (r : R) (k : Z) :
  powerRZ 10 k <= r < 10 * powerRZ 10 k -> Int_part (ln r / ln 10) = k.
Proof.
  intros [Hl Hu]. pose proof ln_10_pos as L.
  assert (P : 0 < powerRZ 10 k) by (apply powerRZ_lt; lra).
  assert (Hr : 0 < r) by lra.
  assert (Hl' : IZR k * ln 10 <= ln r).
  { rewrite <- ln_powerRZ_10. destruct Hl as [Hl|Hl];
      [left; now apply ln_increasing | right; now rewrite Hl]. }
  assert (Hu' : ln r < (IZR k + 1) * ln 10).
  { replace ((IZR k + 1) * ln 10) with (ln (10 * powerRZ 10 k)).
    - now apply ln_increasing.
    - rewrite ln_mult by lra. rewrite ln_powerRZ_10. ring. }
  symmetry. apply Int_part_spec. split.
  - apply Rmult_lt_reg_r with (r := ln 10); [exact L|].
    rewrite Rmult_minus_distr_r, div_mul_cancel by exact L. lra.
  - apply Rmult_le_reg_r with (r := ln 10); [exact L|].
    now rewrite div_mul_cancel.
Qed.

(** [leadingDigit] is the first significant digit of a positive number. *)
Lemma leadingDigit_spec (r : R) :
  0 < r ->
  exists digit k : Z,
    (1 <= digit <= 9)%Z
    /\ IZR digit * powerRZ 10 k <= r < (IZR digit + 1) * powerRZ 10 k
    /\ leadingDigit r = IZR digit.
Proof.
  intros Hr. unfold leadingDigit.
  set (k := Int_part (ln r / ln 10)).
  destruct (decade_spec r Hr) as [Hl Hu]. fold k in Hl, Hu.
  assert (P : 0 < powerRZ 10 k) by (apply powerRZ_lt; lra).
  set (q := r / powerRZ 10 k).
  assert (Hq : 1 <= q < 10).
  { unfold q. split.
    - apply Rmult_le_reg_r with (r := powerRZ 10 k); [exact P|].
      rewrite div_mul_cancel by exact P. lra.
    - apply Rmult_lt_reg_r with (r := powerRZ 10 k); [exact P|].
      now rewrite div_mul_cancel. }
  destruct (base_Int_part q) as [Dl Du].
  assert (Hr' : r = q * powerRZ 10 k) by (unfold q; now rewrite div_mul_cancel).
  exists (Int_part q), k. split; [|split; [|reflexivity]].
  - split.
    + assert (H : (0 < Int_part q)%Z) by (apply lt_IZR; lra). lia.
    + assert (H : (Int_part q < 10)%Z) by (apply lt_IZR; lra). lia.
  - rewrite Hr' at 1 2. split.
    + apply Rmult_le_compat_r; lra.
    + apply Rmult_lt_compat_r; lra.
Qed.

(** ... and it is read off any bracketing of the number by a digit. *)
Lemma leadingDigit_between (r : R) (digit k : Z) :
  (1 <= digit <= 9)%Z ->
  IZR digit * powerRZ 10 k <= r < (IZR digit + 1) * powerRZ 10 k ->
  leadingDigit r = IZR digit.
Proof.
  intros [D1 D9] [Hl Hu]. unfold leadingDigit.
  assert (P : 0 < powerRZ 10 k) by (apply powerRZ_lt; lra).
  apply IZR_le in D1, D9.
  assert (K : Int_part (ln r / ln 10) = k).
  { apply decade_unique. split; nra. }
  rewrite K. f_equal. symmetry. apply Int_part_spec. split.
  - apply Rmult_lt_reg_r with (r := powerRZ 10 k); [exact P|].
    rewrite Rmult_minus_distr_r, div_mul_cancel by exact P. lra.
  - apply Rmult_le_reg_r with (r := powerRZ 10 k); [exact P|].
    now rewrite div_mul_cancel.
Qed.

Lemma parseInt_decimal (x : R) :
  x = 0 \/ / 10 ^ 6 <= Rabs x < 10 ^ 21 ->
  parseInt (VNum (Fin x)) = Fin (Rtrunc x).
Proof.
  intros H. unfold parseInt, integerPrefix. now rewrite decimal_notation.
Qed.

(** C7, as amended.  [initMap] resolves [lat] and [lng] with [parseFloat]
    and [zoom] with [parseInt]: a value that parses to a number other than
    zero becomes the new [config] value; a value that does not parse to a
    number leaves the prior [config] value in place.  [parseInt] reads the
    integer at the start of the string form of the value: of a number
    printed in decimal notation (zero, or a magnitude from 1e-6 up to 1e21)
    the integer part, and of a number printed in exponent notation the first
    significant digit with its sign.  The map is created on the given
    container, or on the one of [config] when none (or an empty one) is
    given, with its view at the resolved centre and zoom, and the tile layer
    attached. *)
Theorem initMap_merges (p : InitParams) (s : OpenStreetMap) :
  let s' := snd (initMap p s) in
  (forall r, parseFloat (ip_lat p) = Fin r -> r <> 0 ->
     cfg_lat (config s') = VNum (Fin r))
  /\ (parseFloat (ip_lat p) = NaN -> cfg_lat (config s') = cfg_lat (config s))
  /\ (forall r, parseFloat (ip_lng p) = Fin r -> r <> 0 ->
        cfg_lng (config s') = VNum (Fin r))
  /\ (parseFloat (ip_lng p) = NaN -> cfg_lng (config s') = cfg_lng (config s))
  /\ (forall r, parseInt (ip_zoom p) = Fin r -> r <> 0 ->
        cfg_zoom (config s') = VNum (Fin r))
  /\ (parseInt (ip_zoom p) = NaN -> cfg_zoom (config s') = cfg_zoom (config s))
  /\ (forall x, ip_lat p = VNum (Fin x) -> parseFloat (ip_lat p) = Fin x)
  /\ (forall x, ip_lng p = VNum (Fin x) -> parseFloat (ip_lng p) = Fin x)
  /\ (forall x, ip_zoom p = VNum (Fin x) ->
        x = 0 \/ / 10 ^ 6 <= Rabs x < 10 ^ 21 ->
        parseInt (ip_zoom p) = Fin (Rtrunc x))
  /\ (forall x, ip_zoom p = VNum (Fin x) ->
        x <> 0 -> Rabs x < / 10 ^ 6 \/ 10 ^ 21 <= Rabs x ->
        exists digit k : Z,
          (1 <= digit <= 9)%Z
          /\ IZR digit * powerRZ 10 k <= Rabs x < (IZR digit + 1) * powerRZ 10 k
          /\ parseInt (ip_zoom p)
             = Fin (if Rle_dec 0 x then IZR digit else - IZR digit))
  /\ cfg_containerId (config s') = cfg_containerId (config s)
  /\ exists m,
       map s' = Some m
       /\ viewLog m
          = [SetView (cfg_lat (config s')) (cfg_lng (config s'))
               (Some (cfg_zoom (config s')))]
       /\ container m
          = match ip_containerId p with
            | Some c => if str_truthy c then c else cfg_containerId (config s)
            | None => cfg_containerId (config s)
            end
       /\ layers m = [List.length (objects s)]
       /\ layerAt s' (List.length (objects s))
          = Some (TileLayer (cfg_tileUrl (config s)) (cfg_attribution (config s))).
Proof.
  intros s'. unfold s'. rewrite initMap_eq. simpl snd. simpl config.
  cbn [cfg_lat cfg_lng cfg_zoom].
  split; [intros r -> Hr; now apply orElse_number|].
  split; [intros ->; apply orElse_NaN|].
  split; [intros r -> Hr; now apply orElse_number|].
  split; [intros ->; apply orElse_NaN|].
  split; [intros r -> Hr; now apply orElse_number|].
  split; [intros ->; apply orElse_NaN|].
  split; [intros x ->; reflexivity|].
  split; [intros x ->; reflexivity|].
  split; [intros x -> Hx; now apply parseInt_decimal|].
  split.
  { intros x -> Hx0 Hx. unfold parseInt, integerPrefix.
    rewrite (exponent_notation x Hx0 Hx).
    destruct (Rle_dec 0 x) as [Hp|Hn].
    - destruct (leadingDigit_spec x) as (digit & k & Hd & Hb & ->); [lra|].
      exists digit, k. rewrite Rabs_right by lra. auto.
    - destruct (leadingDigit_spec (- x)) as (digit & k & Hd & Hb & ->); [lra|].
      exists digit, k. rewrite Rabs_left by lra. auto. }
  split; [reflexivity|].
  eexists. split; [reflexivity|]. simpl.
  repeat apply conj; try reflexivity.
  unfold layerAt. simpl. rewrite nth_error_app2 by lia. now rewrite Nat.sub_diag.
Qed.

(** The claim C7 as stated fails: given the numbers [lat = 0] and
    [zoom = 12.5], [initMap] keeps the default latitude and adopts the zoom
    12. *)
Lemma initMap_zero_and_fraction :
  cfg_lat (config (session noOptions
                     {| ip_lat := VNum (Fin 0); ip_lng := VNum (Fin (-66.9));
                        ip_containerId := None; ip_zoom := VNum (Fin 12.5) |}))
  = VNum (Fin 8.240773)
  /\ VNum (Fin 8.240773) <> VNum (Fin 0)
  /\ cfg_zoom (config (session noOptions
                         {| ip_lat := VNum (Fin 0); ip_lng := VNum (Fin (-66.9));
                            ip_containerId := None; ip_zoom := VNum (Fin 12.5) |}))
     = VNum (Fin 12)
  /\ VNum (Fin 12) <> VNum (Fin 12.5).
Proof.
  unfold session. rewrite initMap_eq. simpl snd. simpl config.
  cbn [cfg_lat cfg_lng cfg_zoom ip_lat ip_lng ip_zoom].
  split; [apply orElse_zero|].
  split; [intros H; injection H; lra|].
  split.
  - rewrite parseInt_decimal
      by (right; rewrite Rabs_right by lra; split; [|simpl]; lra).
    rewrite (Rtrunc_between 12.5 12) by (simpl; lra).
    now apply orElse_number.
  - intros H; injection H; lra.
Qed.

(** A zoom below 1e-6 is printed in exponent notation, and its first digit
    is adopted: [initMap({zoom: 5e-7})] sets the zoom to 5. *)
Lemma initMap_tiny_zoom :
  cfg_zoom (config (session noOptions
                      {| ip_lat := VUndefined; ip_lng := VUndefined;
                         ip_containerId := None; ip_zoom := VNum (Fin (5 / 10 ^ 7)) |}))
  = VNum (Fin 5).
Proof.
  assert (E : parseInt (VNum (Fin (5 / 10 ^ 7))) = Fin 5).
  { unfold parseInt, integerPrefix.
    rewrite exponent_notation
      by (try left; rewrite ?Rabs_right by lra; lra).
    destruct (Rle_dec 0 (5 / 10 ^ 7)) as [_|H]; [|lra].
    f_equal. apply (leadingDigit_between _ 5 (-7)); [lia|].
    simpl. lra. }
  remember (5 / 10 ^ 7) as z.
  unfold session. rewrite initMap_eq. simpl snd. simpl config.
  cbn [cfg_zoom ip_zoom].
  rewrite E. apply orElse_number. lra.
Qed.

End Initialisation.
(* ------------------------------------------------------------------ *)
Section Examples.

#[local] Arguments truthy : simpl never.
#[local] Arguments haversineDistance : simpl never.
#[local] Arguments ToNumber : simpl never.
#[local] Arguments parseFloat : simpl never.
#[local] Arguments osrmUrl : simpl never.

Lemma s_init_initialized : isInitialized s_init = true.
Proof. reflexivity. Qed.

Lemma example_endpoints_valid :
  validEndpoints (endpoint 10.0 (-66.0)) (endpoint 10.1 (-66.1)) = true.
Proof. apply valid_endpoint; lra. Qed.

(** The claim C1 as stated fails: after one [drawRoute] on a fresh session
    the two endpoint markers (handles 1 and 2) are in the generic marker
    registry, and [clearMarkers] takes them off the surface, leaving the
    tile layer (0) and the path (3). *)
Lemma route_endpoints_cleared_by_clearMarkers :
  markers s_routed = [1; 2]%nat
  /\ routeMarkers s_routed = [1; 2]%nat
  /\ surface s_routed = [0; 1; 2; 3]%nat
  /\ surface (snd (clearMarkers s_routed)) = [0; 3]%nat.
Proof.
  unfold s_routed.
  destruct (isInitialized_map s_init s_init_initialized) as [m Hm].
  destruct (drawRoute_eq offline (endpoint 10.0 (-66.0)) (endpoint 10.1 (-66.1))
              noRouteOptions s_init m Hm example_endpoints_valid)
    as (data & l & t & _ & _ & E).
  rewrite E. repeat split.
Qed.

(** The claim C3 as stated fails: after [initMap], [setupSelector] (which
    places the default point) and one [placeSelector], the marker registry
    lists two handles while one marker is visible on the surface. *)
Lemma registry_longer_than_visible_markers :
  List.length (markers s_selected) = 2%nat
  /\ List.length (visibleMarkers s_selected) = 1%nat.
Proof. split; reflexivity. Qed.

Lemma route_markers_are_registered_witness :
  isInitialized s_init = true
  /\ validEndpoints (endpoint 10.0 (-66.0)) (endpoint 10.1 (-66.1)) = true
  /\ exists r s' ho hd,
       drawRoute offline (Some (endpoint 10.0 (-66.0)))
         (Some (endpoint 10.1 (-66.1))) noRouteOptions s_init = (Some r, s')
       /\ rr_originMarker r = Some ho /\ rr_destinationMarker r = Some hd
       /\ markers s' = markers s_init ++ [ho; hd]
       /\ routeLayers (snd (clearRoutes s')) = []
       /\ markers (snd (clearRoutes s')) = markers s'
       /\ ~ In ho (surface (snd (clearMarkers s')))
       /\ ~ In hd (surface (snd (clearMarkers s'))).
Proof.
  split; [reflexivity|]. split; [exact example_endpoints_valid|].
  destruct (route_markers_are_registered offline (endpoint 10.0 (-66.0))
              (endpoint 10.1 (-66.1)) noRouteOptions s_init
              s_init_initialized example_endpoints_valid)
    as (r & s' & ho & hd & H1 & H2 & H3 & H4 & _ & _ & H7 & H8 & _ & _ & _ & _ & _
        & H14 & H15).
  exists r, s', ho, hd. repeat apply conj; assumption.
Defined.

Lemma addMarkers_returns_session_witness :
  isInitialized s_init = true
  /\ fst (addMarkers [] {| bo_fitBounds := Some true |} s_init) = Returned MarkersThis
  /\ snd (addMarkers [] {| bo_fitBounds := Some true |} s_init) = s_init.
Proof.
  split; [reflexivity|].
  exact (proj2 (addMarkers_returns_session [] {| bo_fitBounds := Some true |} s_init
                  s_init_initialized)).
Defined.

Lemma drawRoute_by_road_rejects_zero_latitude_witness :
  isInitialized s_init = true
  /\ routingFails
       (noRoute (osrmUrl {| ep_lat := VNum (Fin 0); ep_lng := VNum (Fin (-66.0));
                            ep_icon := None; ep_popup := None |}
                   (endpoint 10.1 (-66.1)))) = true
  /\ drawRoute noRoute
       (Some {| ep_lat := VNum (Fin 0); ep_lng := VNum (Fin (-66.0));
                ep_icon := None; ep_popup := None |})
       (Some (endpoint 10.1 (-66.1)))
       {| ro_useRoadRoute := Some true; ro_color := None; ro_weight := None;
          ro_opacity := None; ro_fitBounds := None; ro_dashArray := None |}
       s_init
     = (None,
        set_trace
          (ConsoleWarn
             "OpenStreetMap: drawRoute requiere origin y destination con lat/lng."
           :: trace s_init) s_init).
Proof.
  split; [reflexivity|]. split; [reflexivity|].
  apply drawRoute_by_road_rejects_zero_latitude; reflexivity.
Defined.

Lemma uninitialized_fails_safe_witness :
  exists v s',
    call (OpAddMarkers [] {| bo_fitBounds := None |}) (new noOptions) = (Returned v, s')
    /\ failsSafe v = true /\ sameButTrace (new noOptions) s'.
Proof. apply uninitialized_fails_safe; reflexivity. Defined.

Lemma registries_cover_visible_layers_witness :
  (initCount [OpInitMap noParams;
              OpAddCircle (VNum (Fin 10.48)) (VNum (Fin (-66.90))) None noCircleOptions]
   <= 1)%nat
  /\ visibleCircles
       (run [OpInitMap noParams;
             OpAddCircle (VNum (Fin 10.48)) (VNum (Fin (-66.90))) None noCircleOptions]
            (new noOptions))
     = circles
         (run [OpInitMap noParams;
               OpAddCircle (VNum (Fin 10.48)) (VNum (Fin (-66.90))) None noCircleOptions]
              (new noOptions)).
Proof.
  split; [apply le_n|].
  destruct (registries_cover_visible_layers noOptions
              [OpInitMap noParams;
               OpAddCircle (VNum (Fin 10.48)) (VNum (Fin (-66.90))) None noCircleOptions])
    as (_ & _ & _ & _ & _ & _ & H).
  apply H. apply le_n.
Defined.


Lemma initMap_merges_witness :
  cfg_lat (config (session noOptions
                     {| ip_lat := VNum (Fin 10.48); ip_lng := VNum (Fin (-66.90));
                        ip_containerId := None; ip_zoom := VNum (Fin 12) |}))
  = VNum (Fin 10.48).
Proof.
  pose proof (initMap_merges
                {| ip_lat := VNum (Fin 10.48); ip_lng := VNum (Fin (-66.90));
                   ip_containerId := None; ip_zoom := VNum (Fin 12) |}
                (new noOptions)) as H.
  cbv zeta in H. destruct H as [H _].
  apply H; [reflexivity | lra].
Defined.

End Examples.
(* ------------------------------------------------------------------ *)
Section DistanceBounds.

Implicit Types lat lng : R.

(** The angle of the point [(cos v, sin v)] for [v] between 0 and a right
    angle. *)
Lemma Ratan2_sin_cos (v : R) :
  0 <= v <= PI / 2 -> Ratan2 (sin v) (cos v) = v.
Proof.
  intros [H0 H1]. unfold Ratan2.
  destruct H1 as [H1|H1].
  - assert (Hc : 0 < cos v) by (apply cos_gt_0; lra).
    destruct (Rlt_dec 0 (cos v)) as [_|Hn]; [|contradiction].
    change (sin v / cos v) with (tan v). apply atan_tan. lra.
  - subst v. rewrite cos_PI2, sin_PI2.
    destruct (Rlt_dec 0 0) as [Hn|_]; [lra|].
    destruct (Rlt_dec 0 1) as [_|Hn]; [reflexivity | lra].
Qed.

(** The distance when the [a] term is the squared sine of half the central
    angle [2 * v]. *)
Lemma haversine_arc lat1 lng1 lat2 lng2 (v : R) :
  hterm lat1 lng1 lat2 lng2 = (sin v)² -> Rabs v <= PI / 2 ->
  haversineDistance (Fin lat1) (Fin lng1) (Fin lat2) (Fin lng2)
  = Fin (6371000 * 2 * Rabs v).
Proof.
  intros Ha Hv. rewrite haversineDistance_Fin, Ha. f_equal. f_equal.
  assert (Hs : sqrt (sin v)² = sin (Rabs v)).
  { rewrite sqrt_Rsqr_abs. unfold Rabs at 2.
    destruct (Rcase_abs v) as [Hn|Hp].
    - rewrite sin_neg. apply Rabs_left.
      assert (H : 0 < sin (- v)).
      { apply sin_gt_0; [lra|]. pose proof PI_RGT_0.
        rewrite Rabs_left in Hv by exact Hn. lra. }
      rewrite sin_neg in H. lra.
    - apply Rabs_right. apply Rle_ge, sin_ge_0; [lra|].
      rewrite Rabs_right in Hv by exact Hp. pose proof PI_RGT_0. lra. }
  assert (Hc : sqrt (1 - (sin v)²) = cos (Rabs v)).
  { replace (1 - (sin v)²) with (cos v)² by (pose proof (sin2_cos2 v); lra).
    rewrite sqrt_Rsqr_abs.
    replace (cos (Rabs v)) with (cos v)
      by (unfold Rabs; destruct (Rcase_abs v); [now rewrite cos_neg | reflexivity]).
    assert (Hv' : - (PI / 2) <= v <= PI / 2)
      by (unfold Rabs in Hv; destruct (Rcase_abs v); lra).
    apply Rabs_right, Rle_ge, cos_ge_0; lra. }
  rewrite Hs, Hc. apply Ratan2_sin_cos. split; [apply Rabs_pos | exact Hv].
Qed.

(** X2. A coordinate that is not a number makes the distance not a
    number. *)
Theorem haversineDistance_propagates_NaN (lat1 lng1 lat2 lng2 : Num) :
  lat1 = NaN \/ lng1 = NaN \/ lat2 = NaN \/ lng2 = NaN ->
  haversineDistance lat1 lng1 lat2 lng2 = NaN.
Proof.
  intros H.
  assert (Ha : haversineTerm lat1 lng1 lat2 lng2 = NaN).
  { unfold haversineTerm.
    destruct lat1, lng1, lat2, lng2; try reflexivity.
    destruct H as [H|[H|[H|H]]]; discriminate H. }
  unfold haversineDistance. now rewrite Ha.
Qed.

(** X3. Along a meridian, and along the equator, the distance is the
    radius times the difference of the angles in radians, as long as the
    difference is at most half a turn. *)
Theorem haversineDistance_meridian_equator (a b c : R) :
  Rabs (b - a) <= 180 ->
  haversineDistance (Fin a) (Fin c) (Fin b) (Fin c)
  = Fin (6371000 * (Rabs (b - a) * PI / 180))
  /\ haversineDistance (Fin 0) (Fin a) (Fin 0) (Fin b)
     = Fin (6371000 * (Rabs (b - a) * PI / 180)).
Proof.
  intros H. pose proof PI_RGT_0 as Hpi.
  assert (Hv : Rabs (rad (b - a) / 2) = Rabs (b - a) * PI / 180 / 2).
  { unfold rad. replace ((b - a) * PI / 180 / 2) with ((b - a) * (PI / 360)) by lra.
    rewrite Rabs_mult, (Rabs_right (PI / 360)) by lra. lra. }
  assert (Hb : Rabs (rad (b - a) / 2) <= PI / 2) by (rewrite Hv; nra).
  split.
  - rewrite (haversine_arc a c b c (rad (b - a) / 2)); [f_equal; lra | | exact Hb].
    unfold hterm. replace (rad (c - c) / 2) with 0 by (unfold rad; lra).
    rewrite sin_0. unfold Rsqr. ring.
  - rewrite (haversine_arc 0 a 0 b (rad (b - a) / 2)); [f_equal; lra | | exact Hb].
    unfold hterm. replace (rad (0 - 0) / 2) with 0 by (unfold rad; lra).
    replace (rad 0) with 0 by (unfold rad; lra).
    rewrite sin_0, cos_0. unfold Rsqr. ring.
Qed.

(** X4. The distance depends on the longitudes through their difference
    only, and it is the same for the mirror images of the two points across
    the equator. *)
Theorem haversineDistance_shift_mirror lat1 lng1 lat2 lng2 (t : R) :
  haversineDistance (Fin lat1) (Fin (lng1 + t)) (Fin lat2) (Fin (lng2 + t))
  = haversineDistance (Fin lat1) (Fin lng1) (Fin lat2) (Fin lng2)
  /\ haversineDistance (Fin (- lat1)) (Fin lng1) (Fin (- lat2)) (Fin lng2)
     = haversineDistance (Fin lat1) (Fin lng1) (Fin lat2) (Fin lng2).
Proof.
  rewrite !haversineDistance_Fin. split.
  - replace (hterm lat1 (lng1 + t) lat2 (lng2 + t)) with (hterm lat1 lng1 lat2 lng2);
      [reflexivity|].
    unfold hterm. now replace (lng2 + t - (lng1 + t)) with (lng2 - lng1) by lra.
  - replace (hterm (- lat1) lng1 (- lat2) lng2) with (hterm lat1 lng1 lat2 lng2);
      [reflexivity|].
    unfold hterm.
    replace (rad (- lat2 - - lat1) / 2) with (- (rad (lat2 - lat1) / 2))
      by (unfold rad; lra).
    replace (rad (- lat1)) with (- rad lat1) by (unfold rad; lra).
    replace (rad (- lat2)) with (- rad lat2) by (unfold rad; lra).
    rewrite sin_neg, !cos_neg. ring.
Qed.

(** The number printed by [toFixed] is the number itself or differs from it
    by at most half a unit of the last decimal. *)
Lemma roundFixed_error (d : nat) (r : R) :
  Rabs (roundFixed d r - r) <= / 2 * / 10 ^ d.
Proof.
  assert (Hp : 0 < 10 ^ d) by (apply pow_lt; lra).
  assert (Hi : 0 < / 10 ^ d) by now apply Rinv_0_lt_compat.
  unfold roundFixed.
  destruct (Rle_dec (10 ^ 21) (Rabs r)) as [Hb|_].
  { replace (r - r) with 0 by lra. rewrite Rabs_R0. nra. }
  set (x := Rabs r * 10 ^ d + / 2).
  destruct (base_Int_part x) as [Hl Hu].
  set (k := IZR (Int_part x)) in *.
  assert (Hm : Rabs (k / 10 ^ d - Rabs r) <= / 2 * / 10 ^ d).
  { replace (k / 10 ^ d - Rabs r) with ((k - Rabs r * 10 ^ d) * / 10 ^ d)
      by (field; lra).
    rewrite Rabs_mult, (Rabs_right (/ 10 ^ d)) by lra.
    apply Rmult_le_compat_r; [lra|].
    apply Rabs_le. unfold x in *. lra. }
  destruct (Rle_dec 0 r) as [Hp0|Hn0].
  - now rewrite (Rabs_right r) in Hm by lra.
  - rewrite (Rabs_left r) in Hm by lra.
    replace (- (k / 10 ^ d) - r) with (- (k / 10 ^ d - - r)) by lra.
    now rewrite Rabs_Ropp.
Qed.

End DistanceBounds.
(* ------------------------------------------------------------------ *)
(** ** Properties kept by the operations

    A property of the session that no update of the map, the object store,
    the registries, the route entries or the warnings can break is kept by
    every operation built from such updates. *)
Section Frames.

#[local] Arguments truthy : simpl never.
#[local] Arguments parseFloat : simpl never.
#[local] Arguments parseInt : simpl never.
#[local] Arguments ToNumber : simpl never.
#[local] Arguments haversineDistance : simpl never.
#[local] Arguments osrmUrl : simpl never.
#[local] Arguments toFixedDiv : simpl never.
#[local] Arguments buildSelectorPopup : simpl never.

Variable I : OpenStreetMap -> Prop.

Hypothesis I_warn :
  forall msg s, I s -> I (set_trace (ConsoleWarn msg :: trace s) s).
Hypothesis I_map :
  forall f s, I s -> I (set_map (option_map f (map s)) s).
Hypothesis I_objects : forall l s, I s -> I (set_objects l s).
Hypothesis I_markers : forall l s, I s -> I (set_markers l s).
Hypothesis I_circles : forall l s, I s -> I (set_circles l s).
Hypothesis I_routes : forall l s, I s -> I (set_routeLayers l s).

Lemma preserves_ret (A : Type) (a : A) : preserves I (ret a).
Proof. intros s H. exact H. Qed.

Lemma preserves_gets (A : Type) (f : OpenStreetMap -> A) : preserves I (gets f).
Proof. intros s H. exact H. Qed.

Lemma preserves_bind (A B : Type) (m : M A) (k : A -> M B) :
  preserves I m -> (forall a, preserves I (k a)) -> preserves I (bind m k).
Proof. intros Hm Hk s H. rewrite snd_bind. now apply Hk, Hm. Qed.

Lemma preserves_modify (f : OpenStreetMap -> OpenStreetMap) :
  (forall s, I s -> I (f s)) -> preserves I (modify f).
Proof. intros Hf s H. now apply Hf. Qed.

Lemma preserves_when (b : bool) (m : M unit) :
  preserves I m -> preserves I (when b m).
Proof. intros H. destruct b; [exact H | apply preserves_ret]. Qed.

Lemma preserves_warn (msg : string) : preserves I (emit (ConsoleWarn msg)).
Proof. apply preserves_modify. intros s. apply I_warn. Qed.

Lemma preserves_onMap (f : LeafletMap -> LeafletMap) : preserves I (onMap f).
Proof. apply preserves_modify. intros s. apply I_map. Qed.

Lemma preserves_newLayerOnMap (l : Layer) : preserves I (newLayerOnMap l).
Proof.
  intros s H. rewrite newLayerOnMap_eq. simpl snd. unfold placed.
  now apply (I_map (addLayer (List.length (objects s)))
               (set_objects (objects s ++ [l]) s)), I_objects.
Qed.

Lemma preserves_requireMap : preserves I requireMap.
Proof.
  unfold requireMap. apply preserves_bind; [apply preserves_gets|].
  intros [m|]; [apply preserves_ret|].
  apply preserves_bind; [apply preserves_warn | intros; apply preserves_ret].
Qed.

Lemma preserves_requireSelector : preserves I requireSelector.
Proof.
  unfold requireSelector. apply preserves_bind; [apply preserves_requireMap|].
  intros [|]; simpl; [|apply preserves_ret].
  apply preserves_bind; [apply preserves_gets|].
  intros [|]; simpl; [apply preserves_ret|].
  apply preserves_bind; [apply preserves_warn | intros; apply preserves_ret].
Qed.

Lemma preserves_addMarker (lat lng : JsVal) (icon : option string)
  (popupContent : option Text) :
  preserves I (addMarker lat lng icon popupContent).
Proof.
  unfold addMarker. apply preserves_bind; [apply preserves_requireMap|].
  intros [|]; simpl; [|apply preserves_ret].
  apply preserves_bind; [apply preserves_gets|]. intros cfg.
  apply preserves_bind; [apply preserves_newLayerOnMap|]. intros h.
  apply preserves_bind; [|intros; apply preserves_ret].
  apply preserves_modify. intros s. apply I_markers.
Qed.

Lemma preserves_addCircle (lat lng : JsVal) (radius : option JsVal)
  (options : CircleOptions) :
  preserves I (addCircle lat lng radius options).
Proof.
  unfold addCircle. apply preserves_bind; [apply preserves_requireMap|].
  intros [|]; simpl; [|apply preserves_ret].
  apply preserves_bind; [apply preserves_newLayerOnMap|]. intros h.
  apply preserves_bind; [|intros; apply preserves_ret].
  apply preserves_modify. intros s. apply I_circles.
Qed.

Lemma preserves_mapAddMarker (specs : list (option MarkerSpec)) :
  preserves I (mapAddMarker specs).
Proof.
  induction specs as [|[sp|] rest IH]; simpl; try apply preserves_ret.
  apply preserves_bind; [apply preserves_addMarker|]. intros h.
  apply preserves_bind; [exact IH | intros; apply preserves_ret].
Qed.

Lemma preserves_mapAddCircle (specs : list (option CircleSpec)) :
  preserves I (mapAddCircle specs).
Proof.
  induction specs as [|[sp|] rest IH]; simpl; try apply preserves_ret.
  apply preserves_bind; [apply preserves_addCircle|]. intros h.
  apply preserves_bind; [exact IH | intros; apply preserves_ret].
Qed.

Lemma preserves_addMarkers (specs : list (option MarkerSpec)) (options : BulkOptions) :
  preserves I (addMarkers specs options).
Proof.
  unfold addMarkers. apply preserves_bind; [apply preserves_requireMap|].
  intros [|]; simpl; [|apply preserves_ret].
  apply preserves_bind; [apply preserves_mapAddMarker|].
  intros [hs|err]; [|apply preserves_ret].
  apply preserves_bind; [apply preserves_when, preserves_onMap|].
  intros; apply preserves_ret.
Qed.

Lemma preserves_addCircles (specs : list (option CircleSpec)) (options : BulkOptions) :
  preserves I (addCircles specs options).
Proof.
  unfold addCircles. apply preserves_bind; [apply preserves_requireMap|].
  intros [|]; simpl; [|apply preserves_ret].
  apply preserves_bind; [apply preserves_mapAddCircle|].
  intros [hs|err]; [|apply preserves_ret].
  apply preserves_bind; [apply preserves_when, preserves_onMap|].
  intros; apply preserves_ret.
Qed.

Lemma preserves_clearMarkers : preserves I clearMarkers.
Proof.
  unfold clearMarkers. apply preserves_bind; [apply preserves_gets|].
  intros [m|]; [|apply preserves_ret].
  apply preserves_bind; [apply preserves_gets|]. intros ms.
  apply preserves_bind; [apply preserves_onMap|]. intros _.
  apply preserves_modify. intros s. apply I_markers.
Qed.

Lemma preserves_clearCircles : preserves I clearCircles.
Proof.
  unfold clearCircles. apply preserves_bind; [apply preserves_gets|].
  intros [m|]; [|apply preserves_ret].
  apply preserves_bind; [apply preserves_gets|]. intros cs.
  apply preserves_bind; [apply preserves_onMap|]. intros _.
  apply preserves_modify. intros s. apply I_circles.
Qed.

Lemma preserves_clearRoutes : preserves I clearRoutes.
Proof.
  unfold clearRoutes. apply preserves_bind; [apply preserves_gets|].
  intros [m|]; [|apply preserves_ret].
  apply preserves_bind; [apply preserves_gets|]. intros rs.
  apply preserves_bind; [apply preserves_onMap|]. intros _.
  apply preserves_modify. intros s. apply I_routes.
Qed.

Lemma preserves_setView (lat lng zoom : JsVal) : preserves I (setView lat lng zoom).
Proof.
  unfold setView. apply preserves_bind; [apply preserves_requireMap|].
  intros [|]; simpl; [apply preserves_onMap | apply preserves_ret].
Qed.

Lemma preserves_setupSearch (o : SearchOptions) : preserves I (setupSearch o).
Proof.
  unfold setupSearch. apply preserves_bind; [apply preserves_requireMap|].
  intros [|]; simpl; [apply preserves_onMap | apply preserves_ret].
Qed.

Lemma preserves_getSelectedCoordinates (now : string) :
  preserves I (getSelectedCoordinates now).
Proof.
  unfold getSelectedCoordinates. apply preserves_bind; [apply preserves_gets|].
  intros [[lat lng]|]; apply preserves_ret.
Qed.

Lemma preserves_confirmSelection (now : string) :
  keptByConfirmation I -> preserves I (confirmSelection now).
Proof.
  intros [Ha Hc]. unfold confirmSelection.
  apply preserves_bind; [apply preserves_getSelectedCoordinates|].
  intros [c|].
  - apply preserves_bind; [apply preserves_gets|]. intros cb.
    apply preserves_bind; [|intros; apply preserves_ret].
    destruct cb; [|apply preserves_ret].
    apply preserves_modify. intros s. apply Hc.
  - apply preserves_bind; [|intros; apply preserves_ret].
    apply preserves_modify. intros s. apply Ha.
Qed.

Lemma preserves_repeatM (n : nat) (m : M unit) :
  preserves I m -> preserves I (repeatM n m).
Proof.
  intros H. induction n as [|n IH]; simpl; [apply preserves_ret|].
  apply preserves_bind; [exact H | intros; exact IH].
Qed.

Lemma preserves_clearSelector : keptBySelector I -> preserves I clearSelector.
Proof.
  intros [Hm Hc]. unfold clearSelector.
  apply preserves_bind; [apply preserves_gets|]. intros m.
  apply preserves_bind; [apply preserves_gets|]. intros sm.
  destruct m as [m|], sm as [h|]; try apply preserves_ret.
  apply preserves_bind; [apply preserves_onMap|]. intros _.
  apply preserves_bind; [apply preserves_modify; intros s; apply Hm|]. intros _.
  apply preserves_modify. intros s. apply Hc.
Qed.

Lemma preserves_placeSelector (lat lng : JsVal) (icon : option string) :
  keptBySelector I -> preserves I (placeSelector lat lng icon).
Proof.
  intros Hs. pose proof Hs as [Hm Hc]. unfold placeSelector.
  apply preserves_bind; [apply preserves_requireSelector|].
  intros [|]; simpl; [|apply preserves_ret].
  apply preserves_bind; [apply preserves_gets|]. intros cfg.
  apply preserves_bind; [now apply preserves_clearSelector|]. intros _.
  apply preserves_bind; [apply preserves_modify; intros s; apply Hc|]. intros _.
  apply preserves_bind; [apply preserves_addMarker|]. intros h.
  apply preserves_modify. intros s. apply Hm.
Qed.

Lemma preserves_handleMapClick (e : ClickEvent) :
  keptBySelector I -> preserves I (handleMapClick e).
Proof.
  intros Hs. unfold handleMapClick.
  apply preserves_bind; [apply preserves_gets|].
  intros [|]; simpl; [|apply preserves_ret].
  destruct (click_lat e), (click_lng e); try apply preserves_ret.
  now apply preserves_placeSelector.
Qed.

Lemma preserves_setupSelector (f : OnSelect) :
  keptBySelector I -> keptByEnabling I -> preserves I (setupSelector f).
Proof.
  intros Hs He. unfold setupSelector.
  apply preserves_bind; [apply preserves_requireMap|].
  intros [|]; simpl; [|apply preserves_ret].
  apply preserves_bind; [apply preserves_modify; intros s; apply He|]. intros _.
  apply preserves_bind; [apply preserves_onMap|]. intros _.
  apply preserves_bind; [apply preserves_gets|]. intros cfg.
  now apply preserves_placeSelector.
Qed.

Lemma preserves_buildStraightRoute (o d : Endpoint) (ls : LineStyle) :
  preserves I (buildStraightRoute o d ls).
Proof.
  unfold buildStraightRoute.
  apply preserves_bind; [apply preserves_newLayerOnMap|].
  intros; apply preserves_ret.
Qed.

Lemma preserves_fetchRoadRoute (fetch : Text -> FetchOutcome)
  (o d : Endpoint) (ls : LineStyle) :
  keptByRequest I -> preserves I (fetchRoadRoute fetch o d ls).
Proof.
  intros [Hr He]. unfold fetchRoadRoute.
  apply preserves_bind; [apply preserves_modify; intros s; apply Hr|]. intros _.
  assert (Hcaught : preserves I
            (emit (ConsoleError "OpenStreetMap: Error al calcular la ruta:") ;;;
             ret (@None (Handle * RouteData)))).
  { apply preserves_bind; [apply preserves_modify; intros s; apply He|].
    intros; apply preserves_ret. }
  assert (Hnone : preserves I
            (emit (ConsoleWarn
                     "OpenStreetMap: No se encontró una ruta entre los puntos.") ;;;
             ret (@None (Handle * RouteData)))).
  { apply preserves_bind; [apply preserves_warn | intros; apply preserves_ret]. }
  destruct (fetch (osrmUrl o d)) as [| | |[[|route rest]|]]; try assumption.
  destruct (osrm_geometry route) as [g|]; [|assumption].
  apply preserves_bind; [apply preserves_newLayerOnMap|].
  intros; apply preserves_ret.
Qed.

Lemma preserves_drawRoute (fetch : Text -> FetchOutcome)
  (o d : option Endpoint) (opts : RouteOptions) :
  (default false (ro_useRoadRoute opts) = true -> keptByRequest I) ->
  preserves I (drawRoute fetch o d opts).
Proof.
  intros Hf. unfold drawRoute.
  apply preserves_bind; [apply preserves_requireMap|].
  intros [|]; simpl; [|apply preserves_ret].
  assert (Hwarn : preserves I
            (emit (ConsoleWarn
               "OpenStreetMap: drawRoute requiere origin y destination con lat/lng.") ;;;
             ret (@None RouteResult))).
  { apply preserves_bind; [apply preserves_warn | intros; apply preserves_ret]. }
  destruct o as [o|], d as [d|]; try assumption.
  destruct (negb (truthy (ep_lat o)) || negb (truthy (ep_lng o))
            || negb (truthy (ep_lat d)) || negb (truthy (ep_lng d)));
    [assumption|].
  apply preserves_bind; [apply preserves_addMarker|]. intros ho.
  apply preserves_bind; [apply preserves_addMarker|]. intros hd.
  apply preserves_bind.
  - destruct (default false (ro_useRoadRoute opts)).
    + apply preserves_bind; [now apply preserves_fetchRoadRoute, Hf|].
      intros [r|]; [apply preserves_ret|].
      apply preserves_bind; [apply preserves_warn|].
      intros _. apply preserves_buildStraightRoute.
    + apply preserves_buildStraightRoute.
  - intros r.
    apply preserves_bind; [apply preserves_modify; intros s; apply I_routes|].
    intros _.
    apply preserves_bind; [apply preserves_when, preserves_onMap|].
    intros; apply preserves_ret.
Qed.

Lemma preserves_returning (A : Type) (v : Value) (m : M A) :
  preserves I m -> preserves I (returning v m).
Proof.
  intros H. unfold returning. apply preserves_bind; [exact H|].
  intros; apply preserves_ret.
Qed.

(** Every call and event other than the initialisation keeps the property,
    given what its kind needs. *)
Lemma preserves_call (op : Op) :
  is_initMap op = false ->
  (usesSelector op = true -> keptBySelector I) ->
  (is_setupSelector op = true -> keptByEnabling I) ->
  (is_confirmation op = true -> keptByConfirmation I) ->
  (asksRoadRoute op = true -> keptByRequest I) ->
  preserves I (call op).
Proof.
  intros Hi Hs He Hc Hf. destruct op; unfold call; simpl in *.
  - discriminate Hi.
  - apply preserves_returning, preserves_setupSearch.
  - apply preserves_returning, preserves_setupSelector; auto.
  - apply preserves_returning, preserves_placeSelector; auto.
  - apply preserves_returning, preserves_clearSelector; auto.
  - apply preserves_bind; [apply preserves_getSelectedCoordinates|].
    intros; apply preserves_ret.
  - apply preserves_bind; [apply preserves_confirmSelection; auto|].
    intros; apply preserves_ret.
  - apply preserves_bind; [apply preserves_drawRoute; auto|].
    intros; apply preserves_ret.
  - apply preserves_returning, preserves_setView.
  - apply preserves_returning, preserves_clearRoutes.
  - apply preserves_bind; [apply preserves_addMarker | intros; apply preserves_ret].
  - apply preserves_bind; [apply preserves_addMarkers | intros; apply preserves_ret].
  - apply preserves_returning, preserves_clearMarkers.
  - apply preserves_bind; [apply preserves_addCircle | intros; apply preserves_ret].
  - apply preserves_bind; [apply preserves_addCircles | intros; apply preserves_ret].
  - apply preserves_returning, preserves_clearCircles.
  - apply preserves_bind; [apply preserves_gets|]. intros m.
    apply preserves_returning, preserves_repeatM, preserves_handleMapClick; auto.
  - apply preserves_bind; [apply preserves_gets|]. intros m.
    apply preserves_returning. destruct m as [m|]; [|apply preserves_ret].
    destruct (geocoders m); [apply preserves_ret | apply preserves_onMap].
  - apply preserves_bind; [apply preserves_gets|]. intros m.
    apply preserves_returning, preserves_repeatM.
    apply preserves_bind; [apply preserves_confirmSelection; auto|].
    intros; apply preserves_ret.
Qed.

End Frames.
(* ------------------------------------------------------------------ *)
Section Sessions.

#[local] Arguments truthy : simpl never.
#[local] Arguments parseFloat : simpl never.
#[local] Arguments parseInt : simpl never.
#[local] Arguments orElse : simpl never.

(** Side conditions of [preserves_call] for a property that the update at
    hand does not touch. *)
Ltac untouched :=
  intros;
  unfold keptBySelector, keptByEnabling, keptByConfirmation, keptByRequest;
  repeat match goal with |- _ /\ _ => split end;
  intros; try assumption; simpl; try assumption; try discriminate;
  try reflexivity.

Lemma preserves_step (I : OpenStreetMap -> Prop) (op : Op) (s : OpenStreetMap) :
  preserves I (call op) -> I s -> I (step op s).
Proof. intros H. apply H. Qed.

Lemma config_step (op : Op) (s : OpenStreetMap) :
  is_initMap op = false -> config (step op s) = config s.
Proof.
  intros Hi.
  apply (preserves_step (fun s' => config s' = config s) op s); [|reflexivity].
  apply preserves_call; try exact Hi; untouched.
Qed.

(** X5. Only [initMap] changes the configuration of a session, and it
    changes [lat], [lng] and [zoom] only: after any sequence of calls and
    events the container id, the tile URL, the attribution and the selector
    icon are those the constructor merged from its options and the
    defaults. *)
Theorem configuration_changes_only_on_initMap
  (options : ConfigOptions) (ops : list Op) (op : Op) :
  (is_initMap op = false ->
   config (step op (run ops (new options))) = config (run ops (new options)))
  /\ cfg_containerId (config (run ops (new options)))
     = default "map" (co_containerId options)
  /\ cfg_tileUrl (config (run ops (new options)))
     = default "https://{s}.tile.openstreetmap.org/{z}/{x}/{y}.png"
         (co_tileUrl options)
  /\ cfg_attribution (config (run ops (new options)))
     = default "© OpenStreetMap | Strix Technologies | aceroraas"
         (co_attribution options)
  /\ cfg_selectorIcon (config (run ops (new options)))
     = default "📦" (co_selectorIcon options).
Proof.
  split; [apply config_step|].
  assert (G : forall ops s,
             cfg_containerId (config (run ops s)) = cfg_containerId (config s)
             /\ cfg_tileUrl (config (run ops s)) = cfg_tileUrl (config s)
             /\ cfg_attribution (config (run ops s)) = cfg_attribution (config s)
             /\ cfg_selectorIcon (config (run ops s)) = cfg_selectorIcon (config s)).
  { clear. induction ops as [|op ops IH]; intros s; [now repeat split|].
    rewrite run_cons. destruct (IH (step op s)) as (-> & -> & -> & ->).
    destruct (is_initMap op) eqn:Hop.
    - destruct op; try discriminate Hop. rewrite step_initMap, initMap_eq.
      now repeat split.
    - rewrite (config_step op s Hop). now repeat split. }
  destruct (G ops (new options)) as (-> & -> & -> & ->). now repeat split.
Qed.

(** X6. A session does not go back: after any call or event an initialised
    session is initialised, and an enabled selector is enabled. *)
Theorem session_flags_never_reset (op : Op) (s : OpenStreetMap) :
  (isInitialized s = true -> isInitialized (step op s) = true)
  /\ (isSelectorEnabled s = true -> isSelectorEnabled (step op s) = true).
Proof.
  destruct (is_initMap op) eqn:Hop.
  - destruct op; try discriminate Hop. rewrite step_initMap, initMap_eq.
    split; intros H; [reflexivity | exact H].
  - split; intros H.
    + apply (preserves_step (fun s' => isInitialized s' = true) op s); [|exact H].
      apply preserves_call; try exact Hop; untouched.
      revert H0. unfold isInitialized. simpl. now destruct (map s0).
    + apply (preserves_step (fun s' => isSelectorEnabled s' = true) op s); [|exact H].
      apply preserves_call; try exact Hop; untouched.
Qed.

Lemma countEffects_cons (k : Effect -> bool) (e : Effect) (t : list Effect) :
  k e = false -> countEffects k (e :: t) = countEffects k t.
Proof. intros H. unfold countEffects. simpl. now rewrite H. Qed.

(** A kind of effects that an operation does not make is not made. *)
Lemma countEffects_step (k : Effect -> bool) (op : Op) (s : OpenStreetMap) :
  (forall msg, k (ConsoleWarn msg) = false) ->
  (is_confirmation op = true ->
   (forall msg, k (Alert msg) = false) /\ (forall f p, k (CallbackInvoked f p) = false)) ->
  (asksRoadRoute op = true ->
   (forall url, k (FetchRequest url) = false) /\ (forall msg, k (ConsoleError msg) = false)) ->
  countEffects k (trace (step op s)) = countEffects k (trace s).
Proof.
  intros Hw Hc Hf.
  destruct (is_initMap op) eqn:Hop.
  - destruct op; try discriminate Hop. now rewrite step_initMap, initMap_eq.
  - apply (preserves_step
             (fun s' => countEffects k (trace s') = countEffects k (trace s)) op s);
      [|reflexivity].
    apply preserves_call; try exact Hop; untouched;
      rewrite countEffects_cons; try assumption; try apply Hw;
      first [apply Hc | apply Hf]; assumption.
Qed.

(** X7. The registered callback is invoked, and the blocking notice shown,
    by a confirmation only: no other call or event adds an invocation or a
    notice to the trace. *)
Theorem callback_and_notice_only_on_confirmation (op : Op) (s : OpenStreetMap) :
  is_confirmation op = false ->
  countEffects is_invocation (trace (step op s))
  = countEffects is_invocation (trace s)
  /\ countEffects is_alert (trace (step op s)) = countEffects is_alert (trace s).
Proof.
  intros Hc. split; apply countEffects_step; try reflexivity;
    try (intros H; congruence); intros _; split; reflexivity.
Qed.

(** X8. The routing service is asked by [drawRoute] with [useRoadRoute]
    set only: no other call or event makes a request. *)
Theorem request_only_for_road_routes (op : Op) (s : OpenStreetMap) :
  asksRoadRoute op = false ->
  countEffects is_request (trace (step op s)) = countEffects is_request (trace s).
Proof.
  intros Hr. apply countEffects_step; try reflexivity.
  - intros _. split; reflexivity.
  - intros H. congruence.
Qed.

Lemma unselected_effect (e : Effect) (s : OpenStreetMap) :
  is_invocation e = false -> unselected s -> unselected (set_trace (e :: trace s) s).
Proof.
  intros He (A & B & C & D & E). unfold unselected. simpl.
  now rewrite countEffects_cons.
Qed.

Lemma confirmSelection_nothing (now : string) (s : OpenStreetMap) :
  selectedCoords s = None ->
  confirmSelection now s
  = (None, set_trace (Alert "❌ Primero selecciona un punto en el mapa" :: trace s) s).
Proof.
  intros H. unfold confirmSelection, getSelectedCoordinates, bind, gets.
  now rewrite H.
Qed.

Lemma unselected_step (op : Op) (s : OpenStreetMap) :
  is_setupSelector op = false -> unselected s -> unselected (step op s).
Proof.
  intros Hop U.
  destruct (usesSelector op || is_confirmation op || is_initMap op) eqn:Hk.
  - pose proof U as (He & Hm & Hc & Hcb & Hn).
    destruct op; try discriminate Hop; try discriminate Hk.
    + rewrite step_initMap, initMap_eq. exact U.
    + rewrite step_placeSelector. unfold placeSelector. rewrite snd_bind.
      pose proof (preserves_requireSelector unselected
                    (fun msg s0 => unselected_effect (ConsoleWarn msg) s0 eq_refl) s U) as U'.
      destruct (requireSelector_fails s (or_intror He)) as [t Ht].
      rewrite Ht in *. exact U'.
    + unfold step, call, returning. rewrite snd_bind.
      rewrite clearSelector_noop by now right. exact U.
    + unfold step, call. rewrite snd_bind. unfold ret. simpl snd.
      rewrite confirmSelection_nothing by exact Hc. now apply unselected_effect.
    + unfold step, call. rewrite snd_bind. unfold returning. rewrite snd_bind.
      unfold ret. simpl snd. apply preserves_repeatM; [|exact U].
      intros s0 (He0 & U0). unfold handleMapClick, bind, gets. rewrite He0.
      simpl. now split.
    + unfold step, call. rewrite snd_bind. unfold returning. rewrite snd_bind.
      unfold ret. simpl snd. apply preserves_repeatM; [|exact U].
      intros s0 U0. rewrite snd_bind. unfold ret. simpl snd.
      rewrite confirmSelection_nothing by apply U0.
      now apply unselected_effect.
  - apply orb_false_elim in Hk as [Hk Hi]. apply orb_false_elim in Hk as [Hs Hc].
    apply (preserves_step unselected); [|exact U].
    apply preserves_call; try assumption; untouched; try congruence.
    all: try (apply unselected_effect; [reflexivity | assumption]).
Qed.

(** X9. Without a call of [setupSelector] nothing is ever selected: after
    any sequence of other calls and events, clicks and [placeSelector]
    included, the selector is off, there is no selector marker and no
    selected point, reading the selection and confirming it give null, and
    no callback was invoked. *)
Theorem selection_needs_setupSelector
  (options : ConfigOptions) (ops : list Op) (now : string) :
  forallb (fun op => negb (is_setupSelector op)) ops = true ->
  isSelectorEnabled (run ops (new options)) = false
  /\ selectorMarker (run ops (new options)) = None
  /\ selectedCoords (run ops (new options)) = None
  /\ fst (getSelectedCoordinates now (run ops (new options))) = None
  /\ fst (confirmSelection now (run ops (new options))) = None
  /\ countEffects is_invocation (trace (run ops (new options))) = 0%nat.
Proof.
  intros Hops.
  assert (U : unselected (run ops (new options))).
  { assert (U0 : unselected (new options)) by now repeat split.
    revert U0 Hops. generalize (new options).
    induction ops as [|op ops IH]; intros s U0 Hops; [exact U0|].
    simpl in Hops. apply andb_prop in Hops as [Hop Hops].
    apply negb_true_iff in Hop.
    rewrite run_cons. apply IH; [|exact Hops]. now apply unselected_step. }
  destruct U as (He & Hm & Hc & Hcb & Hn).
  repeat split; try assumption.
  - unfold getSelectedCoordinates, bind, gets. now rewrite Hc.
  - now rewrite confirmSelection_nothing.
Qed.

End Sessions.
(* ------------------------------------------------------------------ *)
Section SelectionWorkflow.

#[local] Arguments truthy : simpl never.
#[local] Arguments parseFloat : simpl never.
#[local] Arguments buildSelectorPopup : simpl never.
#[local] Arguments LINKS_googleMaps : simpl never.
#[local] Arguments LINKS_openStreetMap : simpl never.

Lemma nullish_same (v : JsVal) : nullish v v = v.
Proof. now destruct v. Qed.

Lemma popup_bound (lat lng : JsVal) :
  boundPopup (Some (buildSelectorPopup lat lng)) = Some (buildSelectorPopup lat lng).
Proof. reflexivity. Qed.

(** The map of a session after [clearSelector]: its layers apart, it is as
    before. *)
Lemma clearSelector_map (s : OpenStreetMap) (m : LeafletMap) :
  map s = Some m ->
  exists m',
    map (snd (clearSelector s)) = Some m'
    /\ clickListeners m' = clickListeners m
    /\ confirmListeners m' = confirmListeners m
    /\ viewLog m' = viewLog m
    /\ geocoders m' = geocoders m
    /\ container m' = container m.
Proof.
  intros Hm. destruct (selectorMarker s) as [h|] eqn:Hs.
  - rewrite (clearSelector_eq s m h Hm Hs). simpl. eexists. now repeat split.
  - rewrite clearSelector_noop by now right. simpl. exists m. now repeat split.
Qed.

Lemma clearSelector_fields (s : OpenStreetMap) :
  config (snd (clearSelector s)) = config s
  /\ isSelectorEnabled (snd (clearSelector s)) = isSelectorEnabled s
  /\ onSelectCallback (snd (clearSelector s)) = onSelectCallback s
  /\ markers (snd (clearSelector s)) = markers s
  /\ circles (snd (clearSelector s)) = circles s
  /\ routeLayers (snd (clearSelector s)) = routeLayers s
  /\ objects (snd (clearSelector s)) = objects s
  /\ trace (snd (clearSelector s)) = trace s.
Proof.
  destruct (map s) as [m|] eqn:Hm; [destruct (selectorMarker s) as [h|] eqn:Hs|].
  - rewrite (clearSelector_eq s m h Hm Hs). now repeat split.
  - rewrite clearSelector_noop by now right. now repeat split.
  - rewrite clearSelector_noop by now left. now repeat split.
Qed.

(** What [placeSelector] leaves on a session whose selector is enabled,
    field by field. *)
Lemma placeSelector_fields (lat lng : JsVal) (icon : option string)
  (s : OpenStreetMap) (m : LeafletMap) :
  map s = Some m -> isSelectorEnabled s = true ->
  let s' := snd (placeSelector lat lng icon s) in
  let h := List.length (objects s) in
  selectorMarker s' = Some h
  /\ selectedCoords s' = Some (lat, lng)
  /\ In h (surface s')
  /\ layerAt s' h
     = Some (Marker (nullish lat (cfg_lat (config s))) (nullish lng (cfg_lng (config s)))
               (default (cfg_selectorIcon (config s)) icon)
               (Some (buildSelectorPopup lat lng)))
  /\ markers s' = markers s ++ [h]
  /\ config s' = config s
  /\ isSelectorEnabled s' = true
  /\ onSelectCallback s' = onSelectCallback s
  /\ trace s' = trace s
  /\ exists m',
       map s' = Some m'
       /\ clickListeners m' = clickListeners m
       /\ confirmListeners m' = confirmListeners m
       /\ viewLog m' = viewLog m.
Proof.
  intros Hm He s' h. unfold s', h.
  rewrite (placeSelector_eq lat lng icon s m Hm He). simpl snd.
  destruct (clearSelector_fields s) as (Fc & Fe & Fcb & Fm & _ & _ & Fo & Ft).
  destruct (clearSelector_map s m Hm) as (m' & Hm' & L1 & L2 & L3 & _).
  set (sA := snd (clearSelector s)) in *.
  rewrite Fo, Fc, Fm. simpl.
  split; [reflexivity|]. split; [reflexivity|].
  split.
  { unfold surface. simpl. rewrite Hm'. simpl. rewrite Fo. apply In_addLayer_same. }
  split.
  { unfold layerAt. simpl. rewrite Fo.
    rewrite nth_error_app2 by lia. now rewrite Nat.sub_diag. }
  split; [reflexivity|]. split; [exact Fc|]. split; [now rewrite Fe|].
  split; [exact Fcb|]. split; [exact Ft|].
  rewrite Hm'. simpl. eexists. split; [reflexivity|]. simpl. now repeat split.
Qed.

Lemma setupSelector_eq (f : OnSelect) (s : OpenStreetMap) (m : LeafletMap) :
  map s = Some m ->
  setupSelector f s
  = placeSelector (cfg_lat (config s)) (cfg_lng (config s)) None
      (set_map (Some (addSelectorListeners m))
         (set_selector true
            match f with
            | OnSelectOmitted => Some DefaultNoop
            | OnSelectNull => None
            | OnSelectFn id => Some (UserCallback id)
            end s)).
Proof.
  intros Hm. unfold setupSelector. unfold bind at 1.
  rewrite (requireMap_some s m Hm). cbn [negb]. cbv iota.
  unfold bind at 1. unfold modify at 1. unfold bind at 1. unfold onMap, modify.
  simpl map. rewrite Hm. reflexivity.
Qed.

(** What [setupSelector] leaves on an initialised session. *)
Lemma setupSelector_selects_centre (f : OnSelect) (s : OpenStreetMap) (m : LeafletMap) :
  map s = Some m ->
  onSelectCallback (snd (setupSelector f s))
  = match f with
    | OnSelectOmitted => Some DefaultNoop
    | OnSelectNull => None
    | OnSelectFn id => Some (UserCallback id)
    end
  /\ selectedCoords (snd (setupSelector f s))
     = Some (cfg_lat (config s), cfg_lng (config s))
  /\ isSelectorEnabled (snd (setupSelector f s)) = true
  /\ trace (snd (setupSelector f s)) = trace s
  /\ exists m',
       map (snd (setupSelector f s)) = Some m'
       /\ confirmListeners m' = S (confirmListeners m)
       /\ clickListeners m' = S (clickListeners m).
Proof.
  intros Hm. rewrite (setupSelector_eq f s m Hm).
  match goal with |- context [placeSelector ?a ?b ?c ?s1] =>
    destruct (placeSelector_fields a b c s1 (addSelectorListeners m) eq_refl eq_refl)
      as (_ & P2 & _ & _ & _ & _ & P7 & P8 & P9 & (m' & Q1 & Q2 & Q3 & _))
  end.
  split; [exact P8|]. split; [exact P2|]. split; [exact P7|]. split; [exact P9|].
  exists m'. split; [exact Q1|]. split; [exact Q3 | exact Q2].
Qed.

(** X10. On an initialised session [setupSelector] switches the selector
    on, registers the callback (none for [null]), adds one click listener
    and one listener for the confirm button, and selects the configured
    centre at once: the selector marker stands there, with the selector
    icon and its popup, and a confirmation right after returns that
    point. *)
Theorem setupSelector_selects_configured_centre
  (f : OnSelect) (now : string) (s : OpenStreetMap) :
  isInitialized s = true ->
  isSelectorEnabled (snd (setupSelector f s)) = true
  /\ onSelectCallback (snd (setupSelector f s))
     = match f with
       | OnSelectOmitted => Some DefaultNoop
       | OnSelectNull => None
       | OnSelectFn id => Some (UserCallback id)
       end
  /\ selectedCoords (snd (setupSelector f s))
     = Some (cfg_lat (config s), cfg_lng (config s))
  /\ (exists h,
        selectorMarker (snd (setupSelector f s)) = Some h
        /\ In h (surface (snd (setupSelector f s)))
        /\ layerAt (snd (setupSelector f s)) h
           = Some (Marker (cfg_lat (config s)) (cfg_lng (config s))
                     (cfg_selectorIcon (config s))
                     (Some (buildSelectorPopup (cfg_lat (config s))
                              (cfg_lng (config s))))))
  /\ (exists m m',
        map s = Some m /\ map (snd (setupSelector f s)) = Some m'
        /\ clickListeners m' = S (clickListeners m)
        /\ confirmListeners m' = S (confirmListeners m))
  /\ (exists p,
        fst (confirmSelection now (snd (setupSelector f s))) = Some p
        /\ sp_lat p = parseFloat (cfg_lat (config s))
        /\ sp_lng p = parseFloat (cfg_lng (config s))).
Proof.
  intros Hi. destruct (isInitialized_map s Hi) as [m Hm].
  rewrite (setupSelector_eq f s m Hm).
  match goal with |- context [placeSelector ?a ?b ?c ?s1] =>
    destruct (placeSelector_fields a b c s1 (addSelectorListeners m) eq_refl eq_refl)
      as (P1 & P2 & P3 & P4 & _ & _ & P7 & P8 & _ & (m' & Q1 & Q2 & Q3 & _));
    set (s' := snd (placeSelector a b c s1)) in *
  end.
  simpl in P4, P8. rewrite !nullish_same in P4.
  split; [exact P7|]. split; [exact P8|]. split; [exact P2|].
  split; [eexists; repeat split; eassumption|].
  split; [exists m, m'; repeat split; assumption|].
  unfold confirmSelection, getSelectedCoordinates, bind, gets. rewrite P2.
  simpl. eexists. split; [destruct (onSelectCallback s'); reflexivity|].
  split; reflexivity.
Qed.

Lemma step_setupSelector (f : OnSelect) (s : OpenStreetMap) :
  step (OpSetupSelector f) s = snd (setupSelector f s).
Proof. unfold step, call, returning. now rewrite snd_bind. Qed.

Lemma step_confirmClick (now : string) (s : OpenStreetMap) (m : LeafletMap) :
  map s = Some m ->
  step (EvConfirmClick now) s
  = snd (repeatM (confirmListeners m) (_ <- confirmSelection now ;; ret tt) s).
Proof.
  intros Hm. unfold step, call. rewrite snd_bind. unfold returning.
  rewrite snd_bind. unfold ret, gets. simpl. now rewrite Hm.
Qed.

Lemma step_confirmSelection (now : string) (s : OpenStreetMap) :
  step (OpConfirmSelection now) s = snd (confirmSelection now s).
Proof. unfold step, call. rewrite snd_bind. reflexivity. Qed.

Lemma confirmSelection_invokes (now : string) (s : OpenStreetMap)
  (c : JsVal * JsVal) (f : Callback) :
  selectedCoords s = Some c -> onSelectCallback s = Some f ->
  exists p, snd (confirmSelection now s)
            = set_trace (CallbackInvoked f p :: trace s) s.
Proof.
  intros Hc Hf. unfold confirmSelection, getSelectedCoordinates, bind, gets.
  rewrite Hc. destruct c as [lat lng]. simpl. rewrite Hf. simpl.
  eexists. reflexivity.
Qed.

(** Every listener of the confirm button runs [confirmSelection]. *)
Lemma confirm_repeat (n : nat) (now : string) (s : OpenStreetMap)
  (c : JsVal * JsVal) (f : Callback) :
  selectedCoords s = Some c -> onSelectCallback s = Some f ->
  countEffects is_invocation
    (trace (snd (repeatM n (_ <- confirmSelection now ;; ret tt) s)))
  = (n + countEffects is_invocation (trace s))%nat.
Proof.
  revert s. induction n as [|n IH]; intros s Hc Hf; [reflexivity|].
  simpl repeatM. rewrite snd_bind, snd_bind. unfold ret at 1. simpl snd.
  destruct (confirmSelection_invokes now s c f Hc Hf) as [p Hp].
  rewrite IH; rewrite Hp; try assumption.
  simpl. unfold countEffects. simpl. lia.
Qed.

(** X11. Each call of [setupSelector] adds a listener of its own: after
    [initMap] and [k] calls of [setupSelector] with a callback, one click
    on the confirm button of the popup invokes the callback [k] times,
    while one call of [confirmSelection] invokes it once. *)
Theorem confirm_click_invokes_once_per_setupSelector
  (options : ConfigOptions) (p : InitParams) (k id : nat) (now : string) :
  countEffects is_invocation
    (trace (step (EvConfirmClick now)
              (run (OpInitMap p :: repeat (OpSetupSelector (OnSelectFn id)) k)
                 (new options))))
  = k
  /\ countEffects is_invocation
       (trace (step (OpConfirmSelection now)
                 (run (OpInitMap p :: repeat (OpSetupSelector (OnSelectFn id)) k)
                    (new options))))
     = (if (k =? 0)%nat then 0 else 1)%nat.
Proof.
  set (sk := fun k => run (OpInitMap p :: repeat (OpSetupSelector (OnSelectFn id)) k)
                        (new options)).
  assert (J : forall k,
             exists m, map (sk k) = Some m /\ confirmListeners m = k
               /\ trace (sk k) = []
               /\ match k with
                  | O => selectedCoords (sk k) = None
                  | S _ => (exists c, selectedCoords (sk k) = Some c)
                           /\ onSelectCallback (sk k) = Some (UserCallback id)
                  end).
  { clear k. induction k as [|k IH].
    - unfold sk. simpl repeat. rewrite run_cons. simpl run.
      rewrite step_initMap, initMap_eq. simpl.
      eexists. split; [reflexivity|]. now repeat split.
    - destruct IH as (m & Hm & Hl & Ht & _).
      assert (E : sk (S k) = step (OpSetupSelector (OnSelectFn id)) (sk k)).
      { unfold sk. simpl repeat. rewrite repeat_cons, app_comm_cons.
        apply run_snoc. }
      rewrite E, step_setupSelector.
      assert (Hi : isInitialized (sk k) = true)
        by (unfold isInitialized; now rewrite Hm).
      destruct (setupSelector_selects_centre (OnSelectFn id) (sk k) m Hm)
        as (A & B & C & D & (m' & Q1 & Q2 & _)).
      exists m'. split; [exact Q1|]. split; [lia|]. split; [congruence|].
      split; [eexists; exact B | exact A]. }
  fold (sk k). destruct (J k) as (m & Hm & Hl & Ht & Hs).
  rewrite (step_confirmClick now (sk k) m Hm), step_confirmSelection, Hl.
  destruct k as [|k].
  - rewrite confirmSelection_nothing by exact Hs.
    remember (sk 0%nat) as s0. simpl. rewrite Ht. now split.
  - destruct Hs as [[c Hc] Hf]. rewrite (confirm_repeat _ now (sk (S k)) c _ Hc Hf).
    destruct (confirmSelection_invokes now (sk (S k)) c _ Hc Hf) as [q ->].
    remember (sk (S k)) as s1. simpl. rewrite Ht.
    split; [unfold countEffects; simpl; lia | reflexivity].
Qed.

(** X12. In a state reached by calls and events on an initialised session,
    [clearSelector] leaves no selector marker and no selected point: the
    marker it held is off the surface, the registries, the route entries
    and the object store are as before, and a confirmation right after
    shows the notice and returns null. *)
Theorem clearSelector_discards_selection
  (options : ConfigOptions) (ops : list Op) (now : string) :
  isInitialized (run ops (new options)) = true ->
  selectorMarker (snd (clearSelector (run ops (new options)))) = None
  /\ selectedCoords (snd (clearSelector (run ops (new options)))) = None
  /\ (forall h, selectorMarker (run ops (new options)) = Some h ->
        ~ In h (surface (snd (clearSelector (run ops (new options))))))
  /\ markers (snd (clearSelector (run ops (new options))))
     = markers (run ops (new options))
  /\ circles (snd (clearSelector (run ops (new options))))
     = circles (run ops (new options))
  /\ routeLayers (snd (clearSelector (run ops (new options))))
     = routeLayers (run ops (new options))
  /\ objects (snd (clearSelector (run ops (new options))))
     = objects (run ops (new options))
  /\ confirmSelection now (snd (clearSelector (run ops (new options))))
     = (None,
        set_trace
          (Alert "❌ Primero selecciona un punto en el mapa"
           :: trace (run ops (new options)))
          (snd (clearSelector (run ops (new options))))).
Proof.
  intros Hi. pose proof (wf_run ops (new options) (wf_new options)) as W.
  set (s := run ops (new options)) in *.
  destruct (isInitialized_map s Hi) as [m Hm].
  destruct (clearSelector_after s m Hm) as (m' & _ & Hsel & _ & Hoff).
  destruct (clearSelector_fields s) as (_ & _ & _ & Fm & Fc & Fr & Fo & Ft).
  assert (Hc : selectedCoords (snd (clearSelector s)) = None).
  { destruct (selectorMarker s) as [h|] eqn:Hs.
    - now rewrite (clearSelector_eq s m h Hm Hs).
    - rewrite clearSelector_noop by now right. now apply (wf_sel_coords s W). }
  repeat (split; [assumption|]).
  rewrite confirmSelection_nothing by exact Hc. now rewrite Ft.
Qed.

(** X13. A click on a session whose selector is enabled selects the
    clicked point rounded to 8 decimals: the coordinates are stored as the
    strings [toFixed(8)] prints, and [getSelectedCoordinates] reads them
    back as numbers within half a unit of the eighth decimal of the
    clicked ones. *)
Theorem click_selects_rounded_point (x y : R) (now : string) (s : OpenStreetMap) :
  isInitialized s = true -> isSelectorEnabled s = true ->
  selectedCoords
    (snd (handleMapClick {| click_lat := Some (Fin x); click_lng := Some (Fin y) |} s))
  = Some (VFixed 8 (Fin x), VFixed 8 (Fin y))
  /\ exists p lat lng,
       fst (getSelectedCoordinates now
              (snd (handleMapClick
                      {| click_lat := Some (Fin x); click_lng := Some (Fin y) |} s)))
       = Some p
       /\ sp_lat p = Fin lat /\ sp_lng p = Fin lng
       /\ Rabs (lat - x) <= 5 / 10 ^ 9 /\ Rabs (lng - y) <= 5 / 10 ^ 9
       /\ sp_formatted p
          = ($(VFixed 8 (Fin x)) +++ '", " +++ $(VFixed 8 (Fin y)))%text.
Proof.
  intros Hi He. destruct (isInitialized_map s Hi) as [m Hm].
  assert (E : handleMapClick {| click_lat := Some (Fin x); click_lng := Some (Fin y) |} s
              = placeSelector (VFixed 8 (Fin x)) (VFixed 8 (Fin y)) None s).
  { unfold handleMapClick, bind, gets. now rewrite He. }
  rewrite E.
  destruct (placeSelector_fields (VFixed 8 (Fin x)) (VFixed 8 (Fin y)) None s m Hm He)
    as (_ & P2 & _).
  split; [exact P2|].
  assert (Hb : / 2 * / 10 ^ 8 = 5 / 10 ^ 9) by (simpl; lra).
  rewrite <- Hb.
  unfold getSelectedCoordinates, bind, gets, ret. rewrite P2.
  cbv beta iota. cbn [fst].
  eexists. exists (roundFixed 8 x), (roundFixed 8 y).
  split; [reflexivity|]. cbn [sp_lat sp_lng sp_formatted].
  split; [reflexivity|]. split; [reflexivity|].
  split; [apply roundFixed_error|]. split; [apply roundFixed_error | reflexivity].
Qed.

Lemma step_click (e : ClickEvent) (s : OpenStreetMap) (m : LeafletMap) :
  map s = Some m ->
  step (EvClick e) s = snd (repeatM (clickListeners m) (handleMapClick e) s).
Proof.
  intros Hm. unfold step, call. rewrite snd_bind. unfold returning.
  rewrite snd_bind. unfold ret, gets. simpl. now rewrite Hm.
Qed.

Lemma repeatM_once (m : M unit) (s : OpenStreetMap) :
  snd (repeatM 1 m s) = snd (m s).
Proof. simpl repeatM. rewrite snd_bind. reflexivity. Qed.

(** A click heard by one listener, on a session whose selector is
    enabled. *)
Lemma step_click_once (lat lng : Num) (s : OpenStreetMap) (m : LeafletMap) :
  map s = Some m -> clickListeners m = 1%nat -> isSelectorEnabled s = true ->
  step (EvClick {| click_lat := Some lat; click_lng := Some lng |}) s
  = snd (placeSelector (VFixed 8 lat) (VFixed 8 lng) None s).
Proof.
  intros Hm Hl He. rewrite (step_click _ s m Hm), Hl, repeatM_once.
  unfold handleMapClick, bind, gets. now rewrite He.
Qed.

(** A click on the confirm button heard by one listener, with a point
    selected and a callback registered. *)
Lemma step_confirmClick_once (now : string) (s : OpenStreetMap) (m : LeafletMap)
  (lat lng : JsVal) (f : Callback) :
  map s = Some m -> confirmListeners m = 1%nat ->
  selectedCoords s = Some (lat, lng) -> onSelectCallback s = Some f ->
  trace (step (EvConfirmClick now) s)
  = CallbackInvoked f
      {| sp_lat := parseFloat lat;
         sp_lng := parseFloat lng;
         sp_timestamp := now;
         sp_formatted := ($lat +++ '", " +++ $lng)%text;
         sp_googleMapsUrl := LINKS_googleMaps lat lng;
         sp_openStreetMapUrl := LINKS_openStreetMap lat lng |}
    :: trace s.
Proof.
  intros Hm Hl Hc Hf. rewrite (step_confirmClick now s m Hm), Hl, repeatM_once.
  rewrite snd_bind. unfold ret. cbn [snd].
  unfold confirmSelection, getSelectedCoordinates, bind, gets, ret.
  rewrite Hc. cbv beta iota. rewrite Hf. reflexivity.
Qed.

(** X14. The selection workflow from end to end: after [initMap] and
    [setupSelector] with a callback, a click on the map followed by a click
    on the confirm button invokes the callback once, with the clicked point
    rounded to 8 decimals and the time of the confirmation. *)
Theorem click_then_confirm_reports_point
  (options : ConfigOptions) (p : InitParams) (id : nat) (x y : R) (now : string) :
  exists pt,
    trace (run [ OpInitMap p; OpSetupSelector (OnSelectFn id);
                 EvClick {| click_lat := Some (Fin x); click_lng := Some (Fin y) |};
                 EvConfirmClick now ] (new options))
    = [CallbackInvoked (UserCallback id) pt]
    /\ sp_lat pt = Fin (roundFixed 8 x) /\ sp_lng pt = Fin (roundFixed 8 y)
    /\ Rabs (roundFixed 8 x - x) <= 5 / 10 ^ 9
    /\ Rabs (roundFixed 8 y - y) <= 5 / 10 ^ 9
    /\ sp_timestamp pt = now.
Proof.
  assert (Hb : / 2 * / 10 ^ 8 = 5 / 10 ^ 9) by (simpl; lra).
  rewrite <- Hb. clear Hb.
  rewrite !run_cons. change (run [] ?s) with s.
  remember (step (OpInitMap p) (new options)) as s1 eqn:E1.
  assert (I1 : exists m1, map s1 = Some m1 /\ clickListeners m1 = 0%nat
                          /\ confirmListeners m1 = 0%nat /\ trace s1 = []).
  { rewrite E1, step_initMap, initMap_eq. cbn [snd].
    eexists. split; [reflexivity|]. now repeat split. }
  clear E1. destruct I1 as (m1 & Hm1 & K1 & C1 & T1).
  rewrite step_setupSelector.
  destruct (setupSelector_selects_centre (OnSelectFn id) s1 m1 Hm1)
    as (Hcb & _ & He & T2 & (m2 & Hm2 & C2 & K2)).
  remember (snd (setupSelector (OnSelectFn id) s1)) as s2 eqn:E2. clear E2.
  rewrite K1 in K2. rewrite C1 in C2.
  rewrite (step_click_once (Fin x) (Fin y) s2 m2 Hm2 K2 He).
  destruct (placeSelector_fields (VFixed 8 (Fin x)) (VFixed 8 (Fin y)) None s2 m2 Hm2 He)
    as (_ & P2 & _ & _ & _ & _ & _ & P8 & P9 & (m3 & Hm3 & _ & C3 & _)).
  remember (snd (placeSelector (VFixed 8 (Fin x)) (VFixed 8 (Fin y)) None s2))
    as s3 eqn:E3.
  clear E3. rewrite C2 in C3. rewrite Hcb in P8.
  rewrite (step_confirmClick_once now s3 m3 _ _ _ Hm3 C3 P2 P8).
  rewrite P9, T2, T1.
  eexists. split; [reflexivity|]. cbn [sp_lat sp_lng sp_timestamp].
  split; [reflexivity|]. split; [reflexivity|].
  split; [apply roundFixed_error|]. split; [apply roundFixed_error | reflexivity].
Qed.

End SelectionWorkflow.
(* ------------------------------------------------------------------ *)
Section Routes.

#[local] Arguments haversineDistance : simpl never.
#[local] Arguments truthy : simpl never.
#[local] Arguments parseFloat : simpl never.
#[local] Arguments ToNumber : simpl never.
#[local] Arguments osrmUrl : simpl never.
#[local] Arguments toFixedDiv : simpl never.
#[local] Arguments String.eqb : simpl never.

Variable fetch : Text -> FetchOutcome.

Lemma set_trace_placed (l : Layer) (s : OpenStreetMap) :
  set_trace (trace s) (placed l s) = placed l s.
Proof. reflexivity. Qed.

(** The first steps of [drawRoute] on an initialised session with endpoints
    that pass its test: the two markers are placed, and the path is still
    to be drawn. *)
Lemma drawRoute_markers_placed (o d : Endpoint) (opts : RouteOptions)
  (s : OpenStreetMap) (m : LeafletMap) :
  map s = Some m -> validEndpoints o d = true ->
  let s1 := snd (addMarker (ep_lat o) (ep_lng o)
                   (Some (default "🏠" (ep_icon o))) (ep_popup o) s) in
  let s2 := snd (addMarker (ep_lat d) (ep_lng d)
                   (Some (default "📦" (ep_icon d))) (ep_popup d) s1) in
  let ho := List.length (objects s) in
  let hd := List.length (objects s1) in
  drawRoute fetch (Some o) (Some d) opts s
  = (result <-
       (if default false (ro_useRoadRoute opts) then
          r <- fetchRoadRoute fetch o d (lineStyleOf opts) ;;
          match r with
          | Some result => ret result
          | None =>
              emit (ConsoleWarn
                "OpenStreetMap: OSRM falló, usando línea recta como fallback.") ;;;
              buildStraightRoute o d (lineStyleOf opts)
          end
        else buildStraightRoute o d (lineStyleOf opts)) ;;
     modify (fun s =>
               set_routeLayers
                 (routeLayers s ++
                    [ {| rl_polyline := fst result;
                         rl_originMarker := Some ho;
                         rl_destinationMarker := Some hd |} ])
                 s) ;;;
     when (default true (ro_fitBounds opts))
       (onMap (pushView (FitBounds (BoundsOfPath (fst result)) (Some (30, 30)%nat)))) ;;;
     ret (Some {| rr_data := snd result;
                  rr_originMarker := Some ho;
                  rr_destinationMarker := Some hd;
                  rr_polyline := fst result |})) s2.
Proof.
  intros Hm Hv s1 s2 ho hd.
  assert (Hm1 : map s1 = Some (addLayer ho m)).
  { unfold s1. rewrite (addMarker_eq _ _ _ _ s m Hm). simpl. now rewrite Hm. }
  assert (E1 : addMarker (ep_lat o) (ep_lng o) (Some (default "🏠" (ep_icon o)))
                 (ep_popup o) s = (Some ho, s1)).
  { unfold s1. now rewrite (addMarker_eq _ _ _ _ s m Hm). }
  assert (E2 : addMarker (ep_lat d) (ep_lng d) (Some (default "📦" (ep_icon d)))
                 (ep_popup d) s1 = (Some hd, s2)).
  { unfold s2. now rewrite (addMarker_eq _ _ _ _ s1 _ Hm1). }
  unfold drawRoute. unfold bind at 1. rewrite (requireMap_some s m Hm).
  cbn [negb]. cbv beta iota. rewrite (validEndpoints_guard o d Hv). cbv iota.
  unfold bind at 1. rewrite E1. unfold bind at 1. rewrite E2.
  reflexivity.
Qed.

(** ... and the route is recorded once the path is drawn. *)
Lemma drawRoute_with_path (o d : Endpoint) (opts : RouteOptions)
  (s : OpenStreetMap) (m : LeafletMap) (data : RouteData) (l : Layer)
  (t : list Effect) :
  map s = Some m -> validEndpoints o d = true ->
  let s1 := snd (addMarker (ep_lat o) (ep_lng o)
                   (Some (default "🏠" (ep_icon o))) (ep_popup o) s) in
  let s2 := snd (addMarker (ep_lat d) (ep_lng d)
                   (Some (default "📦" (ep_icon d))) (ep_popup d) s1) in
  let ho := List.length (objects s) in
  let hd := List.length (objects s1) in
  let hp := List.length (objects s2) in
  (if default false (ro_useRoadRoute opts) then
     r <- fetchRoadRoute fetch o d (lineStyleOf opts) ;;
     match r with
     | Some result => ret result
     | None =>
         emit (ConsoleWarn
           "OpenStreetMap: OSRM falló, usando línea recta como fallback.") ;;;
         buildStraightRoute o d (lineStyleOf opts)
     end
   else buildStraightRoute o d (lineStyleOf opts)) s2
  = ((hp, data), set_trace t (placed l s2)) ->
  drawRoute fetch (Some o) (Some d) opts s
  = (Some {| rr_data := data; rr_originMarker := Some ho;
             rr_destinationMarker := Some hd; rr_polyline := hp |},
     recordRoute (default true (ro_fitBounds opts))
       {| rl_polyline := hp; rl_originMarker := Some ho;
          rl_destinationMarker := Some hd |}
       (set_trace t (placed l s2))).
Proof.
  intros Hm Hv s1 s2 ho hd hp Hstep.
  rewrite (drawRoute_markers_placed o d opts s m Hm Hv).
  fold s1. fold s2. unfold bind at 1. rewrite Hstep.
  unfold recordRoute, bind, modify, when, onMap, modify, ret. simpl.
  destruct (default true (ro_fitBounds opts)); reflexivity.
Qed.

(** The session once the two endpoint markers are placed. *)
Lemma endpoint_markers_state (o d : Endpoint) (s : OpenStreetMap) (m : LeafletMap) :
  map s = Some m ->
  let s1 := snd (addMarker (ep_lat o) (ep_lng o)
                   (Some (default "🏠" (ep_icon o))) (ep_popup o) s) in
  let s2 := snd (addMarker (ep_lat d) (ep_lng d)
                   (Some (default "📦" (ep_icon d))) (ep_popup d) s1) in
  map s2 = Some (addLayer (List.length (objects s1))
                   (addLayer (List.length (objects s)) m))
  /\ trace s2 = trace s
  /\ objects s1
     = objects s ++ [markerFor (config s) (ep_lat o) (ep_lng o)
                       (Some (default "🏠" (ep_icon o))) (ep_popup o)]
  /\ objects s2
     = objects s1 ++ [markerFor (config s) (ep_lat d) (ep_lng d)
                        (Some (default "📦" (ep_icon d))) (ep_popup d)]
  /\ markers s2 = markers s ++ [List.length (objects s); List.length (objects s1)]
  /\ circles s2 = circles s
  /\ routeLayers s2 = routeLayers s.
Proof.
  intros Hm s1 s2.
  assert (E1 : s1 = set_markers (markers s ++ [List.length (objects s)])
                      (placed (markerFor (config s) (ep_lat o) (ep_lng o)
                                 (Some (default "🏠" (ep_icon o))) (ep_popup o)) s)).
  { unfold s1. now rewrite (addMarker_eq _ _ _ _ s m Hm). }
  assert (M1 : map s1 = Some (addLayer (List.length (objects s)) m)).
  { rewrite E1. simpl. now rewrite Hm. }
  assert (E2 : s2 = set_markers (markers s1 ++ [List.length (objects s1)])
                      (placed (markerFor (config s1) (ep_lat d) (ep_lng d)
                                 (Some (default "📦" (ep_icon d))) (ep_popup d)) s1)).
  { unfold s2. now rewrite (addMarker_eq _ _ _ _ s1 _ M1). }
  assert (C1 : config s1 = config s) by now rewrite E1.
  split; [rewrite E2; simpl; now rewrite M1|].
  split; [rewrite E2; simpl; now rewrite E1|].
  split; [now rewrite E1|].
  split; [rewrite E2; simpl; now rewrite C1|].
  split; [rewrite E2; simpl; rewrite E1 at 1; simpl; now rewrite <- app_assoc|].
  split; rewrite E2; simpl; now rewrite E1.
Qed.

Lemma validEndpoints_truthy (o d : Endpoint) :
  validEndpoints o d = true ->
  truthy (ep_lat o) = true /\ truthy (ep_lng o) = true
  /\ truthy (ep_lat d) = true /\ truthy (ep_lng d) = true.
Proof.
  unfold validEndpoints. intros H.
  apply andb_prop in H as [H H4]. apply andb_prop in H as [H H3].
  apply andb_prop in H as [H1 H2]. auto.
Qed.

(** [drawRoute] in straight mode. *)
Lemma drawRoute_straight_eq (o d : Endpoint) (opts : RouteOptions)
  (s : OpenStreetMap) (m : LeafletMap) :
  map s = Some m -> validEndpoints o d = true ->
  ro_useRoadRoute opts <> Some true ->
  let s1 := snd (addMarker (ep_lat o) (ep_lng o)
                   (Some (default "🏠" (ep_icon o))) (ep_popup o) s) in
  let s2 := snd (addMarker (ep_lat d) (ep_lng d)
                   (Some (default "📦" (ep_icon d))) (ep_popup d) s1) in
  let dist :=
    VNum (haversineDistance (ToNumber (ep_lat o)) (ToNumber (ep_lng o))
            (ToNumber (ep_lat d)) (ToNumber (ep_lng d))) in
  drawRoute fetch (Some o) (Some d) opts s
  = (Some {| rr_data :=
               {| distance := dist;
                  distanceKm := toFixedDiv 2 dist 1000;
                  duration := VNull;
                  durationMin := VNull;
                  route_type := straight |};
             rr_originMarker := Some (List.length (objects s));
             rr_destinationMarker := Some (List.length (objects s1));
             rr_polyline := List.length (objects s2) |},
     recordRoute (default true (ro_fitBounds opts))
       {| rl_polyline := List.length (objects s2);
          rl_originMarker := Some (List.length (objects s));
          rl_destinationMarker := Some (List.length (objects s1)) |}
       (set_trace (trace s2)
          (placed
             (Polyline
                [ (VNum (parseFloat (ep_lat o)), VNum (parseFloat (ep_lng o)));
                  (VNum (parseFloat (ep_lat d)), VNum (parseFloat (ep_lng d))) ]
                {| ls_color := ls_color (lineStyleOf opts);
                   ls_weight := ls_weight (lineStyleOf opts);
                   ls_opacity := ls_opacity (lineStyleOf opts);
                   ls_dashArray :=
                     match ls_dashArray (lineStyleOf opts) with
                     | Some da => if str_truthy da then Some da else Some "10, 8"
                     | None => Some "10, 8"
                     end |})
             s2))).
Proof.
  intros Hm Hv Hroad s1 s2 dist.
  assert (Huse : default false (ro_useRoadRoute opts) = false).
  { destruct (ro_useRoadRoute opts) as [[|]|]; try reflexivity. now elim Hroad. }
  apply (drawRoute_with_path o d opts s m _ _ _ Hm Hv).
  rewrite Huse. unfold buildStraightRoute, bind. rewrite newLayerOnMap_eq.
  unfold ret. now rewrite set_trace_placed.
Qed.

(** X15. By default [drawRoute] works offline.  On an initialised session,
    with endpoints that pass its test and [useRoadRoute] not set, it makes
    no request and logs nothing; the result is of type [straight] with null
    duration and the Haversine distance of the endpoints, [distanceKm]
    being a thousandth of it printed with 2 decimals; the path drawn on the
    surface joins the two endpoints and is dashed ([10, 8]) unless the
    options give a dash pattern. *)
Theorem drawRoute_straight_by_default
  (o d : Endpoint) (opts : RouteOptions) (s : OpenStreetMap) :
  isInitialized s = true ->
  validEndpoints o d = true ->
  ro_useRoadRoute opts <> Some true ->
  exists r s',
    drawRoute fetch (Some o) (Some d) opts s = (Some r, s')
    /\ route_type (rr_data r) = straight
    /\ duration (rr_data r) = VNull
    /\ durationMin (rr_data r) = VNull
    /\ distance (rr_data r)
       = VNum (haversineDistance (ToNumber (ep_lat o)) (ToNumber (ep_lng o))
                 (ToNumber (ep_lat d)) (ToNumber (ep_lng d)))
    /\ distanceKm (rr_data r)
       = VFixed 2
           (ndivc (haversineDistance (ToNumber (ep_lat o)) (ToNumber (ep_lng o))
                     (ToNumber (ep_lat d)) (ToNumber (ep_lng d))) 1000)
    /\ layerAt s' (rr_polyline r)
       = Some (Polyline
                 [ (VNum (parseFloat (ep_lat o)), VNum (parseFloat (ep_lng o)));
                   (VNum (parseFloat (ep_lat d)), VNum (parseFloat (ep_lng d))) ]
                 {| ls_color := default "#2C6B94" (ro_color opts);
                    ls_weight := default (Fin 5) (ro_weight opts);
                    ls_opacity := default (Fin 0.7) (ro_opacity opts);
                    ls_dashArray :=
                      match ro_dashArray opts with
                      | Some da => if str_truthy da then Some da else Some "10, 8"
                      | None => Some "10, 8"
                      end |})
    /\ In (rr_polyline r) (surface s')
    /\ trace s' = trace s.
Proof.
  intros Hi Hv Hroad. destruct (isInitialized_map s Hi) as [m Hm].
  destruct (endpoint_markers_state o d s m Hm) as (M2 & T2 & _ & _).
  rewrite (drawRoute_straight_eq o d opts s m Hm Hv Hroad).
  set (s2 := snd (addMarker (ep_lat d) _ _ _ _)) in *.
  match goal with |- context [recordRoute ?f ?r ?s3] =>
    pose proof (core_recordRoute f r s3) as C; set (s' := recordRoute f r s3) in *
  end.
  unfold core in C. injection C as Co Cs _ _ _ _ _.
  eexists. exists s'. split; [reflexivity|]. simpl.
  repeat apply conj; try reflexivity.
  - unfold layerAt. rewrite Co. simpl.
    rewrite nth_error_app2 by lia. rewrite Nat.sub_diag. simpl.
    do 3 f_equal. destruct (ro_dashArray opts) as [da|]; [|reflexivity].
    simpl. destruct (str_truthy da) eqn:E; [now rewrite E | reflexivity].
  - rewrite Cs. unfold surface. simpl. rewrite M2. apply In_addLayer_same.
  - unfold s', recordRoute. destruct (default true (ro_fitBounds opts)); simpl;
      exact T2.
Qed.

(** The request that fails: it is sent once, the failure is logged, and
    nothing is drawn. *)
Lemma fetchRoadRoute_fails (o d : Endpoint) (ls : LineStyle) (s : OpenStreetMap) :
  routingFails (fetch (osrmUrl o d)) = true ->
  exists logged,
    (logged = ConsoleWarn "OpenStreetMap: No se encontró una ruta entre los puntos."
     \/ logged = ConsoleError "OpenStreetMap: Error al calcular la ruta:")
    /\ fetchRoadRoute fetch o d ls s
       = (None, set_trace (logged :: FetchRequest (osrmUrl o d) :: trace s) s).
Proof.
  intros Hf. unfold fetchRoadRoute, bind, emit, modify.
  destruct (fetch (osrmUrl o d)) as [| | |[[|route rest]|]]; simpl in *;
    try (eexists; split; [|reflexivity]; auto; fail).
  destruct (osrm_geometry route) as [g|]; [discriminate Hf|].
  simpl. eexists; split; [|reflexivity]; auto.
Qed.

(** X29. The fall-back of a route by road.  On an initialised session, with
    endpoints that pass the test of [drawRoute], when the routing service
    fails (no answer, a body that is not JSON, no route, an unreadable
    geometry) the route is drawn as a straight line: the service is asked
    once, its failure and the fall-back are logged, and the call returns a
    result of type [straight] with null duration, the Haversine distance of
    the endpoints and [distanceKm] a thousandth of it printed with 2
    decimals; the path on the surface joins the two endpoints, dashed
    ([10, 8]) unless the options give a dash pattern; both endpoint markers
    are on the surface and in the route entry with the path. *)
Theorem drawRoute_fallback_draws_straight_line
  (o d : Endpoint) (opts : RouteOptions) (s : OpenStreetMap) :
  isInitialized s = true ->
  validEndpoints o d = true ->
  ro_useRoadRoute opts = Some true ->
  routingFails (fetch (osrmUrl o d)) = true ->
  exists r s' ho hd logged,
    drawRoute fetch (Some o) (Some d) opts s = (Some r, s')
    /\ route_type (rr_data r) = straight
    /\ duration (rr_data r) = VNull
    /\ durationMin (rr_data r) = VNull
    /\ distance (rr_data r)
       = VNum (haversineDistance (ToNumber (ep_lat o)) (ToNumber (ep_lng o))
                 (ToNumber (ep_lat d)) (ToNumber (ep_lng d)))
    /\ distanceKm (rr_data r)
       = VFixed 2
           (ndivc (haversineDistance (ToNumber (ep_lat o)) (ToNumber (ep_lng o))
                     (ToNumber (ep_lat d)) (ToNumber (ep_lng d))) 1000)
    /\ layerAt s' (rr_polyline r)
       = Some (Polyline
                 [ (VNum (parseFloat (ep_lat o)), VNum (parseFloat (ep_lng o)));
                   (VNum (parseFloat (ep_lat d)), VNum (parseFloat (ep_lng d))) ]
                 {| ls_color := default "#2C6B94" (ro_color opts);
                    ls_weight := default (Fin 5) (ro_weight opts);
                    ls_opacity := default (Fin 0.7) (ro_opacity opts);
                    ls_dashArray :=
                      match ro_dashArray opts with
                      | Some da => if str_truthy da then Some da else Some "10, 8"
                      | None => Some "10, 8"
                      end |})
    /\ In (rr_polyline r) (surface s')
    /\ rr_originMarker r = Some ho /\ rr_destinationMarker r = Some hd
    /\ In ho (surface s') /\ In hd (surface s')
    /\ layerAt s' ho
       = Some (Marker (ep_lat o) (ep_lng o) (default "🏠" (ep_icon o))
                 (boundPopup (ep_popup o)))
    /\ layerAt s' hd
       = Some (Marker (ep_lat d) (ep_lng d) (default "📦" (ep_icon d))
                 (boundPopup (ep_popup d)))
    /\ routeLayers s'
       = routeLayers s
         ++ [ {| rl_polyline := rr_polyline r; rl_originMarker := Some ho;
                 rl_destinationMarker := Some hd |} ]
    /\ (logged = ConsoleWarn "OpenStreetMap: No se encontró una ruta entre los puntos."
        \/ logged = ConsoleError "OpenStreetMap: Error al calcular la ruta:")
    /\ trace s'
       = ConsoleWarn "OpenStreetMap: OSRM falló, usando línea recta como fallback."
         :: logged :: FetchRequest (osrmUrl o d) :: trace s.
Proof.
  intros Hi Hv Hroad Hfail. destruct (isInitialized_map s Hi) as [m Hm].
  destruct (validEndpoints_truthy o d Hv) as (V1 & V2 & V3 & V4).
  destruct (endpoint_markers_state o d s m Hm) as (M2 & T2 & O1 & O2 & _ & _ & R2).
  set (s1 := snd (addMarker (ep_lat o) _ _ _ s)) in *.
  set (s2 := snd (addMarker (ep_lat d) _ _ _ s1)) in *.
  destruct (fetchRoadRoute_fails o d (lineStyleOf opts) s2 Hfail)
    as (logged & Hlog & Hfetch).
  assert (Hstep :
    (if default false (ro_useRoadRoute opts) then
       r <- fetchRoadRoute fetch o d (lineStyleOf opts) ;;
       match r with
       | Some result => ret result
       | None =>
           emit (ConsoleWarn
             "OpenStreetMap: OSRM falló, usando línea recta como fallback.") ;;;
           buildStraightRoute o d (lineStyleOf opts)
       end
     else buildStraightRoute o d (lineStyleOf opts)) s2
    = ((List.length (objects s2),
        {| distance :=
             VNum (haversineDistance (ToNumber (ep_lat o)) (ToNumber (ep_lng o))
                     (ToNumber (ep_lat d)) (ToNumber (ep_lng d)));
           distanceKm :=
             toFixedDiv 2
               (VNum (haversineDistance (ToNumber (ep_lat o)) (ToNumber (ep_lng o))
                        (ToNumber (ep_lat d)) (ToNumber (ep_lng d)))) 1000;
           duration := VNull; durationMin := VNull; route_type := straight |}),
       set_trace
         (ConsoleWarn "OpenStreetMap: OSRM falló, usando línea recta como fallback."
          :: logged :: FetchRequest (osrmUrl o d) :: trace s2)
         (placed
            (Polyline
               [ (VNum (parseFloat (ep_lat o)), VNum (parseFloat (ep_lng o)));
                 (VNum (parseFloat (ep_lat d)), VNum (parseFloat (ep_lng d))) ]
               {| ls_color := ls_color (lineStyleOf opts);
                  ls_weight := ls_weight (lineStyleOf opts);
                  ls_opacity := ls_opacity (lineStyleOf opts);
                  ls_dashArray :=
                    match ls_dashArray (lineStyleOf opts) with
                    | Some da => if str_truthy da then Some da else Some "10, 8"
                    | None => Some "10, 8"
                    end |})
            s2))).
  { rewrite Hroad. cbn [default]. unfold bind at 1. rewrite Hfetch.
    unfold bind at 1. unfold emit, modify. cbv beta iota.
    unfold buildStraightRoute, bind. rewrite newLayerOnMap_eq. reflexivity. }
  rewrite (drawRoute_with_path o d opts s m _ _ _ Hm Hv Hstep).
  fold s1. fold s2.
  match goal with |- context [recordRoute ?f ?r ?s3] =>
    pose proof (core_recordRoute f r s3) as C; set (s' := recordRoute f r s3) in *
  end.
  unfold core in C. injection C as Co Cs _ _ _ _ Cr.
  eexists. exists s', (List.length (objects s)), (List.length (objects s1)), logged.
  split; [reflexivity|]. cbn [rr_data rr_polyline rr_originMarker rr_destinationMarker
                              distance distanceKm duration durationMin route_type].
  repeat apply conj; try reflexivity; try exact Hlog.
  - unfold layerAt. rewrite Co. simpl.
    rewrite nth_error_app2 by lia. rewrite Nat.sub_diag. simpl.
    do 3 f_equal. destruct (ro_dashArray opts) as [da|]; [|reflexivity].
    simpl. destruct (str_truthy da) eqn:E; [now rewrite E | reflexivity].
  - rewrite Cs. unfold surface. simpl. rewrite M2. apply In_addLayer_same.
  - rewrite Cs. unfold surface. simpl. rewrite M2.
    apply In_addLayer_other, In_addLayer_other, In_addLayer_same.
  - rewrite Cs. unfold surface. simpl. rewrite M2.
    apply In_addLayer_other, In_addLayer_same.
  - unfold layerAt. rewrite Co. simpl. rewrite O2, O1.
    rewrite nth_error_app1 by (rewrite !length_app; simpl; lia).
    rewrite nth_error_app1 by (rewrite !length_app; simpl; lia).
    rewrite nth_error_app2 by lia. rewrite Nat.sub_diag. simpl.
    unfold markerFor. now rewrite !nullish_truthy by assumption.
  - unfold layerAt. rewrite Co. simpl. rewrite O2.
    rewrite nth_error_app1 by (rewrite !length_app; simpl; lia).
    rewrite nth_error_app2 by lia. rewrite Nat.sub_diag. simpl.
    unfold markerFor. now rewrite !nullish_truthy by assumption.
  - rewrite Cr. simpl. now rewrite R2.
  - unfold s', recordRoute. destruct (default true (ro_fitBounds opts)); simpl;
      now rewrite T2.
Qed.

(** X16. The [distanceKm] of a straight route is its distance in
    kilometres printed with 2 decimals: when the distance is a number,
    [distanceKm] denotes a number within 0.005 of a thousandth of it, and
    when the distance is not a number, neither is [distanceKm]. *)
Theorem drawRoute_straight_distanceKm
  (o d : Endpoint) (opts : RouteOptions) (s : OpenStreetMap) :
  isInitialized s = true ->
  validEndpoints o d = true ->
  ro_useRoadRoute opts <> Some true ->
  exists r s',
    drawRoute fetch (Some o) (Some d) opts s = (Some r, s')
    /\ (forall dist,
          distance (rr_data r) = VNum (Fin dist) ->
          exists km,
            parseFloat (distanceKm (rr_data r)) = Fin km
            /\ Rabs (km - dist / 1000) <= 5 / 1000)
    /\ (distance (rr_data r) = VNum NaN ->
        parseFloat (distanceKm (rr_data r)) = NaN).
Proof.
  intros Hi Hv Hroad. destruct (isInitialized_map s Hi) as [m Hm].
  rewrite (drawRoute_straight_eq o d opts s m Hm Hv Hroad).
  eexists. eexists. split; [reflexivity|]. cbn [rr_data distance distanceKm].
  split.
  - intros dist Hd. injection Hd as Hd. rewrite Hd.
    exists (roundFixed 2 (dist / 1000)). split; [reflexivity|].
    replace (5 / 1000) with (/ 2 * / 10 ^ 2) by (simpl; lra).
    apply roundFixed_error.
  - intros Hd. injection Hd as Hd. now rewrite Hd.
Qed.

(** X17. A route by road that the routing service finds: the request goes
    to the service once, with the longitude before the latitude of each
    endpoint; the result is of type [road] and reports the distance and the
    duration of the first route of the answer, with [distanceKm] a
    thousandth of the distance printed with 2 decimals and [durationMin] a
    sixtieth of the duration printed with 1 decimal; the path drawn is the
    geometry of that route with each pair turned from [lng, lat] into
    [lat, lng], in the style of the options and with no default dashes. *)
Theorem drawRoute_by_road
  (o d : Endpoint) (opts : RouteOptions) (s : OpenStreetMap)
  (route : OsrmRoute) (others : list OsrmRoute) (geometry : list (JsVal * JsVal)) :
  isInitialized s = true ->
  validEndpoints o d = true ->
  ro_useRoadRoute opts = Some true ->
  fetch (osrmUrl o d) = JsonBody (Some (route :: others)) ->
  osrm_geometry route = Some geometry ->
  exists r s',
    drawRoute fetch (Some o) (Some d) opts s = (Some r, s')
    /\ route_type (rr_data r) = road
    /\ distance (rr_data r) = osrm_distance route
    /\ duration (rr_data r) = osrm_duration route
    /\ distanceKm (rr_data r)
       = VFixed 2 (ndivc (ToNumber (osrm_distance route)) 1000)
    /\ durationMin (rr_data r)
       = VFixed 1 (ndivc (ToNumber (osrm_duration route)) 60)
    /\ layerAt s' (rr_polyline r)
       = Some (Polyline (List.map (fun '(lng, lat) => (lat, lng)) geometry)
                 {| ls_color := default "#2C6B94" (ro_color opts);
                    ls_weight := default (Fin 5) (ro_weight opts);
                    ls_opacity := default (Fin 0.7) (ro_opacity opts);
                    ls_dashArray :=
                      match ro_dashArray opts with
                      | Some da => if str_truthy da then Some da else None
                      | None => None
                      end |})
    /\ In (rr_polyline r) (surface s')
    /\ trace s' = FetchRequest (osrmUrl o d) :: trace s
    /\ osrmUrl o d
       = ('OSRM_URL +++ '"/" +++ $(ep_lng o) +++ '"," +++ $(ep_lat o)
          +++ '";" +++ $(ep_lng d) +++ '"," +++ $(ep_lat d)
          +++ '"?overview=full&geometries=geojson")%text.
Proof.
  intros Hi Hv Hroad Hfetch Hgeo. destruct (isInitialized_map s Hi) as [m Hm].
  destruct (endpoint_markers_state o d s m Hm) as (M2 & T2 & _ & _).
  erewrite (drawRoute_with_path o d opts s m _ _ _ Hm Hv).
  2: { rewrite Hroad. cbn [default]. unfold bind at 1.
       unfold fetchRoadRoute. cbv zeta. rewrite Hfetch, Hgeo.
       unfold bind, emit, modify. rewrite newLayerOnMap_eq. reflexivity. }
  set (s2 := snd (addMarker (ep_lat d) _ _ _ _)) in *.
  match goal with |- context [recordRoute ?f ?r ?s3] =>
    pose proof (core_recordRoute f r s3) as C; set (s' := recordRoute f r s3) in *
  end.
  unfold core in C. injection C as Co Cs _ _ _ _ _.
  eexists. exists s'. split; [reflexivity|]. simpl.
  repeat apply conj; try reflexivity.
  - unfold layerAt. rewrite Co. simpl.
    rewrite nth_error_app2 by lia. now rewrite Nat.sub_diag.
  - rewrite Cs. unfold surface. simpl. rewrite M2. apply In_addLayer_same.
  - unfold s', recordRoute. destruct (default true (ro_fitBounds opts)); simpl;
      now rewrite T2.
Qed.

Lemma views_recordRoute (fit : bool) (r : RouteLayer) (s : OpenStreetMap)
  (m : LeafletMap) :
  map s = Some m ->
  views (recordRoute fit r s)
  = if fit then FitBounds (BoundsOfPath (rl_polyline r)) (Some (30, 30)%nat) :: views s
    else views s.
Proof.
  intros Hm. unfold recordRoute, views. destruct fit; simpl; now rewrite Hm.
Qed.

(** X18. A route that is drawn, by road or straight, moves the view once:
    unless [fitBounds] is false the view is fitted to the bounds of the
    path with a padding of 30; with [fitBounds] false the view stays. *)
Theorem drawRoute_fits_view_to_path
  (o d : Endpoint) (opts : RouteOptions) (s : OpenStreetMap) :
  isInitialized s = true ->
  validEndpoints o d = true ->
  exists r s',
    drawRoute fetch (Some o) (Some d) opts s = (Some r, s')
    /\ views s'
       = if default true (ro_fitBounds opts)
         then FitBounds (BoundsOfPath (rr_polyline r)) (Some (30, 30)%nat) :: views s
         else views s.
Proof.
  intros Hi Hv. destruct (isInitialized_map s Hi) as [m Hm].
  destruct (endpoint_markers_state o d s m Hm) as (M2 & _).
  destruct (drawRoute_eq fetch o d opts s m Hm Hv) as (data & l & t & _ & _ & E).
  rewrite E. set (s2 := snd (addMarker (ep_lat d) _ _ _ _)) in *.
  eexists. eexists. split; [reflexivity|].
  erewrite views_recordRoute by (simpl; rewrite M2; reflexivity).
  simpl. unfold views. simpl. rewrite M2, Hm. reflexivity.
Qed.

(** A new object is attached at the end of the surface. *)
Lemma surface_placed_fresh (l : Layer) (s : OpenStreetMap) (m : LeafletMap) :
  wf s -> map s = Some m ->
  surface (placed l s) = surface s ++ [List.length (objects s)].
Proof.
  intros W Hm. rewrite (surface_placed l s m Hm).
  assert (H : handle_in (List.length (objects s)) (surface s) = false).
  { apply handle_in_not_In. intros Hin. apply (wf_sf_alloc s W) in Hin. lia. }
  now rewrite H.
Qed.

Lemma filter_none (A : Type) (f : A -> bool) (l : list A) :
  (forall x, In x l -> f x = false) -> filter f l = [].
Proof.
  induction l as [|x xs IH]; intros H; [reflexivity|]. simpl.
  rewrite (H x) by now left. apply IH. intros y Hy. apply H. now right.
Qed.

Lemma filter_ext_in_list (A : Type) (f g : A -> bool) (l : list A) :
  (forall x, In x l -> f x = g x) -> filter f l = filter g l.
Proof.
  induction l as [|x xs IH]; intros H; [reflexivity|]. simpl.
  rewrite (H x) by now left. rewrite IH; [reflexivity|].
  intros y Hy. apply H. now right.
Qed.

(** X19. [clearRoutes] undoes what [drawRoute] did to the surface: in a
    state reached by calls and events, drawing a route and clearing the
    routes leaves the same layers attached, in the same order, as clearing
    the routes at once; starting with no route on record, the surface is
    as it was before the route was drawn. *)
Theorem clearRoutes_undoes_drawRoute
  (options : ConfigOptions) (ops : list Op)
  (o d : option Endpoint) (opts : RouteOptions) :
  surface (snd (clearRoutes (snd (drawRoute fetch o d opts (run ops (new options))))))
  = surface (snd (clearRoutes (run ops (new options))))
  /\ (routeLayers (run ops (new options)) = [] ->
      surface (snd (clearRoutes
                      (snd (drawRoute fetch o d opts (run ops (new options))))))
      = surface (run ops (new options))).
Proof.
  pose proof (wf_run ops (new options) (wf_new options)) as W.
  set (s := run ops (new options)) in *.
  assert (G : surface (snd (clearRoutes (snd (drawRoute fetch o d opts s))))
              = surface (snd (clearRoutes s))).
  { rewrite !surface_clearRoutes.
    destruct (map s) as [m|] eqn:Hm;
      [destruct o as [o|]; [destruct d as [d|];
         [destruct (validEndpoints o d) eqn:Hv|]|]|].
    - destruct (drawRoute_eq fetch o d opts s m Hm Hv)
        as (data & l & t & _ & _ & E).
      rewrite E. simpl snd.
      pose proof (soundM_addMarker false (ep_lat o) (ep_lng o)
                    (Some (default "🏠" (ep_icon o))) (ep_popup o) s W) as (W1 & _).
      destruct (endpoint_markers_state o d s m Hm)
        as (M2 & _ & O1 & O2 & _ & _ & R2).
      set (s1 := snd (addMarker (ep_lat o) _ _ _ s)) in *.
      pose proof (soundM_addMarker false (ep_lat d) (ep_lng d)
                    (Some (default "📦" (ep_icon d))) (ep_popup d) s1 W1) as (W2 & _).
      set (s2 := snd (addMarker (ep_lat d) _ _ _ s1)) in *.
      assert (M1 : map s1 = Some (addLayer (List.length (objects s)) m)).
      { unfold s1. rewrite (addMarker_eq _ _ _ _ s m Hm). simpl. now rewrite Hm. }
      assert (S1 : surface s1 = surface s ++ [List.length (objects s)]).
      { unfold s1. rewrite (addMarker_eq _ _ _ _ s m Hm). simpl snd.
        exact (surface_placed_fresh _ s m W Hm). }
      assert (S2 : surface s2 = surface s1 ++ [List.length (objects s1)]).
      { unfold s2. rewrite (addMarker_eq _ _ _ _ s1 _ M1). simpl snd.
        exact (surface_placed_fresh _ s1 _ W1 M1). }
      match goal with |- context [recordRoute ?f ?r ?s3] =>
        pose proof (core_recordRoute f r s3) as C; set (s' := recordRoute f r s3) in *
      end.
      unfold core in C. injection C as _ Cs _ _ _ _ Cr.
      assert (S3 : surface s' = surface s2 ++ [List.length (objects s2)]).
      { rewrite Cs. exact (surface_placed_fresh l s2 _ W2 M2). }
      unfold allRouteHandles. rewrite Cr, S3, S2, S1. simpl routeLayers.
      rewrite R2, flat_map_app. simpl flat_map.
      assert (L1 : List.length (objects s1) = S (List.length (objects s)))
        by (rewrite O1, length_app; simpl; lia).
      assert (L2 : List.length (objects s2) = S (S (List.length (objects s))))
        by (rewrite O2, length_app; simpl; lia).
      rewrite <- !app_assoc. simpl app. rewrite filter_app.
      rewrite (filter_none _ _ [_; _; _]).
      + rewrite app_nil_r. apply filter_ext_in_list. intros x Hx.
        rewrite handle_in_app. f_equal.
        apply (wf_sf_alloc s W) in Hx.
        unfold handle_in. simpl.
        rewrite !orb_false_r.
        repeat (rewrite (proj2 (Nat.eqb_neq _ _)) by lia). rewrite orb_false_r.
        reflexivity.
      + intros x Hx. apply not_handle_in_false. apply in_or_app. right.
        simpl in Hx. simpl. intuition.
    - destruct (drawRoute_invalid fetch (Some o) (Some d) opts s (or_intror Hv))
        as [t ->]. reflexivity.
    - destruct (drawRoute_invalid fetch (Some o) None opts s (or_intror I))
        as [t ->]. reflexivity.
    - destruct (drawRoute_invalid fetch None d opts s (or_intror I)) as [t ->].
      reflexivity.
    - destruct (drawRoute_invalid fetch o d opts s (or_introl Hm)) as [t ->].
      reflexivity. }
  split; [exact G|].
  intros Hr. rewrite G, surface_clearRoutes. unfold allRouteHandles.
  rewrite Hr. simpl. induction (surface s) as [|x xs IH]; [reflexivity|].
  simpl. now rewrite IH.
Qed.

End Routes.
(* ------------------------------------------------------------------ *)
Section LayerRegistry.

#[local] Arguments truthy : simpl never.
#[local] Arguments markerFor : simpl never.
#[local] Arguments circleFor : simpl never.

Lemma somes_map_Some (A : Type) (l : list A) : somes (List.map Some l) = l.
Proof. induction l as [|a l IH]; [reflexivity|]. simpl. now rewrite IH. Qed.

Lemma seq_shift_app (n k : nat) : n :: seq (S n) k = seq n k ++ [(n + k)%nat].
Proof.
  revert n. induction k as [|k IH]; intros n; simpl.
  - now rewrite Nat.add_0_r.
  - f_equal. rewrite IH. simpl. now rewrite Nat.add_succ_r.
Qed.

(** What the bulk operations keep of a session and its map. *)
Lemma addMarker_frame (lat lng : JsVal) (icon : option string)
  (popupContent : option Text) (s : OpenStreetMap) (m : LeafletMap) :
  wf s -> map s = Some m ->
  let s' := snd (addMarker lat lng icon popupContent s) in
  wf s'
  /\ (exists m', map s' = Some m' /\ viewLog m' = viewLog m)
  /\ objects s' = objects s ++ [markerFor (config s) lat lng icon popupContent]
  /\ markers s' = markers s ++ [List.length (objects s)]
  /\ surface s' = surface s ++ [List.length (objects s)]
  /\ config s' = config s /\ circles s' = circles s
  /\ routeLayers s' = routeLayers s /\ trace s' = trace s
  /\ selectorMarker s' = selectorMarker s /\ selectedCoords s' = selectedCoords s.
Proof.
  intros W Hm s'.
  pose proof (soundM_addMarker false lat lng icon popupContent s W) as (W' & _).
  unfold s' in *. rewrite (addMarker_eq _ _ _ _ s m Hm) in *. simpl snd in *.
  split; [exact W'|].
  split; [simpl; rewrite Hm; simpl; eexists; split; reflexivity|].
  split; [reflexivity|]. split; [reflexivity|].
  split; [exact (surface_placed_fresh _ s m W Hm)|].
  now repeat split.
Qed.

Lemma addCircle_frame (lat lng : JsVal) (radius : option JsVal)
  (options : CircleOptions) (s : OpenStreetMap) (m : LeafletMap) :
  wf s -> map s = Some m ->
  let s' := snd (addCircle lat lng radius options s) in
  wf s'
  /\ (exists m', map s' = Some m' /\ viewLog m' = viewLog m)
  /\ objects s' = objects s ++ [circleFor lat lng radius options]
  /\ circles s' = circles s ++ [List.length (objects s)]
  /\ surface s' = surface s ++ [List.length (objects s)]
  /\ config s' = config s /\ markers s' = markers s
  /\ routeLayers s' = routeLayers s /\ trace s' = trace s
  /\ selectorMarker s' = selectorMarker s /\ selectedCoords s' = selectedCoords s.
Proof.
  intros W Hm s'.
  pose proof (soundM_addCircle false lat lng radius options s W) as (W' & _).
  unfold s' in *. rewrite (addCircle_eq _ _ _ _ s m Hm) in *. simpl snd in *.
  split; [exact W'|].
  split; [simpl; rewrite Hm; simpl; eexists; split; reflexivity|].
  split; [reflexivity|]. split; [reflexivity|].
  split; [exact (surface_placed_fresh _ s m W Hm)|].
  now repeat split.
Qed.

(** [markers.map(...)] over an array of objects, on an initialised
    session. *)
Lemma mapAddMarker_all (specs : list MarkerSpec) :
  forall (s : OpenStreetMap) (m : LeafletMap),
    wf s -> map s = Some m ->
    fst (mapAddMarker (List.map Some specs) s)
    = Returned (List.map Some (seq (List.length (objects s)) (List.length specs)))
    /\ wf (snd (mapAddMarker (List.map Some specs) s))
    /\ (exists m', map (snd (mapAddMarker (List.map Some specs) s)) = Some m'
                   /\ viewLog m' = viewLog m)
    /\ objects (snd (mapAddMarker (List.map Some specs) s))
       = objects s ++ List.map (markerOfSpec (config s)) specs
    /\ markers (snd (mapAddMarker (List.map Some specs) s))
       = markers s ++ seq (List.length (objects s)) (List.length specs)
    /\ surface (snd (mapAddMarker (List.map Some specs) s))
       = surface s ++ seq (List.length (objects s)) (List.length specs)
    /\ config (snd (mapAddMarker (List.map Some specs) s)) = config s
    /\ circles (snd (mapAddMarker (List.map Some specs) s)) = circles s
    /\ routeLayers (snd (mapAddMarker (List.map Some specs) s)) = routeLayers s
    /\ trace (snd (mapAddMarker (List.map Some specs) s)) = trace s
    /\ selectorMarker (snd (mapAddMarker (List.map Some specs) s)) = selectorMarker s
    /\ selectedCoords (snd (mapAddMarker (List.map Some specs) s)) = selectedCoords s.
Proof.
  induction specs as [|sp specs IH]; intros s m W Hm.
  - simpl. rewrite !app_nil_r. split; [reflexivity|]. split; [exact W|].
    split; [exists m; now split|]. now repeat split.
  - simpl List.map. simpl mapAddMarker. rewrite fst_bind, snd_bind.
    destruct (addMarker_frame (ms_lat sp) (ms_lng sp)
                (Some (default "📦" (ms_icon sp))) (ms_popup sp) s m W Hm)
      as (W1 & (m1 & Hm1 & V1) & O1 & K1 & S1 & C1 & Ci1 & R1 & T1 & Sm1 & Sc1).
    assert (F1 : fst (addMarker (ms_lat sp) (ms_lng sp)
                        (Some (default "📦" (ms_icon sp))) (ms_popup sp) s)
                 = Some (List.length (objects s)))
      by now rewrite (addMarker_eq _ _ _ _ s m Hm).
    set (s1 := snd (addMarker (ms_lat sp) (ms_lng sp)
                      (Some (default "📦" (ms_icon sp))) (ms_popup sp) s)) in *.
    destruct (IH s1 m1 W1 Hm1)
      as (F & W2 & (m2 & Hm2 & V2) & O2 & K2 & S2 & C2 & Ci2 & R2 & T2 & Sm2 & Sc2).
    rewrite fst_bind, snd_bind. unfold ret at 1 2. simpl fst. simpl snd.
    set (s2 := snd (mapAddMarker (List.map Some specs) s1)) in *.
    assert (L1 : List.length (objects s1) = S (List.length (objects s)))
      by (rewrite O1, length_app; simpl; lia).
    rewrite L1 in *.
    split; [rewrite F, F1; reflexivity|].
    split; [exact W2|].
    split; [exists m2; split; [exact Hm2 | congruence]|].
    split; [rewrite O2, O1, C1, <- app_assoc; reflexivity|].
    split; [rewrite K2, K1, <- app_assoc; reflexivity|].
    split; [rewrite S2, S1, <- app_assoc; reflexivity|].
    repeat split; congruence.
Qed.

Lemma mapAddCircle_all (specs : list CircleSpec) :
  forall (s : OpenStreetMap) (m : LeafletMap),
    wf s -> map s = Some m ->
    fst (mapAddCircle (List.map Some specs) s)
    = Returned (List.map Some (seq (List.length (objects s)) (List.length specs)))
    /\ wf (snd (mapAddCircle (List.map Some specs) s))
    /\ (exists m', map (snd (mapAddCircle (List.map Some specs) s)) = Some m'
                   /\ viewLog m' = viewLog m)
    /\ objects (snd (mapAddCircle (List.map Some specs) s))
       = objects s ++ List.map circleOfSpec specs
    /\ circles (snd (mapAddCircle (List.map Some specs) s))
       = circles s ++ seq (List.length (objects s)) (List.length specs)
    /\ surface (snd (mapAddCircle (List.map Some specs) s))
       = surface s ++ seq (List.length (objects s)) (List.length specs)
    /\ config (snd (mapAddCircle (List.map Some specs) s)) = config s
    /\ markers (snd (mapAddCircle (List.map Some specs) s)) = markers s
    /\ routeLayers (snd (mapAddCircle (List.map Some specs) s)) = routeLayers s
    /\ trace (snd (mapAddCircle (List.map Some specs) s)) = trace s
    /\ selectorMarker (snd (mapAddCircle (List.map Some specs) s)) = selectorMarker s
    /\ selectedCoords (snd (mapAddCircle (List.map Some specs) s)) = selectedCoords s.
Proof.
  induction specs as [|sp specs IH]; intros s m W Hm.
  - simpl. rewrite !app_nil_r. split; [reflexivity|]. split; [exact W|].
    split; [exists m; now split|]. now repeat split.
  - simpl List.map. simpl mapAddCircle. rewrite fst_bind, snd_bind.
    destruct (addCircle_frame (cs_lat sp) (cs_lng sp) (cs_radius sp) (cs_opts sp)
                s m W Hm)
      as (W1 & (m1 & Hm1 & V1) & O1 & K1 & S1 & C1 & Ci1 & R1 & T1 & Sm1 & Sc1).
    assert (F1 : fst (addCircle (cs_lat sp) (cs_lng sp) (cs_radius sp) (cs_opts sp) s)
                 = Some (List.length (objects s)))
      by now rewrite (addCircle_eq _ _ _ _ s m Hm).
    set (s1 := snd (addCircle (cs_lat sp) (cs_lng sp) (cs_radius sp) (cs_opts sp) s))
      in *.
    destruct (IH s1 m1 W1 Hm1)
      as (F & W2 & (m2 & Hm2 & V2) & O2 & K2 & S2 & C2 & Ci2 & R2 & T2 & Sm2 & Sc2).
    rewrite fst_bind, snd_bind. unfold ret at 1 2. simpl fst. simpl snd.
    set (s2 := snd (mapAddCircle (List.map Some specs) s1)) in *.
    assert (L1 : List.length (objects s1) = S (List.length (objects s)))
      by (rewrite O1, length_app; simpl; lia).
    rewrite L1 in *.
    split; [rewrite F, F1; reflexivity|].
    split; [exact W2|].
    split; [exists m2; split; [exact Hm2 | congruence]|].
    split; [rewrite O2, O1, <- app_assoc; reflexivity|].
    split; [rewrite K2, K1, <- app_assoc; reflexivity|].
    split; [rewrite S2, S1, <- app_assoc; reflexivity|].
    repeat split; congruence.
Qed.

Lemma views_map (s : OpenStreetMap) (m : LeafletMap) :
  map s = Some m -> views s = viewLog m.
Proof. intros H. unfold views. now rewrite H. Qed.

(** X20. In a state reached by calls and events on an initialised session,
    [addMarkers] with an array of objects creates one marker per element,
    in order: the new markers are new objects, appended to the marker
    registry and attached to the surface, each at the position of its
    element (the configured centre for a missing coordinate) with the
    default icon when none is given; the view is fitted to the created
    markers when [fitBounds] is set and the array is not empty, and stays
    otherwise; circles, routes and the trace are as before. *)
Theorem addMarkers_adds_every_marker
  (options : ConfigOptions) (ops : list Op) (specs : list MarkerSpec)
  (bulk : BulkOptions) :
  isInitialized (run ops (new options)) = true ->
  let s := run ops (new options) in
  let s' := snd (addMarkers (List.map Some specs) bulk s) in
  let created := seq (List.length (objects s)) (List.length specs) in
  objects s' = objects s ++ List.map (markerOfSpec (config s)) specs
  /\ markers s' = markers s ++ created
  /\ surface s' = surface s ++ created
  /\ views s'
     = (if default false (bo_fitBounds bulk) && (0 <? List.length specs)%nat
        then FitBounds (BoundsOfLayers created) (Some (30, 30)%nat) :: views s
        else views s)
  /\ circles s' = circles s
  /\ routeLayers s' = routeLayers s
  /\ trace s' = trace s.
Proof.
  intros Hi s s' created.
  pose proof (wf_run ops (new options) (wf_new options)) as W. fold s in W, Hi.
  destruct (isInitialized_map s Hi) as [m Hm].
  destruct (mapAddMarker_all specs s m W Hm)
    as (F & _ & (m1 & Hm1 & V1) & O & K & S & _ & Ci & R & T & _).
  unfold s', addMarkers. rewrite snd_bind, (requireMap_some s m Hm).
  cbn [fst snd negb]. cbv iota. rewrite snd_bind.
  destruct (mapAddMarker (List.map Some specs) s) as [r s1] eqn:E.
  simpl in F, Hm1, O, K, S, Ci, R, T. cbn [fst snd]. subst r.
  rewrite somes_map_Some, length_seq, snd_bind. unfold ret. cbn [snd].
  fold created.
  destruct (default false (bo_fitBounds bulk) && (0 <? List.length specs)%nat);
    simpl.
  - unfold onMap, modify, views, surface. simpl. rewrite Hm1, Hm. simpl.
    unfold surface in S. rewrite Hm1, Hm in S.
    repeat split; try assumption. now rewrite V1.
  - rewrite (views_map s m Hm), (views_map s1 m1 Hm1).
    repeat split; assumption.
Qed.

(** X21. In a state reached by calls and events on an initialised session,
    [addCircles] with an array of objects returns normally and creates one
    circle per element, in order: the new circles are new objects, appended
    to the circle registry and attached to the surface, with the radius
    5000 and the default style for what an element leaves out; the view is
    fitted to the created circles when [fitBounds] is set and the array is
    not empty, and stays otherwise; markers, routes and the trace are as
    before. *)
Theorem addCircles_adds_every_circle
  (options : ConfigOptions) (ops : list Op) (specs : list CircleSpec)
  (bulk : BulkOptions) :
  isInitialized (run ops (new options)) = true ->
  let s := run ops (new options) in
  let s' := snd (addCircles (List.map Some specs) bulk s) in
  let created := seq (List.length (objects s)) (List.length specs) in
  fst (addCircles (List.map Some specs) bulk s) = Returned tt
  /\ objects s' = objects s ++ List.map circleOfSpec specs
  /\ circles s' = circles s ++ created
  /\ surface s' = surface s ++ created
  /\ views s'
     = (if default false (bo_fitBounds bulk) && (0 <? List.length specs)%nat
        then FitBounds (BoundsOfLayers created) (Some (30, 30)%nat) :: views s
        else views s)
  /\ markers s' = markers s
  /\ routeLayers s' = routeLayers s
  /\ trace s' = trace s.
Proof.
  intros Hi s s' created.
  pose proof (wf_run ops (new options) (wf_new options)) as W. fold s in W, Hi.
  destruct (isInitialized_map s Hi) as [m Hm].
  destruct (mapAddCircle_all specs s m W Hm)
    as (F & _ & (m1 & Hm1 & V1) & O & K & S & _ & Ci & R & T & _).
  unfold s', addCircles. rewrite fst_bind, snd_bind, (requireMap_some s m Hm).
  cbn [fst snd negb]. cbv iota. rewrite fst_bind, snd_bind.
  destruct (mapAddCircle (List.map Some specs) s) as [r s1] eqn:E.
  simpl in F, Hm1, O, K, S, Ci, R, T. cbn [fst snd]. subst r.
  rewrite somes_map_Some, length_seq, fst_bind, snd_bind. unfold ret. cbn [fst snd].
  fold created. split; [reflexivity|].
  destruct (default false (bo_fitBounds bulk) && (0 <? List.length specs)%nat);
    simpl.
  - unfold onMap, modify, views, surface. simpl. rewrite Hm1, Hm. simpl.
    unfold surface in S. rewrite Hm1, Hm in S.
    repeat split; try assumption. now rewrite V1.
  - rewrite (views_map s m Hm), (views_map s1 m1 Hm1).
    repeat split; assumption.
Qed.

Lemma mapAddMarker_null (pre : list MarkerSpec) (rest : list (option MarkerSpec)) :
  forall s,
    mapAddMarker (List.map Some pre ++ None :: rest) s
    = (Thrown TypeError, snd (mapAddMarker (List.map Some pre) s)).
Proof.
  induction pre as [|sp pre IH]; intros s; [reflexivity|].
  simpl. unfold bind.
  destruct (addMarker (ms_lat sp) (ms_lng sp) (Some (default "📦" (ms_icon sp)))
              (ms_popup sp) s) as [h s1].
  rewrite IH. now destruct (mapAddMarker (List.map Some pre) s1).
Qed.

(** X22. [addMarkers] is not all or nothing.  An element that is [null]
    (or [undefined]) makes the call throw a [TypeError], and the markers of
    the elements before it stay: they are registered and attached to the
    surface, and the view is not fitted. *)
Theorem addMarkers_stops_at_null
  (options : ConfigOptions) (ops : list Op) (pre : list MarkerSpec)
  (rest : list (option MarkerSpec)) (bulk : BulkOptions) :
  isInitialized (run ops (new options)) = true ->
  let s := run ops (new options) in
  let s' := snd (addMarkers (List.map Some pre ++ None :: rest) bulk s) in
  let created := seq (List.length (objects s)) (List.length pre) in
  fst (addMarkers (List.map Some pre ++ None :: rest) bulk s) = Thrown TypeError
  /\ markers s' = markers s ++ created
  /\ surface s' = surface s ++ created
  /\ views s' = views s.
Proof.
  intros Hi s s' created.
  pose proof (wf_run ops (new options) (wf_new options)) as W. fold s in W, Hi.
  destruct (isInitialized_map s Hi) as [m Hm].
  destruct (mapAddMarker_all pre s m W Hm)
    as (_ & _ & (m1 & Hm1 & V1) & _ & K & S & _).
  unfold s', addMarkers. rewrite fst_bind, snd_bind, (requireMap_some s m Hm).
  cbn [fst snd negb]. cbv iota. rewrite fst_bind, snd_bind.
  rewrite mapAddMarker_null. cbn [fst snd]. unfold ret. cbn [fst snd].
  split; [reflexivity|]. split; [exact K|]. split; [exact S|].
  now rewrite (views_map s m Hm), (views_map _ m1 Hm1).
Qed.

Lemma kindAt_same_objects (k : Layer -> bool) (s s' : OpenStreetMap) (h : Handle) :
  objects s' = objects s -> kindAt k s' h = kindAt k s h.
Proof. intros H. unfold kindAt, layerAt. now rewrite H. Qed.

(** X23. In a state reached by calls and events, [clearMarkers] leaves no
    marker on the surface, whoever placed it: generic markers, the
    endpoints of routes and the selector marker go alike.  The circles on
    the surface, the circle registry, the route entries and the stored
    selection are as before; on an initialised session the marker registry
    is empty. *)
Theorem clearMarkers_leaves_no_marker (options : ConfigOptions) (ops : list Op) :
  let s := run ops (new options) in
  let s' := snd (clearMarkers s) in
  visibleMarkers s' = []
  /\ visibleCircles s' = visibleCircles s
  /\ (isInitialized s = true -> markers s' = [])
  /\ circles s' = circles s
  /\ routeLayers s' = routeLayers s
  /\ selectorMarker s' = selectorMarker s
  /\ selectedCoords s' = selectedCoords s.
Proof.
  intros s s'.
  pose proof (wf_run ops (new options) (wf_new options)) as W. fold s in W.
  assert (Ho : objects s' = objects s /\ circles s' = circles s
               /\ routeLayers s' = routeLayers s
               /\ selectorMarker s' = selectorMarker s
               /\ selectedCoords s' = selectedCoords s
               /\ (isInitialized s = true -> markers s' = [])).
  { unfold s'. destruct (map s) as [m|] eqn:Hm.
    - rewrite (clearMarkers_eq s m Hm). repeat split.
    - destruct (clear_none s Hm) as (-> & _). repeat split.
      unfold isInitialized. rewrite Hm. discriminate. }
  destruct Ho as (Ho & Hc & Hr & Hsm & Hsc & Hmk).
  assert (Hk : forall k, kindAt k s' = kindAt k s).
  { intros k. unfold kindAt, layerAt. now rewrite Ho. }
  unfold visibleMarkers, visibleCircles. rewrite !Hk.
  unfold s' at 1 2. rewrite surface_clearMarkers.
  split.
  { apply filter_filter_drop. intros h Hh Hkd.
    apply not_handle_in_false. now apply (wf_sf_mk s W). }
  split.
  { apply filter_filter_keep. intros h Hh Hkd. apply not_handle_in_true.
    intros Hin. apply (wf_mk_kind s W) in Hin.
    now apply (kind_circle_not_marker s h). }
  repeat split; assumption.
Qed.

(** X24. In a state reached by calls and events, [clearCircles] leaves no
    circle on the surface; the markers on the surface, the marker registry,
    the route entries and the stored selection are as before, and on an
    initialised session the circle registry is empty. *)
Theorem clearCircles_leaves_no_circle (options : ConfigOptions) (ops : list Op) :
  let s := run ops (new options) in
  let s' := snd (clearCircles s) in
  visibleCircles s' = []
  /\ visibleMarkers s' = visibleMarkers s
  /\ (isInitialized s = true -> circles s' = [])
  /\ markers s' = markers s
  /\ routeLayers s' = routeLayers s
  /\ selectorMarker s' = selectorMarker s
  /\ selectedCoords s' = selectedCoords s.
Proof.
  intros s s'.
  pose proof (wf_run ops (new options) (wf_new options)) as W. fold s in W.
  assert (Ho : objects s' = objects s /\ markers s' = markers s
               /\ routeLayers s' = routeLayers s
               /\ selectorMarker s' = selectorMarker s
               /\ selectedCoords s' = selectedCoords s
               /\ (isInitialized s = true -> circles s' = [])
               /\ surface s'
                  = filter (fun h => negb (handle_in h (circles s))) (surface s)).
  { unfold s'. destruct (map s) as [m|] eqn:Hm.
    - rewrite (clearCircles_eq s m Hm). repeat split.
      unfold surface. simpl. rewrite Hm. apply layers_fold_remove.
    - destruct (clear_none s Hm) as (_ & -> & _). simpl snd. repeat split.
      + unfold isInitialized. rewrite Hm. discriminate.
      + unfold surface. now rewrite Hm. }
  destruct Ho as (Ho & Hc & Hr & Hsm & Hsc & Hmk & Hs).
  assert (Hk : forall k, kindAt k s' = kindAt k s).
  { intros k. unfold kindAt, layerAt. now rewrite Ho. }
  unfold visibleMarkers, visibleCircles. rewrite !Hk, Hs.
  split.
  { apply filter_filter_drop. intros h Hh Hkd.
    apply not_handle_in_false. now apply (wf_sf_ci s W). }
  split.
  { apply filter_filter_keep. intros h Hh Hkd. apply not_handle_in_true.
    intros Hin. apply (wf_ci_kind s W) in Hin.
    now apply (kind_circle_not_marker s h). }
  repeat split; assumption.
Qed.

(** X25. The clearing operations are idempotent: clearing twice leaves the
    session as clearing once, for the markers, the circles, the routes and
    the selector alike. *)
Theorem clearing_twice_is_clearing_once (s : OpenStreetMap) :
  snd (clearMarkers (snd (clearMarkers s))) = snd (clearMarkers s)
  /\ snd (clearCircles (snd (clearCircles s))) = snd (clearCircles s)
  /\ snd (clearRoutes (snd (clearRoutes s))) = snd (clearRoutes s)
  /\ snd (clearSelector (snd (clearSelector s))) = snd (clearSelector s).
Proof.
  destruct (map s) as [m|] eqn:Hm.
  - rewrite (clearMarkers_eq s m Hm), (clearCircles_eq s m Hm), (clearRoutes_eq s m Hm).
    split; [erewrite clearMarkers_eq by reflexivity; reflexivity|].
    split; [erewrite clearCircles_eq by reflexivity; reflexivity|].
    split; [erewrite clearRoutes_eq by reflexivity; reflexivity|].
    destruct (selectorMarker s) as [h|] eqn:Hs.
    + rewrite (clearSelector_eq s m h Hm Hs). cbn [snd].
      now rewrite clearSelector_noop by (right; reflexivity).
    + rewrite (clearSelector_noop s) by now right. cbn [snd].
      now rewrite (clearSelector_noop s) by now right.
  - destruct (clear_none s Hm) as (E1 & E2 & E3). rewrite E1, E2, E3. cbn [snd].
    rewrite E1, E2, E3. rewrite (clearSelector_noop s) by now left. cbn [snd].
    rewrite (clearSelector_noop s) by now left. now repeat split.
Qed.

End LayerRegistry.
(* ------------------------------------------------------------------ *)
Section ViewAndWindow.

#[local] Arguments truthy : simpl never.
#[local] Arguments parseFloat : simpl never.
#[local] Arguments parseInt : simpl never.
#[local] Arguments orElse : simpl never.

(** X26. [setView] on an initialised session re-centres the view on the
    given point and touches nothing else: layers, registries, selection,
    configuration and trace are as before.  The zoom level becomes the one
    given when it is truthy; when it is omitted, or 0, or not a number, the
    level the map had is kept. *)
Theorem setView_recentres_and_keeps_zoom
  (lat lng zoom : JsVal) (s : OpenStreetMap) :
  isInitialized s = true ->
  centreAfter (views (snd (setView lat lng zoom s))) = Some (lat, lng)
  /\ zoomAfter (views (snd (setView lat lng zoom s)))
     = (if truthy zoom then Some zoom else zoomAfter (views s))
  /\ core (snd (setView lat lng zoom s)) = core s
  /\ config (snd (setView lat lng zoom s)) = config s
  /\ trace (snd (setView lat lng zoom s)) = trace s.
Proof.
  intros Hi. destruct (isInitialized_map s Hi) as [m Hm].
  unfold setView. rewrite snd_bind, (requireMap_some s m Hm). cbn [fst snd negb].
  cbv iota. unfold onMap, modify, views, core, surface. simpl. rewrite Hm. simpl.
  repeat split. now destruct (truthy zoom).
Qed.

Lemma setupSearch_eq (o : SearchOptions) (s : OpenStreetMap) (m : LeafletMap) :
  map s = Some m ->
  setupSearch o s
  = (tt,
     set_map
       (Some (addGeocoder
                {| gc_placeholder := default "Buscar ciudad" (so_placeholder o);
                   gc_errorMessage :=
                     default "No se encontró la ciudad" (so_errorMessage o) |} m))
       s).
Proof.
  intros Hm. unfold setupSearch, bind. rewrite (requireMap_some s m Hm).
  cbn [negb]. cbv iota. unfold onMap, modify. now rewrite Hm.
Qed.

Lemma step_setupSearch (o : SearchOptions) (s : OpenStreetMap) :
  step (OpSetupSearch o) s = snd (setupSearch o s).
Proof. unfold step, call, returning. now rewrite snd_bind. Qed.

Lemma step_markGeocode (south west north east : JsVal) (s : OpenStreetMap)
  (m : LeafletMap) :
  map s = Some m ->
  step (EvMarkGeocode south west north east) s
  = match geocoders m with
    | [] => s
    | _ :: _ =>
        set_map (Some (pushView (FitBounds (BoundsBox south west north east) None) m)) s
    end.
Proof.
  intros Hm. unfold step, call. rewrite snd_bind. unfold returning.
  rewrite snd_bind. unfold ret, gets. cbn [fst snd]. rewrite Hm.
  destruct (geocoders m); [reflexivity|].
  unfold onMarkGeocode, onMap, modify. cbn [snd]. now rewrite Hm.
Qed.

(** X27. Each call of [setupSearch] on an initialised session adds a search
    control of its own, with the placeholder and the error message of the
    options or the defaults: after [initMap] and [k] calls the map holds
    [k] controls.  A location found by a control fits the view to its
    bounding box, south-west corner first, and touches nothing else; with
    no control there is no such event to hear. *)
Theorem setupSearch_adds_a_control_per_call
  (options : ConfigOptions) (p : InitParams) (o : SearchOptions) (k : nat)
  (south west north east : JsVal) :
  (exists m,
     map (run (OpInitMap p :: repeat (OpSetupSearch o) k) (new options)) = Some m
     /\ geocoders m
        = repeat {| gc_placeholder := default "Buscar ciudad" (so_placeholder o);
                    gc_errorMessage :=
                      default "No se encontró la ciudad" (so_errorMessage o) |} k)
  /\ views (step (EvMarkGeocode south west north east)
              (run (OpInitMap p :: repeat (OpSetupSearch o) k) (new options)))
     = (if (k =? 0)%nat
        then views (run (OpInitMap p :: repeat (OpSetupSearch o) k) (new options))
        else FitBounds (BoundsBox south west north east) None
             :: views (run (OpInitMap p :: repeat (OpSetupSearch o) k) (new options)))
  /\ core (step (EvMarkGeocode south west north east)
             (run (OpInitMap p :: repeat (OpSetupSearch o) k) (new options)))
     = core (run (OpInitMap p :: repeat (OpSetupSearch o) k) (new options)).
Proof.
  set (g := {| gc_placeholder := default "Buscar ciudad" (so_placeholder o);
               gc_errorMessage :=
                 default "No se encontró la ciudad" (so_errorMessage o) |}).
  set (sk := fun k => run (OpInitMap p :: repeat (OpSetupSearch o) k) (new options)).
  assert (J : forall k, exists m, map (sk k) = Some m /\ geocoders m = repeat g k).
  { clear k. induction k as [|k IH].
    - unfold sk. cbn [repeat]. rewrite run_cons. change (run [] ?s) with s.
      rewrite step_initMap, initMap_eq. cbn [snd].
      eexists. split; [reflexivity|]. reflexivity.
    - destruct IH as (m & Hm & Hg).
      assert (E : sk (S k) = step (OpSetupSearch o) (sk k)).
      { unfold sk. cbn [repeat]. rewrite repeat_cons, app_comm_cons.
        apply run_snoc. }
      rewrite E, step_setupSearch, (setupSearch_eq o (sk k) m Hm). cbn [snd].
      eexists. split; [reflexivity|]. cbn [geocoders addGeocoder]. rewrite Hg.
      fold g. now rewrite <- repeat_cons. }
  fold (sk k). destruct (J k) as (m & Hm & Hg).
  split; [exists m; split; assumption|].
  rewrite (step_markGeocode south west north east (sk k) m Hm), Hg.
  remember (sk k) as s0 eqn:E0. clear E0 J.
  destruct k as [|k]; cbn [repeat Nat.eqb]; [split; reflexivity|].
  unfold views, core, surface. cbn. rewrite Hm. split; reflexivity.
Qed.

Lemma Rtrunc_20 : Rtrunc 20 = 20.
Proof. apply (Rtrunc_between 20 20); simpl; lra. Qed.

(** X28. [createMap] hands back an initialised session on the given
    container, with its view at the centre and zoom of its configuration.
    When a coordinate is [null] or [undefined] the session is initialised
    with the defaults, whatever zoom the options give.  When both are
    numbers other than zero the view is centred there, at zoom 20 unless the
    options give one. *)
Theorem createMap_initialises_session
  (containerId : string) (lat lng : JsVal) (options : CreateMapOptions) :
  isInitialized (dm_map (createMap containerId lat lng options)) = true
  /\ (exists m,
        map (dm_map (createMap containerId lat lng options)) = Some m
        /\ container m = containerId
        /\ viewLog m
           = [SetView
                (cfg_lat (config (dm_map (createMap containerId lat lng options))))
                (cfg_lng (config (dm_map (createMap containerId lat lng options))))
                (Some (cfg_zoom
                         (config (dm_map (createMap containerId lat lng options)))))])
  /\ (notNull lat && notNull lng = false ->
      cfg_lat (config (dm_map (createMap containerId lat lng options)))
      = VNum (Fin 8.240773)
      /\ cfg_lng (config (dm_map (createMap containerId lat lng options)))
         = VNum (Fin (-65.546409))
      /\ cfg_zoom (config (dm_map (createMap containerId lat lng options)))
         = VNum (Fin 7))
  /\ (forall x y,
        lat = VNum (Fin x) -> lng = VNum (Fin y) -> x <> 0 -> y <> 0 ->
        cfg_lat (config (dm_map (createMap containerId lat lng options)))
        = VNum (Fin x)
        /\ cfg_lng (config (dm_map (createMap containerId lat lng options)))
           = VNum (Fin y)
        /\ (cm_zoom options = VUndefined ->
            cfg_zoom (config (dm_map (createMap containerId lat lng options)))
            = VNum (Fin 20))).
Proof.
  unfold createMap. cbv zeta. cbn [dm_map].
  split; [destruct (notNull lat && notNull lng); reflexivity|].
  split.
  { destruct (notNull lat && notNull lng); rewrite initMap_eq; simpl;
      eexists; repeat split. }
  split.
  { intros ->. rewrite initMap_eq. simpl. repeat split. }
  intros x y -> -> Hx Hy. cbn [notNull andb]. rewrite initMap_eq. simpl.
  change (parseFloat (VNum (Fin x))) with (Fin x).
  change (parseFloat (VNum (Fin y))) with (Fin y).
  rewrite !orElse_number by assumption.
  split; [reflexivity|]. split; [reflexivity|].
  intros ->.
  rewrite parseInt_decimal
    by (right; rewrite Rabs_right by lra; split; [|simpl]; lra).
  rewrite Rtrunc_20. apply orElse_number. lra.
Qed.

End ViewAndWindow.
(* ------------------------------------------------------------------ *)
Section MoreExamples.

#[local] Arguments truthy : simpl never.
#[local] Arguments haversineDistance : simpl never.
#[local] Arguments ToNumber : simpl never.
#[local] Arguments parseFloat : simpl never.
#[local] Arguments osrmUrl : simpl never.
#[local] Arguments buildSelectorPopup : simpl never.

Lemma haversineDistance_propagates_NaN_witness :
  haversineDistance (Fin 10) NaN (Fin 10.1) (Fin (-66.1)) = NaN.
Proof. apply haversineDistance_propagates_NaN. right. left. reflexivity. Defined.

Lemma haversineDistance_meridian_witness :
  Rabs (11 - 10) <= 180
  /\ haversineDistance (Fin 10) (Fin (-66)) (Fin 11) (Fin (-66))
     = Fin (6371000 * (Rabs (11 - 10) * PI / 180)).
Proof.
  assert (H : Rabs (11 - 10) <= 180)
    by (unfold Rabs; destruct (Rcase_abs (11 - 10)); lra).
  split; [exact H|].
  exact (proj1 (haversineDistance_meridian_equator 10 11 (-66) H)).
Defined.

Lemma callback_only_on_confirmation_witness :
  is_confirmation (EvClick {| click_lat := Some (Fin 10.5); click_lng := Some (Fin (-66.8)) |})
  = false
  /\ countEffects is_invocation
       (trace (step (EvClick {| click_lat := Some (Fin 10.5);
                                click_lng := Some (Fin (-66.8)) |}) s_selected))
     = countEffects is_invocation (trace s_selected).
Proof.
  split; [reflexivity|].
  exact (proj1 (callback_and_notice_only_on_confirmation
                  (EvClick {| click_lat := Some (Fin 10.5);
                              click_lng := Some (Fin (-66.8)) |})
                  s_selected eq_refl)).
Defined.

Lemma request_only_for_road_routes_witness :
  asksRoadRoute
    (OpDrawRoute offline (Some (endpoint 10.0 (-66.0))) (Some (endpoint 10.1 (-66.1)))
       noRouteOptions) = false
  /\ countEffects is_request
       (trace (step (OpDrawRoute offline (Some (endpoint 10.0 (-66.0)))
                       (Some (endpoint 10.1 (-66.1))) noRouteOptions) s_init))
     = countEffects is_request (trace s_init).
Proof.
  split; [reflexivity|].
  exact (request_only_for_road_routes
           (OpDrawRoute offline (Some (endpoint 10.0 (-66.0)))
              (Some (endpoint 10.1 (-66.1))) noRouteOptions) s_init eq_refl).
Defined.

Lemma selection_needs_setupSelector_witness :
  selectedCoords
    (run [ OpInitMap noParams;
           EvClick {| click_lat := Some (Fin 10.5); click_lng := Some (Fin (-66.8)) |};
           OpPlaceSelector (VNum (Fin 10.48)) (VNum (Fin (-66.90))) None ]
       (new noOptions)) = None
  /\ fst (confirmSelection "2026-01-01T00:00:00.000Z"
            (run [ OpInitMap noParams;
                   EvClick {| click_lat := Some (Fin 10.5);
                              click_lng := Some (Fin (-66.8)) |};
                   OpPlaceSelector (VNum (Fin 10.48)) (VNum (Fin (-66.90))) None ]
               (new noOptions))) = None.
Proof.
  destruct (selection_needs_setupSelector noOptions
              [ OpInitMap noParams;
                EvClick {| click_lat := Some (Fin 10.5); click_lng := Some (Fin (-66.8)) |};
                OpPlaceSelector (VNum (Fin 10.48)) (VNum (Fin (-66.90))) None ]
              "2026-01-01T00:00:00.000Z" eq_refl)
    as (_ & _ & H3 & _ & H5 & _).
  split; assumption.
Defined.

Lemma setupSelector_selects_configured_centre_witness :
  isInitialized s_init = true
  /\ selectedCoords (snd (setupSelector (OnSelectFn 0) s_init))
     = Some (VNum (Fin 8.240773), VNum (Fin (-65.546409)))
  /\ onSelectCallback (snd (setupSelector (OnSelectFn 0) s_init))
     = Some (UserCallback 0).
Proof.
  split; [reflexivity|].
  destruct (setupSelector_selects_configured_centre (OnSelectFn 0)
              "2026-01-01T00:00:00.000Z" s_init s_init_initialized)
    as (_ & H2 & H3 & _).
  split; [exact H3 | exact H2].
Defined.

Lemma clearSelector_discards_selection_witness :
  isInitialized (run selecting (new noOptions)) = true
  /\ selectedCoords (run selecting (new noOptions))
     = Some (VNum (Fin 10.48), VNum (Fin (-66.90)))
  /\ selectedCoords (snd (clearSelector (run selecting (new noOptions)))) = None
  /\ fst (confirmSelection "2026-01-01T00:00:00.000Z"
            (snd (clearSelector (run selecting (new noOptions))))) = None.
Proof.
  split; [reflexivity|]. split; [reflexivity|].
  destruct (clearSelector_discards_selection noOptions selecting
              "2026-01-01T00:00:00.000Z" eq_refl)
    as (_ & H2 & _ & _ & _ & _ & _ & H8).
  split; [exact H2|]. now rewrite H8.
Defined.

Lemma click_selects_rounded_point_witness :
  isInitialized s_selected = true
  /\ isSelectorEnabled s_selected = true
  /\ selectedCoords
       (snd (handleMapClick {| click_lat := Some (Fin 10.123456789);
                               click_lng := Some (Fin (-66.5)) |} s_selected))
     = Some (VFixed 8 (Fin 10.123456789), VFixed 8 (Fin (-66.5))).
Proof.
  split; [reflexivity|]. split; [reflexivity|].
  exact (proj1 (click_selects_rounded_point 10.123456789 (-66.5)
                  "2026-01-01T00:00:00.000Z" s_selected eq_refl eq_refl)).
Defined.

Lemma noRouteOptions_straight : ro_useRoadRoute noRouteOptions <> Some true.
Proof. discriminate. Qed.

Lemma drawRoute_straight_by_default_witness :
  isInitialized s_init = true
  /\ validEndpoints (endpoint 10.0 (-66.0)) (endpoint 10.1 (-66.1)) = true
  /\ ro_useRoadRoute noRouteOptions <> Some true
  /\ exists r s',
       drawRoute routed (Some (endpoint 10.0 (-66.0))) (Some (endpoint 10.1 (-66.1)))
         noRouteOptions s_init = (Some r, s')
       /\ route_type (rr_data r) = straight
       /\ duration (rr_data r) = VNull
       /\ trace s' = trace s_init.
Proof.
  split; [reflexivity|]. split; [exact example_endpoints_valid|].
  split; [exact noRouteOptions_straight|].
  destruct (drawRoute_straight_by_default routed (endpoint 10.0 (-66.0))
              (endpoint 10.1 (-66.1)) noRouteOptions s_init
              s_init_initialized example_endpoints_valid noRouteOptions_straight)
    as (r & s' & H1 & H2 & H3 & _ & _ & _ & _ & _ & H9).
  exists r, s'. repeat split; assumption.
Defined.

Lemma drawRoute_straight_distanceKm_witness :
  isInitialized s_init = true
  /\ validEndpoints (endpoint 10.0 (-66.0)) (endpoint 10.1 (-66.1)) = true
  /\ exists r s',
       drawRoute offline (Some (endpoint 10.0 (-66.0))) (Some (endpoint 10.1 (-66.1)))
         noRouteOptions s_init = (Some r, s')
       /\ forall dist,
            distance (rr_data r) = VNum (Fin dist) ->
            exists km,
              parseFloat (distanceKm (rr_data r)) = Fin km
              /\ Rabs (km - dist / 1000) <= 5 / 1000.
Proof.
  split; [reflexivity|]. split; [exact example_endpoints_valid|].
  destruct (drawRoute_straight_distanceKm offline (endpoint 10.0 (-66.0))
              (endpoint 10.1 (-66.1)) noRouteOptions s_init
              s_init_initialized example_endpoints_valid noRouteOptions_straight)
    as (r & s' & H1 & H2 & _).
  exists r, s'. split; assumption.
Defined.

Lemma drawRoute_fallback_witness :
  isInitialized s_init = true
  /\ validEndpoints (endpoint 10.0 (-66.0)) (endpoint 10.1 (-66.1)) = true
  /\ routingFails (noRoute (osrmUrl (endpoint 10.0 (-66.0)) (endpoint 10.1 (-66.1))))
     = true
  /\ exists r s',
       drawRoute noRoute (Some (endpoint 10.0 (-66.0))) (Some (endpoint 10.1 (-66.1)))
         byRoad s_init = (Some r, s')
       /\ route_type (rr_data r) = straight
       /\ duration (rr_data r) = VNull
       /\ distance (rr_data r)
          = VNum (haversineDistance (Fin 10.0) (Fin (-66.0)) (Fin 10.1) (Fin (-66.1)))
       /\ In (rr_polyline r) (surface s').
Proof.
  split; [reflexivity|]. split; [exact example_endpoints_valid|].
  split; [reflexivity|].
  destruct (drawRoute_fallback_draws_straight_line noRoute (endpoint 10.0 (-66.0))
              (endpoint 10.1 (-66.1)) byRoad s_init
              s_init_initialized example_endpoints_valid eq_refl eq_refl)
    as (r & s' & ho & hd & logged & H1 & H2 & H3 & _ & H5 & _ & _ & H8 & _).
  exists r, s'. repeat apply conj; assumption.
Defined.

Lemma drawRoute_by_road_witness :
  isInitialized s_init = true
  /\ validEndpoints (endpoint 10.0 (-66.0)) (endpoint 10.1 (-66.1)) = true
  /\ exists r s',
       drawRoute routed (Some (endpoint 10.0 (-66.0))) (Some (endpoint 10.1 (-66.1)))
         byRoad s_init = (Some r, s')
       /\ route_type (rr_data r) = road
       /\ distance (rr_data r) = VNum (Fin 15700)
       /\ duration (rr_data r) = VNum (Fin 1260)
       /\ distanceKm (rr_data r) = VFixed 2 (Fin (15700 / 1000))
       /\ durationMin (rr_data r) = VFixed 1 (Fin (1260 / 60)).
Proof.
  split; [reflexivity|]. split; [exact example_endpoints_valid|].
  destruct (drawRoute_by_road routed (endpoint 10.0 (-66.0)) (endpoint 10.1 (-66.1))
              byRoad s_init exampleRoute [] _
              s_init_initialized example_endpoints_valid eq_refl eq_refl eq_refl)
    as (r & s' & H1 & H2 & H3 & H4 & H5 & H6 & _).
  exists r, s'. repeat split; assumption.
Defined.

Lemma drawRoute_fits_view_witness :
  isInitialized s_init = true
  /\ validEndpoints (endpoint 10.0 (-66.0)) (endpoint 10.1 (-66.1)) = true
  /\ exists r s',
       drawRoute offline (Some (endpoint 10.0 (-66.0))) (Some (endpoint 10.1 (-66.1)))
         noRouteOptions s_init = (Some r, s')
       /\ views s'
          = FitBounds (BoundsOfPath (rr_polyline r)) (Some (30, 30)%nat) :: views s_init.
Proof.
  split; [reflexivity|]. split; [exact example_endpoints_valid|].
  destruct (drawRoute_fits_view_to_path offline (endpoint 10.0 (-66.0))
              (endpoint 10.1 (-66.1)) noRouteOptions s_init
              s_init_initialized example_endpoints_valid)
    as (r & s' & H1 & H2).
  exists r, s'. split; assumption.
Defined.

Lemma addMarkers_adds_every_marker_witness :
  isInitialized (run [OpInitMap noParams] (new noOptions)) = true
  /\ markers (snd (addMarkers (List.map Some exampleMarkers) fitted
                     (run [OpInitMap noParams] (new noOptions))))
     = [1; 2]%nat
  /\ surface (snd (addMarkers (List.map Some exampleMarkers) fitted
                     (run [OpInitMap noParams] (new noOptions))))
     = [0; 1; 2]%nat.
Proof.
  split; [reflexivity|].
  destruct (addMarkers_adds_every_marker noOptions [OpInitMap noParams]
              exampleMarkers fitted eq_refl)
    as (_ & H2 & H3 & _).
  split; [exact H2 | exact H3].
Defined.

Lemma addCircles_adds_every_circle_witness :
  isInitialized (run [OpInitMap noParams] (new noOptions)) = true
  /\ circles (snd (addCircles (List.map Some exampleCircles) fitted
                     (run [OpInitMap noParams] (new noOptions))))
     = [1; 2]%nat
  /\ surface (snd (addCircles (List.map Some exampleCircles) fitted
                     (run [OpInitMap noParams] (new noOptions))))
     = [0; 1; 2]%nat.
Proof.
  split; [reflexivity|].
  destruct (addCircles_adds_every_circle noOptions [OpInitMap noParams]
              exampleCircles fitted eq_refl)
    as (_ & _ & H2 & H3 & _).
  split; [exact H2 | exact H3].
Defined.

Lemma addMarkers_stops_at_null_witness :
  isInitialized (run [OpInitMap noParams] (new noOptions)) = true
  /\ fst (addMarkers (List.map Some exampleMarkers ++ None :: List.map Some exampleMarkers)
            fitted (run [OpInitMap noParams] (new noOptions)))
     = Thrown TypeError
  /\ markers (snd (addMarkers
                     (List.map Some exampleMarkers ++ None :: List.map Some exampleMarkers)
                     fitted (run [OpInitMap noParams] (new noOptions))))
     = [1; 2]%nat.
Proof.
  split; [reflexivity|].
  destruct (addMarkers_stops_at_null noOptions [OpInitMap noParams]
              exampleMarkers (List.map Some exampleMarkers) fitted eq_refl)
    as (H1 & H2 & _).
  split; [exact H1 | exact H2].
Defined.

Lemma setView_keeps_zoom_witness :
  isInitialized s_init = true
  /\ centreAfter (views (snd (setView (VNum (Fin 10.48)) (VNum (Fin (-66.90)))
                               VUndefined s_init)))
     = Some (VNum (Fin 10.48), VNum (Fin (-66.90)))
  /\ zoomAfter (views (snd (setView (VNum (Fin 10.48)) (VNum (Fin (-66.90)))
                             VUndefined s_init)))
     = Some (VNum (Fin 7)).
Proof.
  split; [reflexivity|].
  destruct (setView_recentres_and_keeps_zoom (VNum (Fin 10.48)) (VNum (Fin (-66.90)))
              VUndefined s_init s_init_initialized)
    as (H1 & H2 & _).
  split; [exact H1 | exact H2].
Defined.

End MoreExamples.
(* ------------------------------------------------------------------ *)
(** ** The distance between nearly antipodal points *)
Section Rounding.

Import PrimFloat.

Lemma haversineDistance_of_term (lat1 lng1 lat2 lng2 a : float) :
  Binary64.haversineTerm lat1 lng1 lat2 lng2 = a ->
  Binary64.haversineDistance lat1 lng1 lat2 lng2
  = (6371000 * 2 * Binary64.Math_atan2 (sqrt a) (sqrt (1 - a)))%float.
Proof. intros <-. reflexivity. Qed.

(** On ordinary input the distance is a number: two points 39 km apart
    are at the same distance in both directions, and a point is at distance
    zero from itself. *)
Lemma haversineDistance_binary64_ordinary :
  (Binary64.haversineDistance 10.5 (-66.25) 10.75 (-66.5)
   =? Binary64.haversineDistance 10.75 (-66.5) 10.5 (-66.25))%float = true
  /\ (38977 <? Binary64.haversineDistance 10.5 (-66.25) 10.75 (-66.5))%float = true
  /\ (Binary64.haversineDistance 10.5 (-66.25) 10.75 (-66.5) <? 38978)%float = true
  /\ Binary64.haversineDistance 45 90 45 90 = 0%float.
Proof.
  assert (D1 : Binary64.haversineDistance 10.5 (-66.25) 10.75 (-66.5)
               = 0x1.308389d5ac9cp+15%float) by (vm_compute; reflexivity).
  assert (D2 : Binary64.haversineDistance 10.75 (-66.5) 10.5 (-66.25)
               = 0x1.308389d5ac9cp+15%float) by (vm_compute; reflexivity).
  rewrite D1, D2. split; [reflexivity|]. split; [reflexivity|].
  split; [reflexivity|]. vm_compute; reflexivity.
Qed.

(** C8, at the failing input.  For the points (-8, -66) and (8, 114), which
    are nearly antipodal, the term [a] of the formula rounds to the double
    just above 1; the square root of [1 - a] is then NaN, and so is the
    distance, in both directions: the two distances are not [==]. *)
Theorem haversineDistance_NaN_near_antipodes :
  Binary64.haversineTerm (-8) (-66) 8 114 = 0x1.0000000000001p+0%float
  /\ Binary64.haversineTerm 8 114 (-8) (-66) = 0x1.0000000000001p+0%float
  /\ is_nan (sqrt (1 - 0x1.0000000000001p+0)) = true
  /\ is_nan (Binary64.haversineDistance (-8) (-66) 8 114) = true
  /\ is_nan (Binary64.haversineDistance 8 114 (-8) (-66)) = true
  /\ (Binary64.haversineDistance (-8) (-66) 8 114
      =? Binary64.haversineDistance 8 114 (-8) (-66))%float = false.
Proof.
  assert (T1 : Binary64.haversineTerm (-8) (-66) 8 114 = 0x1.0000000000001p+0%float)
    by (vm_compute; reflexivity).
  assert (T2 : Binary64.haversineTerm 8 114 (-8) (-66) = 0x1.0000000000001p+0%float)
    by (vm_compute; reflexivity).
  assert (N : (6371000 * 2
               * Binary64.Math_atan2 (sqrt 0x1.0000000000001p+0)
                   (sqrt (1 - 0x1.0000000000001p+0)))%float = nan)
    by (vm_compute; reflexivity).
  pose proof (haversineDistance_of_term _ _ _ _ _ T1) as D1.
  pose proof (haversineDistance_of_term _ _ _ _ _ T2) as D2.
  rewrite N in D1, D2. rewrite D1, D2.
  split; [exact T1|]. split; [exact T2|]. split; [vm_compute; reflexivity|].
  split; [reflexivity|]. split; reflexivity.
Qed.

End Rounding.
(* ------------------------------------------------------------------ *)
(** ** The selector marker on the surface *)
Section SelectorOnSurface.

#[local] Arguments truthy : simpl never.
#[local] Arguments parseFloat : simpl never.
#[local] Arguments parseInt : simpl never.
#[local] Arguments ToNumber : simpl never.
#[local] Arguments haversineDistance : simpl never.
#[local] Arguments osrmUrl : simpl never.
#[local] Arguments toFixedDiv : simpl never.
#[local] Arguments buildSelectorPopup : simpl never.

Lemma enlarges_ret (A : Type) (a : A) : enlarges (ret a).
Proof. intros s. apply incl_refl. Qed.

Lemma enlarges_gets (A : Type) (f : OpenStreetMap -> A) : enlarges (gets f).
Proof. intros s. apply incl_refl. Qed.

Lemma enlarges_bind (A B : Type) (m : M A) (k : A -> M B) :
  enlarges m -> (forall a, enlarges (k a)) -> enlarges (bind m k).
Proof.
  intros Hm Hk s. rewrite snd_bind.
  eapply incl_tran; [apply Hm | apply Hk].
Qed.

Lemma enlarges_modify (f : OpenStreetMap -> OpenStreetMap) :
  (forall s, map (f s) = map s) -> enlarges (modify f).
Proof. intros H s. unfold modify, surface. simpl. rewrite H. apply incl_refl. Qed.

Lemma enlarges_emit (e : Effect) : enlarges (emit e).
Proof. apply enlarges_modify. reflexivity. Qed.

Lemma enlarges_when (b : bool) (m : M unit) : enlarges m -> enlarges (when b m).
Proof. intros H. destruct b; [exact H | apply enlarges_ret]. Qed.

Lemma enlarges_onMap (f : LeafletMap -> LeafletMap) :
  (forall m, incl (layers m) (layers (f m))) -> enlarges (onMap f).
Proof.
  intros H s. unfold onMap, modify, surface. simpl.
  destruct (map s) as [m|]; simpl; [apply H | apply incl_refl].
Qed.

Lemma enlarges_pushView (c : ViewCmd) : enlarges (onMap (pushView c)).
Proof. apply enlarges_onMap. intros m. apply incl_refl. Qed.

Lemma enlarges_newLayerOnMap (l : Layer) : enlarges (newLayerOnMap l).
Proof.
  intros s. rewrite newLayerOnMap_eq. unfold placed, surface. simpl.
  destruct (map s) as [m|]; simpl; [|apply incl_refl].
  intros h Hh. now apply In_addLayer_other.
Qed.

Lemma enlarges_requireMap : enlarges requireMap.
Proof.
  unfold requireMap. apply enlarges_bind; [apply enlarges_gets|].
  intros [m|]; [apply enlarges_ret|].
  apply enlarges_bind; [apply enlarges_emit | intros; apply enlarges_ret].
Qed.

Lemma enlarges_addMarker (lat lng : JsVal) (icon : option string)
  (popupContent : option Text) :
  enlarges (addMarker lat lng icon popupContent).
Proof.
  unfold addMarker. apply enlarges_bind; [apply enlarges_requireMap|].
  intros [|]; simpl; [|apply enlarges_ret].
  apply enlarges_bind; [apply enlarges_gets|]. intros cfg.
  apply enlarges_bind; [apply enlarges_newLayerOnMap|]. intros h.
  apply enlarges_bind; [|intros; apply enlarges_ret].
  apply enlarges_modify. reflexivity.
Qed.

Lemma enlarges_addCircle (lat lng : JsVal) (radius : option JsVal)
  (options : CircleOptions) :
  enlarges (addCircle lat lng radius options).
Proof.
  unfold addCircle. apply enlarges_bind; [apply enlarges_requireMap|].
  intros [|]; simpl; [|apply enlarges_ret].
  apply enlarges_bind; [apply enlarges_newLayerOnMap|]. intros h.
  apply enlarges_bind; [|intros; apply enlarges_ret].
  apply enlarges_modify. reflexivity.
Qed.

Lemma enlarges_mapAddMarker (specs : list (option MarkerSpec)) :
  enlarges (mapAddMarker specs).
Proof.
  induction specs as [|[sp|] rest IH]; simpl; try apply enlarges_ret.
  apply enlarges_bind; [apply enlarges_addMarker|]. intros h.
  apply enlarges_bind; [exact IH | intros; apply enlarges_ret].
Qed.

Lemma enlarges_mapAddCircle (specs : list (option CircleSpec)) :
  enlarges (mapAddCircle specs).
Proof.
  induction specs as [|[sp|] rest IH]; simpl; try apply enlarges_ret.
  apply enlarges_bind; [apply enlarges_addCircle|]. intros h.
  apply enlarges_bind; [exact IH | intros; apply enlarges_ret].
Qed.

Lemma enlarges_addMarkers (specs : list (option MarkerSpec)) (options : BulkOptions) :
  enlarges (addMarkers specs options).
Proof.
  unfold addMarkers. apply enlarges_bind; [apply enlarges_requireMap|].
  intros [|]; simpl; [|apply enlarges_ret].
  apply enlarges_bind; [apply enlarges_mapAddMarker|].
  intros [hs|err]; [|apply enlarges_ret].
  apply enlarges_bind; [apply enlarges_when, enlarges_pushView|].
  intros; apply enlarges_ret.
Qed.

Lemma enlarges_addCircles (specs : list (option CircleSpec)) (options : BulkOptions) :
  enlarges (addCircles specs options).
Proof.
  unfold addCircles. apply enlarges_bind; [apply enlarges_requireMap|].
  intros [|]; simpl; [|apply enlarges_ret].
  apply enlarges_bind; [apply enlarges_mapAddCircle|].
  intros [hs|err]; [|apply enlarges_ret].
  apply enlarges_bind; [apply enlarges_when, enlarges_pushView|].
  intros; apply enlarges_ret.
Qed.

Lemma enlarges_setView (lat lng zoom : JsVal) : enlarges (setView lat lng zoom).
Proof.
  unfold setView. apply enlarges_bind; [apply enlarges_requireMap|].
  intros [|]; simpl; [apply enlarges_pushView | apply enlarges_ret].
Qed.

Lemma enlarges_setupSearch (o : SearchOptions) : enlarges (setupSearch o).
Proof.
  unfold setupSearch. apply enlarges_bind; [apply enlarges_requireMap|].
  intros [|]; simpl; [|apply enlarges_ret].
  apply enlarges_onMap. intros m. apply incl_refl.
Qed.

Lemma enlarges_getSelectedCoordinates (now : string) :
  enlarges (getSelectedCoordinates now).
Proof.
  unfold getSelectedCoordinates. apply enlarges_bind; [apply enlarges_gets|].
  intros [[lat lng]|]; apply enlarges_ret.
Qed.

Lemma enlarges_confirmSelection (now : string) : enlarges (confirmSelection now).
Proof.
  unfold confirmSelection.
  apply enlarges_bind; [apply enlarges_getSelectedCoordinates|].
  intros [c|].
  - apply enlarges_bind; [apply enlarges_gets|]. intros cb.
    apply enlarges_bind; [|intros; apply enlarges_ret].
    destruct cb; [apply enlarges_emit | apply enlarges_ret].
  - apply enlarges_bind; [apply enlarges_emit | intros; apply enlarges_ret].
Qed.

Lemma enlarges_repeatM (n : nat) (m : M unit) :
  enlarges m -> enlarges (repeatM n m).
Proof.
  intros H. induction n as [|n IH]; simpl; [apply enlarges_ret|].
  apply enlarges_bind; [exact H | intros; exact IH].
Qed.

Lemma enlarges_buildStraightRoute (o d : Endpoint) (ls : LineStyle) :
  enlarges (buildStraightRoute o d ls).
Proof.
  unfold buildStraightRoute.
  apply enlarges_bind; [apply enlarges_newLayerOnMap|].
  intros; apply enlarges_ret.
Qed.

Lemma enlarges_fetchRoadRoute (fetch : Text -> FetchOutcome)
  (o d : Endpoint) (ls : LineStyle) :
  enlarges (fetchRoadRoute fetch o d ls).
Proof.
  unfold fetchRoadRoute.
  apply enlarges_bind; [apply enlarges_emit|]. intros _.
  assert (Hlog : forall e, enlarges (emit e ;;; ret (@None (Handle * RouteData)))).
  { intros e. apply enlarges_bind; [apply enlarges_emit | intros; apply enlarges_ret]. }
  destruct (fetch (osrmUrl o d)) as [| | |[[|route rest]|]]; try apply Hlog.
  destruct (osrm_geometry route) as [g|]; [|apply Hlog].
  apply enlarges_bind; [apply enlarges_newLayerOnMap|].
  intros; apply enlarges_ret.
Qed.

Lemma enlarges_drawRoute (fetch : Text -> FetchOutcome)
  (o d : option Endpoint) (opts : RouteOptions) :
  enlarges (drawRoute fetch o d opts).
Proof.
  unfold drawRoute.
  apply enlarges_bind; [apply enlarges_requireMap|].
  intros [|]; simpl; [|apply enlarges_ret].
  assert (Hwarn : forall e, enlarges (emit e ;;; ret (@None RouteResult))).
  { intros e. apply enlarges_bind; [apply enlarges_emit | intros; apply enlarges_ret]. }
  destruct o as [o|], d as [d|]; try apply Hwarn.
  destruct (negb (truthy (ep_lat o)) || negb (truthy (ep_lng o))
            || negb (truthy (ep_lat d)) || negb (truthy (ep_lng d)));
    [apply Hwarn|].
  apply enlarges_bind; [apply enlarges_addMarker|]. intros ho.
  apply enlarges_bind; [apply enlarges_addMarker|]. intros hd.
  apply enlarges_bind.
  - destruct (default false (ro_useRoadRoute opts)).
    + apply enlarges_bind; [apply enlarges_fetchRoadRoute|].
      intros [r|]; [apply enlarges_ret|].
      apply enlarges_bind; [apply enlarges_emit|].
      intros _. apply enlarges_buildStraightRoute.
    + apply enlarges_buildStraightRoute.
  - intros r.
    apply enlarges_bind; [apply enlarges_modify; reflexivity|].
    intros _.
    apply enlarges_bind; [apply enlarges_when, enlarges_pushView|].
    intros; apply enlarges_ret.
Qed.

Lemma enlarges_returning (A : Type) (v : Value) (m : M A) :
  enlarges m -> enlarges (returning v m).
Proof.
  intros H. unfold returning. apply enlarges_bind; [exact H|].
  intros; apply enlarges_ret.
Qed.

(** The calls and events that remove nothing leave on the surface what is
    there. *)
Lemma enlarges_call (op : Op) : removesNothing op = true -> enlarges (call op).
Proof.
  intros H. destruct op; try discriminate H; unfold call.
  - apply enlarges_returning, enlarges_setupSearch.
  - apply enlarges_bind; [apply enlarges_getSelectedCoordinates|].
    intros; apply enlarges_ret.
  - apply enlarges_bind; [apply enlarges_confirmSelection|].
    intros; apply enlarges_ret.
  - apply enlarges_bind; [apply enlarges_drawRoute|].
    intros; apply enlarges_ret.
  - apply enlarges_returning, enlarges_setView.
  - apply enlarges_bind; [apply enlarges_addMarker | intros; apply enlarges_ret].
  - apply enlarges_bind; [apply enlarges_addMarkers | intros; apply enlarges_ret].
  - apply enlarges_bind; [apply enlarges_addCircle | intros; apply enlarges_ret].
  - apply enlarges_bind; [apply enlarges_addCircles | intros; apply enlarges_ret].
  - apply enlarges_bind; [apply enlarges_gets|]. intros m.
    apply enlarges_returning. destruct m as [m|]; [|apply enlarges_ret].
    destruct (geocoders m); [apply enlarges_ret | apply enlarges_pushView].
  - apply enlarges_bind; [apply enlarges_gets|]. intros m.
    apply enlarges_returning, enlarges_repeatM.
    apply enlarges_bind; [apply enlarges_confirmSelection|].
    intros; apply enlarges_ret.
Qed.

(** Side conditions of [preserves_call] for a property that the update at
    hand does not touch. *)
Ltac kept :=
  intros;
  unfold keptBySelector, keptByEnabling, keptByConfirmation, keptByRequest;
  repeat match goal with |- _ /\ _ => split end;
  intros; try assumption; simpl; try assumption; try discriminate;
  try reflexivity.

(** The selector fields are written by the selector operations only. *)
Lemma selector_fields_kept (op : Op) (s : OpenStreetMap) :
  usesSelector op = false ->
  selectorMarker (step op s) = selectorMarker s
  /\ selectedCoords (step op s) = selectedCoords s.
Proof.
  intros Hu. destruct (is_initMap op) eqn:Hi.
  - destruct op; try discriminate Hi. rewrite step_initMap, initMap_eq. now split.
  - assert (H : (selectorMarker (step op s), selectedCoords (step op s))
                = (selectorMarker s, selectedCoords s)).
    { apply (preserves_step
               (fun s' => (selectorMarker s', selectedCoords s')
                          = (selectorMarker s, selectedCoords s)) op s);
        [|reflexivity].
      apply preserves_call; try exact Hi; kept; congruence. }
    injection H as H1 H2. now split.
Qed.

(** The list of route entries is written by [drawRoute] and [clearRoutes]
    only. *)
Lemma routeLayers_kept (op : Op) (s : OpenStreetMap) :
  writesRoutes op = false -> routeLayers (step op s) = routeLayers s.
Proof.
  intros Hw.
  set (I := fun s' : OpenStreetMap => routeLayers s' = routeLayers s).
  assert (Iw : forall msg s0, I s0 -> I (set_trace (ConsoleWarn msg :: trace s0) s0))
    by (intros msg s0 H; exact H).
  assert (Im : forall f s0, I s0 -> I (set_map (option_map f (map s0)) s0))
    by (intros f s0 H; exact H).
  assert (Io : forall l s0, I s0 -> I (set_objects l s0)) by (intros l s0 H; exact H).
  assert (Ik : forall l s0, I s0 -> I (set_markers l s0)) by (intros l s0 H; exact H).
  assert (Ic : forall l s0, I s0 -> I (set_circles l s0)) by (intros l s0 H; exact H).
  assert (Ks : keptBySelector I) by (split; intros ? s0 H; exact H).
  assert (Ke : keptByEnabling I) by (intros cb s0 H; exact H).
  assert (Kc : keptByConfirmation I) by (split; intros; assumption).
  apply (preserves_step I op s); [|reflexivity].
  destruct op; try discriminate Hw; unfold call.
  - intros s0 H. change (I (step (OpInitMap p) s0)).
    rewrite step_initMap, initMap_eq. exact H.
  - apply preserves_returning, preserves_setupSearch; assumption.
  - apply preserves_returning, preserves_setupSelector; assumption.
  - apply preserves_returning, preserves_placeSelector; assumption.
  - apply preserves_returning, preserves_clearSelector; assumption.
  - apply preserves_bind; [apply preserves_getSelectedCoordinates|].
    intros; apply preserves_ret.
  - apply preserves_bind; [apply preserves_confirmSelection; assumption|].
    intros; apply preserves_ret.
  - apply preserves_returning, preserves_setView; assumption.
  - apply preserves_bind; [apply preserves_addMarker; assumption|].
    intros; apply preserves_ret.
  - apply preserves_bind; [apply preserves_addMarkers; assumption|].
    intros; apply preserves_ret.
  - apply preserves_returning, preserves_clearMarkers; assumption.
  - apply preserves_bind; [apply preserves_addCircle; assumption|].
    intros; apply preserves_ret.
  - apply preserves_bind; [apply preserves_addCircles; assumption|].
    intros; apply preserves_ret.
  - apply preserves_returning, preserves_clearCircles; assumption.
  - apply preserves_bind; [apply preserves_gets|]. intros m.
    apply preserves_returning, preserves_repeatM, preserves_handleMapClick;
      assumption.
  - apply preserves_bind; [apply preserves_gets|]. intros m.
    apply preserves_returning. destruct m as [m|]; [|apply preserves_ret].
    destruct (geocoders m); [apply preserves_ret | now apply preserves_onMap].
  - apply preserves_bind; [apply preserves_gets|]. intros m.
    apply preserves_returning, preserves_repeatM.
    apply preserves_bind; [apply preserves_confirmSelection; assumption|].
    intros; apply preserves_ret.
Qed.

Lemma step_drawRoute (fetch : Text -> FetchOutcome) (o d : option Endpoint)
  (opts : RouteOptions) (s : OpenStreetMap) :
  step (OpDrawRoute fetch o d opts) s = snd (drawRoute fetch o d opts s).
Proof. unfold step, call. now rewrite snd_bind. Qed.

Lemma step_clearRoutes (s : OpenStreetMap) :
  step OpClearRoutes s = snd (clearRoutes s).
Proof. unfold step, call, returning. now rewrite snd_bind. Qed.

Lemma step_clearCircles (s : OpenStreetMap) :
  step OpClearCircles s = snd (clearCircles s).
Proof. unfold step, call, returning. now rewrite snd_bind. Qed.

Lemma step_clearSelector (s : OpenStreetMap) :
  step OpClearSelector s = snd (clearSelector s).
Proof. unfold step, call, returning. now rewrite snd_bind. Qed.

(** The handles of the route entries are allocated. *)
Lemma routeHandles_allocated (s : OpenStreetMap) (h : Handle) :
  wf s -> In h (allRouteHandles s) -> (h < List.length (objects s))%nat.
Proof.
  intros W Hh. unfold allRouteHandles in Hh.
  apply in_flat_map in Hh as (r & Hr & Hh).
  destruct (wf_rt_kind s W r Hr) as (Kp & Ko & Kd).
  unfold routeHandles in Hh. destruct Hh as [<-|Hh]; [now apply kindAt_lt in Kp|].
  destruct (rl_originMarker r) as [ho|], (rl_destinationMarker r) as [hd|];
    simpl in Hh.
  - destruct Hh as [<-|[<-|[]]];
      [apply (kindAt_lt is_marker), Ko | apply (kindAt_lt is_marker), Kd]; reflexivity.
  - destruct Hh as [<-|[]]. apply (kindAt_lt is_marker), Ko. reflexivity.
  - destruct Hh as [<-|[]]. apply (kindAt_lt is_marker), Kd. reflexivity.
  - contradiction.
Qed.

Lemma selector_allocated (s : OpenStreetMap) (h : Handle) :
  wf s -> selectorMarker s = Some h -> (h < List.length (objects s))%nat.
Proof. intros W Hh. now apply (wf_sel_kind s W), kindAt_lt in Hh. Qed.

(** In every state the operations reach, the selector marker is in no
    route entry: a route groups the objects [drawRoute] creates, and the
    selector marker is created by [placeSelector]. *)
Lemma selectorApart_step (op : Op) (s : OpenStreetMap) :
  wf s -> selectorApart s -> selectorApart (step op s).
Proof.
  intros W A h Hh Hin.
  destruct (writesRoutes op) eqn:Hw.
  - destruct (selector_fields_kept op s) as [Hk _];
      [destruct op; try discriminate Hw; reflexivity|].
    rewrite Hk in Hh. pose proof (selector_allocated s h W Hh) as Hlt.
    destruct op; try discriminate Hw.
    + rewrite step_drawRoute in Hin.
      assert (Hsame : forall t, ~ In h (allRouteHandles (set_trace t s)))
        by (intros t; exact (A h Hh)).
      destruct (map s) as [m|] eqn:Hm.
      2: { destruct (drawRoute_invalid fetch origin destination options s) as [t E];
             [now left|]. rewrite E in Hin. exact (Hsame t Hin). }
      assert (Hnone : forall o d,
                match o, d with Some _, Some _ => False | _, _ => True end ->
                ~ In h (allRouteHandles (snd (drawRoute fetch o d options s)))).
      { intros o d Hod Hin'.
        destruct (drawRoute_invalid fetch o d options s) as [t E].
        - right. destruct o, d; try exact I. contradiction.
        - rewrite E in Hin'. exact (Hsame t Hin'). }
      destruct origin as [o|], destination as [d|];
        try (apply Hnone in Hin; [contradiction | exact I]).
      destruct (validEndpoints o d) eqn:Hv.
      2: { destruct (drawRoute_invalid fetch (Some o) (Some d) options s) as [t E];
             [now right|]. rewrite E in Hin. exact (Hsame t Hin). }
      destruct (drawRoute_eq fetch o d options s m Hm Hv) as (data & l & t & _ & _ & E).
      destruct (endpoint_markers_state o d s m Hm) as (_ & _ & O1 & O2 & _ & _ & R2).
      rewrite E in Hin. simpl snd in Hin.
      match type of Hin with context [recordRoute ?f ?r ?s3] =>
        pose proof (core_recordRoute f r s3) as C end.
      unfold core in C. injection C as _ _ _ _ _ _ Cr.
      unfold allRouteHandles in Hin. rewrite Cr in Hin. simpl routeLayers in Hin.
      rewrite R2, flat_map_app in Hin. apply in_app_or in Hin as [Hin|Hin].
      { exact (A h Hh Hin). }
      simpl in Hin. rewrite O2, O1 in Hin. rewrite !length_app in Hin. simpl in Hin.
      destruct Hin as [Hin|[Hin|[Hin|[]]]]; lia.
    + rewrite step_clearRoutes in Hin. destruct (map s) as [m|] eqn:Hm.
      * rewrite (clearRoutes_eq s m Hm) in Hin. exact Hin.
      * destruct (clear_none s Hm) as (_ & _ & E). rewrite E in Hin.
        exact (A h Hh Hin).
  - assert (Hr : allRouteHandles (step op s) = allRouteHandles s).
    { unfold allRouteHandles. now rewrite (routeLayers_kept op s Hw). }
    rewrite Hr in Hin.
    destruct (sound_step false op s ltac:(discriminate) W) as (_ & _ & _ & R & _).
    destruct R as [R|[_ R]].
    + rewrite R in Hh. exact (A h Hh Hin).
    + apply R in Hh. apply (routeHandles_allocated s h W) in Hin. lia.
Qed.

Lemma selectorApart_run (options : ConfigOptions) (ops : list Op) :
  selectorApart (run ops (new options)).
Proof.
  induction ops as [|op ops IH] using rev_ind.
  - intros h Hh. discriminate Hh.
  - rewrite run_snoc. apply selectorApart_step; [|exact IH].
    apply wf_run, wf_new.
Qed.

Lemma surface_clearCircles (s : OpenStreetMap) :
  surface (snd (clearCircles s))
  = filter (fun h => negb (handle_in h (circles s))) (surface s).
Proof.
  destruct (map s) as [m|] eqn:Hm.
  - rewrite (clearCircles_eq s m Hm). unfold surface. simpl. rewrite Hm.
    apply layers_fold_remove.
  - destruct (clear_none s Hm) as (_ & -> & _). unfold surface. simpl.
    now rewrite Hm.
Qed.

(** A selector point placed is a selector marker on the surface. *)
Lemma placeSelector_onSurface (lat lng : JsVal) (icon : option string)
  (s : OpenStreetMap) :
  wf s -> selectorOnSurface s ->
  selectorOnSurface (snd (placeSelector lat lng icon s)).
Proof.
  intros W H.
  destruct (map s) as [m|] eqn:Hm; [destruct (isSelectorEnabled s) eqn:He|].
  - assert (Hi : isInitialized s = true) by (unfold isInitialized; now rewrite Hm).
    destruct (placeSelector_replaces lat lng icon s W Hi He) as (h & Hs & _ & Hin & _).
    intros h' Hh'. rewrite Hs in Hh'. now injection Hh' as <-.
  - destruct (requireSelector_fails s (or_intror He)) as [t E].
    unfold placeSelector, bind. rewrite E. exact H.
  - destruct (requireSelector_fails s (or_introl Hm)) as [t E].
    unfold placeSelector, bind. rewrite E. exact H.
Qed.

Lemma handleMapClick_onSurface (e : ClickEvent) (s : OpenStreetMap) :
  wf s -> selectorOnSurface s ->
  selectorOnSurface (snd (handleMapClick e s)).
Proof.
  intros W H. unfold handleMapClick, bind, gets.
  destruct (isSelectorEnabled s); simpl; [|exact H].
  destruct (click_lat e), (click_lng e); try exact H.
  now apply placeSelector_onSurface.
Qed.

Lemma clicks_onSurface (e : ClickEvent) (n : nat) (s : OpenStreetMap) :
  wf s -> selectorOnSurface s ->
  selectorOnSurface (snd (repeatM n (handleMapClick e) s)).
Proof.
  revert s. induction n as [|n IH]; intros s W H; [exact H|].
  simpl repeatM. rewrite snd_bind. apply IH.
  - now destruct (soundM_handleMapClick false e s W).
  - now apply handleMapClick_onSurface.
Qed.

Lemma setupSelector_onSurface (f : OnSelect) (s : OpenStreetMap) :
  wf s -> selectorOnSurface s ->
  selectorOnSurface (snd (setupSelector f s)).
Proof.
  intros W H. destruct (map s) as [m|] eqn:Hm.
  - rewrite (setupSelector_eq f s m Hm).
    apply placeSelector_onSurface.
    + apply (wf_core s); [|exact W]. unfold core, surface. simpl. now rewrite Hm.
    + intros h Hh. specialize (H h Hh). unfold surface in *. simpl.
      now rewrite Hm in H.
  - unfold setupSelector, bind. rewrite (requireMap_none s Hm). exact H.
Qed.

(** Every call and event other than a new initialisation and
    [clearMarkers] leaves the selector marker of the session on the
    surface. *)
Lemma selectorOnSurface_step (op : Op) (s : OpenStreetMap) :
  wf s -> selectorApart s -> dropsSelector op = false ->
  selectorOnSurface s -> selectorOnSurface (step op s).
Proof.
  intros W A Hd H.
  destruct (removesNothing op) eqn:Hr.
  - destruct (selector_fields_kept op s) as [Hk _];
      [destruct op; try discriminate Hr; reflexivity|].
    intros h Hh. rewrite Hk in Hh.
    apply (enlarges_call op Hr s). now apply H.
  - destruct op; try discriminate Hr; try discriminate Hd.
    + rewrite step_setupSelector. now apply setupSelector_onSurface.
    + rewrite step_placeSelector. now apply placeSelector_onSurface.
    + rewrite step_clearSelector. destruct (map s) as [m|] eqn:Hm.
      * destruct (clearSelector_after s m Hm) as (_ & _ & Hs & _).
        intros h Hh. rewrite Hs in Hh. discriminate Hh.
      * now rewrite clearSelector_noop by now left.
    + destruct (selector_fields_kept OpClearRoutes s eq_refl) as [Hk _].
      intros h Hh. rewrite Hk in Hh.
      rewrite step_clearRoutes, surface_clearRoutes. apply filter_In.
      split; [now apply H|]. apply not_handle_in_true. now apply A.
    + destruct (selector_fields_kept OpClearCircles s eq_refl) as [Hk _].
      intros h Hh. rewrite Hk in Hh.
      rewrite step_clearCircles, surface_clearCircles. apply filter_In.
      split; [now apply H|]. apply not_handle_in_true. intros Hc.
      apply (kind_circle_not_marker s h).
      * now apply (wf_ci_kind s W).
      * now apply (wf_sel_kind s W).
    + destruct (map s) as [m|] eqn:Hm.
      * rewrite (step_click e s m Hm). now apply clicks_onSurface.
      * unfold step, call, bind, gets. rewrite Hm. exact H.
Qed.

Lemma selectorOnSurface_run (ops : list Op) (s : OpenStreetMap) :
  wf s -> selectorApart s -> selectorOnSurface s ->
  forallb (fun op => negb (dropsSelector op)) ops = true ->
  selectorOnSurface (run ops s).
Proof.
  revert s. induction ops as [|op ops IH]; intros s W A H Hops; [exact H|].
  simpl in Hops. apply andb_prop in Hops as [Hop Hops].
  apply negb_true_iff in Hop.
  rewrite run_cons. apply IH; [| | |exact Hops].
  - now destruct (sound_step false op s ltac:(discriminate) W).
  - now apply selectorApart_step.
  - now apply selectorOnSurface_step.
Qed.

(** C9, as amended.  In every state reached by calls and events, the
    session holds a selector marker if and only if it holds selected
    coordinates, and every call or event keeps it so; of all the markers
    that were the selector marker at some point of the run, at most one is
    on the surface, it is the current one, and a point is then selected.
    Placing a selector point on a session whose selector is enabled takes
    the previous selector marker off the surface and leaves exactly one
    active selector marker.  The marker of the selected point stays on the
    surface through every call and event other than [clearMarkers] and a
    new initialisation: in a session initialised at its start and not
    again, where [clearMarkers] is not called, a point is selected if and
    only if there is an active selector marker. *)
Theorem selector_marker_invariant (options : ConfigOptions) (ops : list Op) :
  (selectorMarker (run ops (new options)) = None
   <-> selectedCoords (run ops (new options)) = None)
  /\ (forall op,
        selectorMarker (step op (run ops (new options))) = None
        <-> selectedCoords (step op (run ops (new options))) = None)
  /\ (List.length (activeSelectorMarkers ops (new options)) <= 1)%nat
  /\ (forall h, In h (activeSelectorMarkers ops (new options)) ->
        selectorMarker (run ops (new options)) = Some h
        /\ selectedCoords (run ops (new options)) <> None)
  /\ (forall lat lng icon,
        isInitialized (run ops (new options)) = true ->
        isSelectorEnabled (run ops (new options)) = true ->
        exists h,
          selectorMarker (step (OpPlaceSelector lat lng icon) (run ops (new options)))
          = Some h
          /\ selectedCoords (step (OpPlaceSelector lat lng icon) (run ops (new options)))
             = Some (lat, lng)
          /\ activeSelectorMarkers (ops ++ [OpPlaceSelector lat lng icon]) (new options)
             = [h]
          /\ forall h0, selectorMarker (run ops (new options)) = Some h0 ->
               h0 <> h
               /\ ~ In h0 (surface (step (OpPlaceSelector lat lng icon)
                                      (run ops (new options)))))
  /\ (forall op,
        dropsSelector op = false ->
        selectorOnSurface (run ops (new options)) ->
        selectorOnSurface (step op (run ops (new options))))
  /\ (forall p rest,
        ops = OpInitMap p :: rest ->
        forallb (fun op => negb (dropsSelector op)) rest = true ->
        (selectedCoords (run ops (new options)) <> None
         <-> exists h, In h (activeSelectorMarkers ops (new options)))).
Proof.
  pose proof (wf_run ops (new options) (wf_new options)) as W.
  split; [apply (wf_sel_coords _ W)|].
  split.
  { intros op. rewrite <- run_snoc.
    apply (wf_sel_coords _ (wf_run (ops ++ [op]) (new options) (wf_new options))). }
  split; [apply active_selector_at_most_one|].
  split.
  { intros h Hh. apply active_selector_current in Hh. split; [exact Hh|].
    intros Hc. apply (wf_sel_coords _ W) in Hc. congruence. }
  split.
  { intros lat lng icon Hi He.
    destruct (placeSelector_replaces lat lng icon _ W Hi He)
      as (h & Hs & Hc & Hin & Hold).
    rewrite step_placeSelector. exists h.
    split; [exact Hs|]. split; [exact Hc|]. split; [|exact Hold].
    pose proof (active_selector_at_most_one options
                  (ops ++ [OpPlaceSelector lat lng icon])) as Hlen.
    assert (Hact : In h (activeSelectorMarkers (ops ++ [OpPlaceSelector lat lng icon])
                           (new options))).
    { unfold activeSelectorMarkers. apply filter_In.
      rewrite run_snoc, step_placeSelector. split; [exact Hin|].
      apply handle_in_In, last_selector_in_history.
      now rewrite run_snoc, step_placeSelector. }
    destruct (activeSelectorMarkers (ops ++ [OpPlaceSelector lat lng icon])
                (new options)) as [|x [|y l]]; simpl in *.
    - contradiction.
    - destruct Hact as [->|[]]. reflexivity.
    - lia. }
  split.
  { intros op Hop. apply selectorOnSurface_step; [exact W | | exact Hop].
    apply selectorApart_run. }
  intros p rest E Hrest. split.
  - intros Hc.
    destruct (selectorMarker (run ops (new options))) as [h|] eqn:Hs.
    2: { apply (wf_sel_coords _ W) in Hs. contradiction. }
    exists h. unfold activeSelectorMarkers. apply filter_In. split.
    + revert Hs. subst ops. rewrite run_cons.
      apply selectorOnSurface_run; [| | |exact Hrest].
      * apply (wf_run [OpInitMap p]), wf_new.
      * apply (selectorApart_run options [OpInitMap p]).
      * intros h0 Hh0. rewrite step_initMap, initMap_eq in Hh0. discriminate Hh0.
    + now apply handle_in_In, last_selector_in_history.
  - intros [h Hh] Hc. apply active_selector_current in Hh.
    apply (wf_sel_coords _ W) in Hc. congruence.
Qed.

(** The claim C9 as stated fails: after [initMap], [setupSelector] (which
    places the default point) and [clearMarkers], the point is still
    selected and the session still holds its marker (handle 1), but the
    marker is off the surface, where the tile layer (0) is alone: there is
    a selected point and no selector marker. *)
Lemma selection_outlives_its_marker :
  selectedCoords (run markersCleared (new noOptions))
  = Some (VNum (Fin 8.240773), VNum (Fin (-65.546409)))
  /\ selectorMarker (run markersCleared (new noOptions)) = Some 1%nat
  /\ surface (run markersCleared (new noOptions)) = [0%nat]
  /\ activeSelectorMarkers markersCleared (new noOptions) = []
  /\ visibleMarkers (run markersCleared (new noOptions)) = [].
Proof. repeat split. Qed.

Lemma selector_marker_invariant_witness :
  isInitialized s_selected = true
  /\ isSelectorEnabled s_selected = true
  /\ (exists h,
        activeSelectorMarkers
          (selecting ++ [OpPlaceSelector (VNum (Fin 10.5)) (VNum (Fin (-66.8))) None])
          (new noOptions) = [h])
  /\ (selectedCoords s_selected <> None
      <-> exists h, In h (activeSelectorMarkers selecting (new noOptions))).
Proof.
  split; [reflexivity|]. split; [reflexivity|].
  destruct (selector_marker_invariant noOptions selecting)
    as (_ & _ & _ & _ & H & _ & G).
  split.
  - destruct (H (VNum (Fin 10.5)) (VNum (Fin (-66.8))) None eq_refl eq_refl)
      as (h & _ & _ & Hact & _).
    exists h. exact Hact.
  - exact (G noParams _ eq_refl eq_refl).
Defined.

End SelectorOnSurface.
